(** * The loan calculator of [script.js]: amortization engine

    The script computes the monthly instalment (EMI) of a fixed-rate loan
    with the closed annuity formula, derives total interest and total
    amount, and builds a month-by-month repayment schedule.

    The engine is embedded once, over an interface [Number] of the
    JavaScript number operations it uses, and instantiated twice:

    - [binary64]: IEEE 754 double precision, the arithmetic the script
      really runs on (built on the Standard Library's [SpecFloat]);
    - [exact]: the rationals [Qc], the arithmetic in which the
      algebraic laws of amortization hold exactly.

    Dates follow the ECMAScript definition of [Date]: a time value in
    milliseconds since the epoch, or NaN for an invalid date. *)

From Stdlib Require Import ZArith QArith Qcanon Qround Qabs Lqa List String Ascii Bool Lia Morphisms.
From Stdlib Require Import SpecFloat DecimalString DecimalN.
Import ListNotations.

Local Open Scope Z_scope.

(** ** Outcomes of a JavaScript call

    A call returns a value or throws.  The engine's only throw is the
    [RangeError] of [Date.prototype.toISOString] on an invalid date.
    [NoReturn] stands for a run of the schedule loop whose guard never
    fails and whose dates are all valid: the loop goes on pushing rows
    and returns nothing. *)

Inductive exn : Type :=
| RangeError (* Invalid time value *).

Inductive outcome (A : Type) : Type :=
| Ret (a : A)
| Throw (e : exn)
| NoReturn.

Arguments Ret {A} a.
Arguments Throw {A} e.
Arguments NoReturn {A}.

Definition bind {A B : Type} (c : outcome A) (k : A -> outcome B) : outcome B :=
  match c with
  | Ret a => k a
  | Throw e => Throw e
  | NoReturn => NoReturn
  end.

Declare Scope js_scope.
Delimit Scope js_scope with js.
Notation "x <- c ;; k" := (bind c (fun x => k))
  (at level 61, c at next level, right associativity) : js_scope.

(** ** Calendar arithmetic of ECMAScript [Date]

    Time values are integers (milliseconds since 1970-01-01T00:00:00Z).
    Every quantity below stays an exact integer in double arithmetic as
    long as the final [TimeClip] accepts it, so [Z] is exact here. *)

Module JSDate.

Definition msPerDay : Z := 86400000.

Definition Day (t : Z) : Z := t / msPerDay.
Definition TimeWithinDay (t : Z) : Z := t mod msPerDay.

Definition isLeap (y : Z) : bool :=
  ((y mod 4 =? 0) && negb (y mod 100 =? 0)) || (y mod 400 =? 0).

Definition DaysInYear (y : Z) : Z := if isLeap y then 366 else 365.

Definition DayFromYear (y : Z) : Z :=
  365 * (y - 1970) + (y - 1969) / 4 - (y - 1901) / 100 + (y - 1601) / 400.

(** [YearFromDay d] is the year [y] with
    [DayFromYear y <= d < DayFromYear (y + 1)]: a first estimate from the
    mean length of a year, corrected by at most one. *)
Definition YearFromDay (d : Z) : Z :=
  let y := 1970 + (400 * d) / 146097 in
  if d <? DayFromYear y then y - 1
  else if DayFromYear (y + 1) <=? d then y + 1
  else y.

Definition YearFromTime (t : Z) : Z := YearFromDay (Day t).

Definition DayWithinYear (t : Z) : Z := Day t - DayFromYear (YearFromTime t).

(** Days before month [m] (0 = January) in a year, leap or not. *)
Definition daysBeforeMonth (leap : bool) (m : Z) : Z :=
  let l := if leap then 1 else 0 in
  match m with
  | 0 => 0
  | 1 => 31
  | 2 => 59 + l
  | 3 => 90 + l
  | 4 => 120 + l
  | 5 => 151 + l
  | 6 => 181 + l
  | 7 => 212 + l
  | 8 => 243 + l
  | 9 => 273 + l
  | 10 => 304 + l
  | 11 => 334 + l
  | _ => 365 + l
  end.

Definition daysInMonth (leap : bool) (m : Z) : Z :=
  daysBeforeMonth leap (m + 1) - daysBeforeMonth leap m.

Fixpoint monthOfDay (leap : bool) (fuel : nat) (m : Z) (d : Z) : Z :=
  match fuel with
  | O => m
  | S fuel' =>
      if d <? daysBeforeMonth leap (m + 1) then m
      else monthOfDay leap fuel' (m + 1) d
  end.

Definition MonthFromTime (t : Z) : Z :=
  monthOfDay (isLeap (YearFromTime t)) 11 0 (DayWithinYear t).

Definition DateFromTime (t : Z) : Z :=
  DayWithinYear t
  - daysBeforeMonth (isLeap (YearFromTime t)) (MonthFromTime t) + 1.

(** [MakeDay(year, month, date)]: the month may be any integer; it is
    reduced into the year, and the day of the month runs over into the
    following months when it exceeds the month's length. *)
Definition MakeDay (year month dt : Z) : Z :=
  let ym := year + month / 12 in
  let mn := month mod 12 in
  DayFromYear ym + daysBeforeMonth (isLeap ym) mn + dt - 1.

Definition MakeDate (day time : Z) : Z := day * msPerDay + time.

(** [TimeClip]: a time value beyond 8.64e15 ms from the epoch is NaN. *)
Definition TimeClip (t : Z) : option Z :=
  if Z.abs t <=? 8640000000000000 then Some t else None.

(** What the host decides: the local time zone adjustment and how a
    string is parsed by [new Date(string)]. *)
Record Host : Type := {
  LocalTZA : Z -> bool -> Z;
  Date_parse : string -> option Z
}.

Section WithHost.

Variable host : Host.

Definition LocalTime (t : Z) : Z := t + LocalTZA host t true.
Definition UTC (t : Z) : Z := t - LocalTZA host t false.

(** A [Date] object: its time value, [None] for NaN. *)
Definition Date : Type := option Z.

(** [new Date(startDate)] with a string argument. *)
Definition newDate (s : string) : Date :=
  match Date_parse host s with
  | Some t => TimeClip t
  | None => None
  end.

(** [date.getMonth()]: a month number, or NaN. *)
Definition getMonth (d : Date) : option Z :=
  match d with
  | Some t => Some (MonthFromTime (LocalTime t))
  | None => None
  end.

(** [date.setMonth(month)]: the object after the call. *)
Definition setMonth (d : Date) (month : option Z) : Date :=
  match d, month with
  | Some t0, Some m =>
      let t := LocalTime t0 in
      let newDate :=
        MakeDate (MakeDay (YearFromTime t) m (DateFromTime t)) (TimeWithinDay t) in
      TimeClip (UTC newDate)
  | _, _ => None
  end.

End WithHost.

(** *** Formatting: [toISOString] and [split('T')[0]] *)

Definition digit (n : Z) : ascii := ascii_of_nat (48 + Z.to_nat (n mod 10)).

Fixpoint pad (width : nat) (n : Z) (acc : string) : string :=
  match width with
  | O => acc
  | S w => pad w (n / 10) (String (digit n) acc)
  end.

Definition isoYear (y : Z) : string :=
  if (0 <=? y) && (y <=? 9999) then pad 4 y ""
  else if 0 <=? y then String "+" (pad 6 y "")
  else String "-" (pad 6 (- y) "").

(** The date part [YYYY-MM-DD] of year [y], month [m] (0 = January)
    and day [d]. *)
Definition isoDate (y m d : Z) : string :=
  (isoYear y ++ "-" ++ pad 2 (m + 1) "" ++ "-" ++ pad 2 d "")%string.

Definition toISOString (d : Date) : outcome string :=
  match d with
  | None => Throw RangeError
  | Some t =>
      let w := TimeWithinDay t in
      Ret (isoDate (YearFromTime t) (MonthFromTime t) (DateFromTime t)
           ++ "T" ++ pad 2 (w / 3600000) ""
           ++ ":" ++ pad 2 (w / 60000 mod 60) ""
           ++ ":" ++ pad 2 (w / 1000 mod 60) ""
           ++ "." ++ pad 3 (w mod 1000) "" ++ "Z")%string
  end.

(** [s.split('T')[0]]: the text before the first [T]. *)
Fixpoint split_T_0 (s : string) : string :=
  match s with
  | EmptyString => EmptyString
  | String c s' => if Ascii.eqb c "T" then EmptyString else String c (split_T_0 s')
  end.

(** [noT s]: no character of [s] is a [T]. *)
Fixpoint noT (s : string) : bool :=
  match s with
  | EmptyString => true
  | String c s' => negb (Ascii.eqb c "T") && noT s'
  end.

(** *** A reference host: UTC, ISO date-only strings

    [YYYY-MM-DD] is read as midnight UTC of that day, as ECMAScript
    prescribes for the date-only form (the value an
    [<input type="date">] yields); every other string is an invalid
    date here. *)

Definition digitValue (c : ascii) : option Z :=
  let n := Z.of_nat (nat_of_ascii c) in
  if (48 <=? n) && (n <=? 57) then Some (n - 48) else None.

Fixpoint digits (s : list ascii) (acc : Z) : option Z :=
  match s with
  | [] => Some acc
  | c :: s' =>
      match digitValue c with
      | Some v => digits s' (10 * acc + v)
      | None => None
      end
  end.

Definition parseISODate (s : string) : option Z :=
  match list_ascii_of_string s with
  | [y1; y2; y3; y4; d1; m1; m2; d2; dd1; dd2] =>
      if Ascii.eqb d1 "-" && Ascii.eqb d2 "-" then
        match digits [y1; y2; y3; y4] 0, digits [m1; m2] 0, digits [dd1; dd2] 0 with
        | Some y, Some m, Some d =>
            if (1 <=? m) && (m <=? 12) && (1 <=? d)
               && (d <=? daysInMonth (isLeap y) (m - 1))
            then Some (MakeDate (MakeDay y (m - 1) d) 0)
            else None
        | _, _, _ => None
        end
      else None
  | _ => None
  end.

Definition utcHost : Host :=
  {| LocalTZA := fun _ _ => 0; Date_parse := parseISODate |}.

(** The same parser in a zone at a fixed offset from UTC, in
    milliseconds (negative to the west). *)
Definition offsetHost (offset : Z) : Host :=
  {| LocalTZA := fun _ _ => offset; Date_parse := parseISODate |}.

End JSDate.

(** ** The number operations the engine uses

    [Number] collects what the script asks of a JavaScript number:
    literals, the four operations, [Math.pow], the trip count of
    [for (let i = 0; i < d; i++)], and [toFixed(2)].

    [loopBound d] is the number of times the guard [i < d] holds for
    [i = 0, 1, 2, ...]; it is [None] when the guard never fails. *)

Class Number (num : Type) : Type := {
  ofZ : Z -> num;
  num_add : num -> num -> num;
  num_sub : num -> num -> num;
  num_mul : num -> num -> num;
  num_div : num -> num -> num;
  Math_pow : num -> num -> num;
  loopBound : num -> option nat;
  toFixed2 : num -> string
}.

Declare Scope num_scope.
Delimit Scope num_scope with num.
Infix "+" := num_add : num_scope.
Infix "-" := num_sub : num_scope.
Infix "*" := num_mul : num_scope.
Infix "/" := num_div : num_scope.

(** ** The engine *)

(** One line of the schedule, as pushed by the loop: four strings. *)
Record Row : Type := {
  date : string;
  principalAmount : string;
  interest : string;
  balance : string
}.

(** The object [calculateLoanDetails] returns. *)
Record LoanResult (num : Type) : Type := {
  monthlyEMI : num;
  totalInterest : num;
  totalAmount : num;
  repaymentSchedule : list Row
}.

Arguments monthlyEMI {num} _.
Arguments totalInterest {num} _.
Arguments totalAmount {num} _.
Arguments repaymentSchedule {num} _.

(** What [calculateLoan] writes to the page: the four text fields, the
    rows handed to the table, the two values handed to the pie chart. *)
Record Page (num : Type) : Type := {
  loan_amount_result : string;
  monthly_emi : string;
  total_interest : string;
  total_amount : string;
  schedule_rows : list Row;
  pie_data : list num
}.

Arguments loan_amount_result {num} _.
Arguments monthly_emi {num} _.
Arguments total_interest {num} _.
Arguments total_amount {num} _.
Arguments schedule_rows {num} _.
Arguments pie_data {num} _.

Section Engine.

Context {num : Type} {N : Number num}.
Variable host : JSDate.Host.

Local Open Scope num_scope.
Local Open Scope js_scope.

(** Lines 38-39: a fresh [Date] from [startDate], moved [i] months on. *)
Definition periodDate (startDate : string) (i : Z) : JSDate.Date :=
  let date := JSDate.newDate host startDate in
  JSDate.setMonth host date
    (option_map (fun m => (m + i)%Z) (JSDate.getMonth host date)).

(** Lines 38-50: one turn of the loop on the state
    [(balance, scheduleArray)]. *)
Definition loopBody (monthlyEMI : num) (startDate : string) (interestRate : num)
    (i : Z) (st : num * list Row) : outcome (num * list Row) :=
  let '(balance, scheduleArray) := st in
  let date := periodDate startDate i in
  let interest := balance * (interestRate / ofZ 12) in
  let principal := monthlyEMI - interest in
  let balance := balance - principal in
  iso <- JSDate.toISOString date ;;
  Ret (balance,
       scheduleArray ++
         [ {| date := JSDate.split_T_0 iso;
              principalAmount := toFixed2 principal;
              interest := toFixed2 interest;
              balance := toFixed2 balance |} ]).

(** Line 37: [k] more turns, starting at index [i]. *)
Fixpoint forLoop (monthlyEMI : num) (startDate : string) (interestRate : num)
    (k : nat) (i : Z) (st : num * list Row) : outcome (num * list Row) :=
  match k with
  | O => Ret st
  | S k' =>
      st' <- loopBody monthlyEMI startDate interestRate i st ;;
      forLoop monthlyEMI startDate interestRate k' (i + 1)%Z st'
  end.

(** [dateFails startDate depth i]: one of the [2 ^ depth] period dates
    from index [i] on is invalid, so that [toISOString] throws there. *)
Fixpoint dateFails (startDate : string) (depth : nat) (i : Z) : bool :=
  match depth with
  | O => match periodDate startDate i with
         | Some _ => false
         | None => true
         end
  | S depth' =>
      if dateFails startDate depth' i then true
      else dateFails startDate depth' (i + 2 ^ Z.of_nat depth')%Z
  end.

(** Line 37 with a guard that never fails (a duration above [2^53], or
    [Infinity]): the counter takes every value from [0] to [2^53] and
    stays there.  The run throws at the first of these indices whose
    date is invalid; the amounts and the rows pushed before are lost
    with it.  Where every date is valid the loop never ends. *)
Definition unboundedLoop (startDate : string) : outcome (num * list Row) :=
  if dateFails startDate 53 0%Z then Throw RangeError
  else
    match periodDate startDate (2 ^ 53)%Z with
    | Some _ => NoReturn
    | None => Throw RangeError
    end.

(** Lines 33-54, keeping the final balance next to the array. *)
Definition scheduleRun (loanAmount monthlyEMI loanDuration : num)
    (startDate : string) (interestRate : num) : outcome (num * list Row) :=
  match loopBound loanDuration with
  | Some k => forLoop monthlyEMI startDate interestRate k 0%Z (loanAmount, [])
  | None => unboundedLoop startDate
  end.

Definition generateRepaymentScheduleArray (loanAmount monthlyEMI loanDuration : num)
    (startDate : string) (interestRate : num) : outcome (list Row) :=
  st <- scheduleRun loanAmount monthlyEMI loanDuration startDate interestRate ;;
  Ret (snd st).

(** Lines 19-31. *)
Definition calculateLoanDetails (loanAmount interestRate loanDuration : num)
    (startDate : string) : outcome (LoanResult num) :=
  let monthlyInterest := interestRate / ofZ 12 in
  let numerator :=
    loanAmount * monthlyInterest * Math_pow (ofZ 1 + monthlyInterest) loanDuration in
  let denominator := Math_pow (ofZ 1 + monthlyInterest) loanDuration - ofZ 1 in
  let monthlyEMI := numerator / denominator in
  repaymentSchedule <-
    generateRepaymentScheduleArray loanAmount monthlyEMI loanDuration startDate
      interestRate ;;
  let totalInterest := monthlyEMI * loanDuration - loanAmount in
  let totalAmount := totalInterest + loanAmount in
  Ret {| monthlyEMI := monthlyEMI;
         totalInterest := totalInterest;
         totalAmount := totalAmount;
         repaymentSchedule := repaymentSchedule |}.

(** Lines 2-17, from the parsed inputs: [loan_amount] and
    [interest_rate] are the results of [parseFloat], [loan_duration]
    that of [parseInt], [start_date] the text of the date field. *)
Definition calculateLoan (loan_amount interest_rate loan_duration : num)
    (start_date : string) : outcome (Page num) :=
  let loanAmount := loan_amount in
  let interestRate := interest_rate / ofZ 100 in
  let loanDuration := loan_duration in
  let startDate := start_date in
  r <- calculateLoanDetails loanAmount interestRate loanDuration startDate ;;
  Ret {| loan_amount_result := toFixed2 loanAmount;
         monthly_emi := toFixed2 (monthlyEMI r);
         total_interest := toFixed2 (totalInterest r);
         total_amount := toFixed2 (totalAmount r);
         schedule_rows := repaymentSchedule r;
         pie_data := [loanAmount; totalInterest r] |}.

End Engine.

(** ** [toFixed(2)] on an exact value

    [Number.prototype.toFixed] works on the mathematical value [x] of
    the number: the sign is split off, [n] is the integer nearest to
    [100 * |x|] (the larger one on a tie), and [n] is printed with a
    point before its last two digits. *)

Module Fixed.

Definition cents (x : Q) : Z := Qfloor (Qabs x * 100 + (1 # 2)).

Definition isNegative (x : Q) : bool := negb (Qle_bool 0 x).

Definition decimal (n : Z) : string := NilZero.string_of_uint (N.to_uint (Z.to_N n)).

Definition render (negative : bool) (n : Z) : string :=
  ((if negative then "-" else "")
   ++ decimal (n / 100) ++ "." ++ JSDate.pad 2 (n mod 100) "")%string.

Definition toFixed2 (x : Q) : string := render (isNegative x) (cents x).

End Fixed.

(** ** Exact arithmetic: the rationals

    [Math.pow] is only ever applied to the loan duration, an integer;
    a rational power at a fractional exponent has no rational value in
    general, and this instance takes the integer part of the exponent.
    Division by zero yields zero, as in [Qc]: the instance is meant for
    inputs where the formula's denominator does not vanish. *)

Module Exact.

Definition powZ (x : Qc) (z : Z) : Qc :=
  match z with
  | Z0 => 1%Qc
  | Zpos p => (x ^ Pos.to_nat p)%Qc
  | Zneg p => (/ (x ^ Pos.to_nat p))%Qc
  end.

#[export] Instance exact : Number Qc := {|
  ofZ z := Q2Qc (inject_Z z);
  num_add := Qcplus;
  num_sub := Qcminus;
  num_mul := Qcmult;
  num_div := Qcdiv;
  Math_pow x y := powZ x (Qfloor y);
  loopBound d := Some (Z.to_nat (Qceiling d));
  toFixed2 x := Fixed.toFixed2 x
|}.

End Exact.

(** ** Double precision: the arithmetic the script runs on

    A JavaScript number is an IEEE 754 binary64 value; the operations
    are those of [SpecFloat] at precision 53 and maximal exponent
    1024, rounding to nearest, ties to even. *)

Module F64.

Definition prec : Z := 53.
Definition emax : Z := 1024.

Definition number : Type := spec_float.

Definition NaN : number := S754_nan.
Definition Infinity : number := S754_infinity false.

(** The double nearest to an integer (a numeric literal such as [12]). *)
Definition ofZ (z : Z) : number := binary_normalize prec emax z 0 false.

(** The double nearest to [p / q], for [p] a double itself (a decimal
    literal such as [0.005], which is [5 / 1000]). *)
Definition ofFraction (p : Z) (q : positive) : number :=
  SFdiv prec emax (ofZ p) (S754_finite false q 0).

Definition add : number -> number -> number := SFadd prec emax.
Definition sub : number -> number -> number := SFsub prec emax.
Definition mul : number -> number -> number := SFmul prec emax.
Definition div : number -> number -> number := SFdiv prec emax.

Definition isFinite (x : number) : bool :=
  match x with S754_zero _ | S754_finite _ _ _ => true | _ => false end.

(** The mathematical value of a finite double. *)
Definition toQ (x : number) : Q :=
  match x with
  | S754_finite s m e =>
      let v := match e with
               | Zneg p => Z.pos m # 2 ^ p
               | _ => inject_Z (Z.pos m * 2 ^ e)
               end in
      if s then Qopp v else v
  | _ => 0%Q
  end.

(** [isInteger x] and [toZ x]: whether a double is integral, and the
    integer it then is. *)
Definition isInteger (x : number) : bool :=
  isFinite x && (Qden (Qred (toQ x)) =? 1)%positive.

Definition toZ (x : number) : Z := Qfloor (toQ x).

(** *** The loop guard [i < d]

    The counter [i] starts at [0] and is incremented by one: it is the
    exact integer up to [2^53], where [i + 1] rounds back to [i].  For
    [d] not above [2^53] the guard fails at [i = ceil d]; NaN compares
    false at once; beyond [2^53] the guard holds for ever. *)
Definition loopBound (d : number) : option nat :=
  match d with
  | S754_infinity false => None
  | S754_finite false _ _ =>
      let c := Qceiling (toQ d) in
      if c <=? 2 ^ 53 then Some (Z.to_nat c) else None
  | _ => Some O
  end.

(** The guard itself, run with the double counter [i] of the script:
    the number of times [i < d] holds before it fails, if it fails
    within [fuel] tests.  Lemma [loopBound_counts_guard] relates it to
    [loopBound]. *)
Fixpoint guardTrips (fuel : nat) (i d : number) : option nat :=
  match fuel with
  | O => None
  | S fuel' =>
      if SFltb i d then option_map S (guardTrips fuel' (add i (ofZ 1)) d)
      else Some O
  end.

(** *** [Number::toString] of an integral double of 22 digits or more

    The shortest decimal that reads back as the same double, in
    exponent notation: the least number [k] of digits for which a
    [k]-digit decimal rounds to [v]; of the two [k]-digit decimals
    around [v], the one that rounds to [v], the nearer one when both
    do, the even one on a tie. *)
Definition numDigits (v : Z) : Z := Z.of_nat (String.length (Fixed.decimal v)).

Fixpoint shortest (fuel : nat) (k : Z) (d : Z) (v : Z) : Z :=
  match fuel with
  | O => v
  | S fuel' =>
      let scale := 10 ^ (d - k) in
      let below := v / scale * scale in
      let above := below + scale in
      let okBelow := SFeqb (ofZ below) (ofZ v) in
      let okAbove := SFeqb (ofZ above) (ofZ v) in
      if okBelow && okAbove then
        if v - below <? above - v then below
        else if above - v <? v - below then above
        else if Z.even (v / scale) then below else above
      else if okBelow then below
      else if okAbove then above
      else shortest fuel' (k + 1) d v
  end.

Fixpoint stripZeros (fuel : nat) (n : Z) : Z :=
  match fuel with
  | O => n
  | S fuel' => if (0 <? n) && (n mod 10 =? 0) then stripZeros fuel' (n / 10) else n
  end.

Definition toStringLarge (v : Z) : string :=
  let w := shortest 17 1 (numDigits v) v in
  let n := numDigits w in
  let s := Fixed.decimal (stripZeros (Z.to_nat n) w) in
  match s with
  | String c EmptyString => String c "" ++ "e+" ++ Fixed.decimal (n - 1)
  | String c rest => String c "" ++ "." ++ rest ++ "e+" ++ Fixed.decimal (n - 1)
  | EmptyString => EmptyString
  end%string.

(** *** [toFixed(2)] *)
Definition toFixed2 (x : number) : string :=
  match x with
  | S754_nan => "NaN"
  | S754_infinity false => "Infinity"
  | S754_infinity true => "-Infinity"
  | _ =>
      let q := toQ x in
      if Qle_bool (inject_Z (10 ^ 21)) (Qabs q)
      then ((if Fixed.isNegative q then "-" else "")
            ++ toStringLarge (Qfloor (Qabs q)))%string
      else Fixed.toFixed2 q
  end.

(** *** [Math.pow]

    ECMAScript fixes the result of [Math.pow] on the special operands
    and leaves the rest "implementation-approximated".  The instance
    therefore takes the host's function as an argument; the clauses
    the proofs need are stated as properties of it. *)

#[export] Instance binary64 (pow : number -> number -> number) : Number number :=
  Build_Number number ofZ add sub mul div pow loopBound toFixed2.

(** The standard's clause "if exponent is +0 or -0, return 1". *)
Definition pow_zero_exponent (pow : number -> number -> number) : Prop :=
  forall x s, pow x (S754_zero s) = ofZ 1.

(** [1] to any finite power is [1]. *)
Definition pow_one_base (pow : number -> number -> number) : Prop :=
  forall y, isFinite y = true -> pow (ofZ 1) y = ofZ 1.

(** *** A reference [Math.pow]

    The special operands as the standard lists them; [1] for the base
    [1]; at any other finite nonzero base and an integral exponent,
    the correctly rounded power.  A fractional exponent at such a base
    is outside this reference (the engine's exponent comes from
    [parseInt]); NaN stands there. *)

Fixpoint oddPart (m : positive) (e : Z) : positive * Z :=
  match m with
  | xO p => oddPart p (e + 1)
  | _ => (m, e)
  end.

Definition isOddInteger (y : number) : bool := isInteger y && Z.odd (toZ y).

Definition isPositive (y : number) : bool := SFltb (S754_zero false) y.

Definition powInteger (s : bool) (m : positive) (e : Z) (k : Z) : number :=
  let '(m', e') := oddPart m e in
  let sign := s && Z.odd k in
  match k with
  | Z0 => ofZ 1
  | Zpos p => binary_normalize prec emax
                (if sign then Z.neg (m' ^ p) else Z.pos (m' ^ p)) (e' * k) false
  | Zneg p => SFdiv prec emax (ofZ 1) (S754_finite sign (m' ^ p) (e' * Z.pos p))
  end.

Definition powRef (base exponent : number) : number :=
  match exponent, base with
  | S754_nan, _ => NaN
  | S754_zero _, _ => ofZ 1
  | _, S754_nan => NaN
  | _, S754_infinity false =>
      if isPositive exponent then Infinity else S754_zero false
  | _, S754_infinity true =>
      if isPositive exponent
      then (if isOddInteger exponent then S754_infinity true else Infinity)
      else (if isOddInteger exponent then S754_zero true else S754_zero false)
  | _, S754_zero false =>
      if isPositive exponent then S754_zero false else Infinity
  | _, S754_zero true =>
      if isPositive exponent
      then (if isOddInteger exponent then S754_zero true else S754_zero false)
      else (if isOddInteger exponent then S754_infinity true else Infinity)
  | S754_infinity es, S754_finite _ m e =>
      match SFcompare (S754_finite false m e) (ofZ 1) with
      | Some Gt => if es then S754_zero false else Infinity
      | Some Lt => if es then Infinity else S754_zero false
      | _ => NaN
      end
  | S754_finite _ _ _, S754_finite s m e =>
      if SFeqb base (ofZ 1) then ofZ 1
      else if isInteger exponent then powInteger s m e (toZ exponent)
      else NaN
  end.

End F64.

(** ** The specification's reading of the engine

    The definitions of this module follow the words of the
    specification (section 4.1), not the code: the monthly rate, the
    payment formula, the recurrence of the running balance and the row
    of a period.  The theorems below compare them with the engine. *)

Module Spec.

Section WithNumber.

Context {num : Type} {N : Number num}.
Variable host : JSDate.Host.

Local Open Scope num_scope.

(** Step 1: [monthlyRate = (annualRatePercent / 100) / 12]. *)
Definition monthlyRate (annualRatePercent : num) : num :=
  (annualRatePercent / ofZ 100) / ofZ 12.

(** Step 2: the fixed-payment formula. *)
Definition monthlyPayment (principal annualRatePercent termMonths : num) : num :=
  let r := monthlyRate annualRatePercent in
  principal * r * Math_pow (ofZ 1 + r) termMonths
  / (Math_pow (ofZ 1 + r) termMonths - ofZ 1).

(** Step 3: the running balance carried into period [i], unrounded. *)
Fixpoint runningBalance (principal payment rate : num) (i : nat) : num :=
  match i with
  | O => principal
  | S j =>
      let b := runningBalance principal payment rate j in
      b - (payment - b * rate)
  end.

Definition interestPortion (principal payment rate : num) (i : nat) : num :=
  runningBalance principal payment rate i * rate.

Definition principalPortion (principal payment rate : num) (i : nat) : num :=
  payment - interestPortion principal payment rate i.

(** The date shown for period [i]: a function of the start date and of
    [i] alone.  The specification leaves the rule for months without
    the day of the start date open (section 9); this is the rule of
    the engine's [periodDate]. *)
Definition dateText (startDate : string) (i : nat) : string :=
  match JSDate.toISOString (periodDate host startDate (Z.of_nat i)) with
  | Ret iso => JSDate.split_T_0 iso
  | _ => EmptyString
  end.

(** The row of period [i]: the three amounts rounded for display. *)
Definition periodRow (principal payment rate : num) (startDate : string)
    (i : nat) : Row :=
  {| date := dateText startDate i;
     principalAmount := toFixed2 (principalPortion principal payment rate i);
     interest := toFixed2 (interestPortion principal payment rate i);
     balance := toFixed2 (runningBalance principal payment rate (S i)) |}.

Definition schedule (principal payment rate : num) (startDate : string)
    (n : nat) : list Row :=
  map (periodRow principal payment rate startDate) (seq 0 n).

End WithNumber.

End Spec.

(** ** When the engine returns

    [datesValid host startDate n]: the dates of the periods
    [0 .. n - 1] are all valid time values, so that no
    [toISOString] throws. *)

Definition dateValid (host : JSDate.Host) (startDate : string) (i : nat) : bool :=
  match periodDate host startDate (Z.of_nat i) with
  | Some _ => true
  | None => false
  end.

Definition datesValid (host : JSDate.Host) (startDate : string) (n : nat) : bool :=
  forallb (dateValid host startDate) (seq 0 n).

(** ** The reference run-time

    Double precision with the reference [Math.pow], and the UTC host:
    the concrete setting of the examples. *)

Definition refDouble : Number F64.number := F64.binary64 F64.powRef.

(** ** A zone with summer time

    One hour east of UTC, two hours from April to September.  The
    month is read off the time value as it is handed over, UTC or
    local: the two readings differ within two hours of a change only. *)

Definition summerTimeHost : JSDate.Host :=
  {| JSDate.LocalTZA := fun t _ =>
       if (3 <=? JSDate.MonthFromTime t) && (JSDate.MonthFromTime t <=? 8)
       then 7200000 else 3600000;
     JSDate.Date_parse := JSDate.parseISODate |}.

(** ** The rows as markup

    [generateRepaymentSchedule] (lines 56-64) writes the table as
    markup: the header row of line 59, then for every entry the row
    of line 62, its four cells put between the tags as they are.
    What the table element makes of the markup is the browser's
    affair; the strings are the script's. *)

Definition headerMarkup : string :=
  "<tr><th>Date</th><th>Principal Amount</th><th>Interest</th><th>Balance</th></tr>".

Definition rowMarkup (entry : Row) : string :=
  ("<tr><td>" ++ date entry ++ "</td><td>" ++ principalAmount entry
   ++ "</td><td>" ++ interest entry ++ "</td><td>" ++ balance entry
   ++ "</td></tr>")%string.

(** [hasChar c s]: the character [c] occurs in [s]; [allIn alphabet s]:
    every character of [s] occurs in [alphabet]; [countChar c s]: the
    number of occurrences of [c] in [s]. *)
Fixpoint hasChar (c : ascii) (s : string) : bool :=
  match s with
  | EmptyString => false
  | String c' s' => Ascii.eqb c c' || hasChar c s'
  end.

Fixpoint allIn (alphabet s : string) : bool :=
  match s with
  | EmptyString => true
  | String c s' => hasChar c alphabet && allIn alphabet s'
  end.

Fixpoint countChar (c : ascii) (s : string) : nat :=
  match s with
  | EmptyString => O
  | String c' s' => ((if Ascii.eqb c c' then 1 else 0) + countChar c s')%nat
  end.

Definition dateAlphabet : string := "0123456789-+".
Definition amountAlphabet : string := "0123456789.-+eNaInfity".

(** ** Reading the fields: [parseFloat] and [parseInt]

    Lines 3-5 read the loan amount and the rate with [parseFloat] and
    the duration with [parseInt], both called with the text of a
    field as their only argument.  A text is a string of code units
    below 256, so the white space stripped from its start is
    TAB, LF, VT, FF, CR, SP and NBSP.  The number read is rounded
    correctly to a double; the standard leaves an implementation the
    choice of dropping decimal digits after the twentieth. *)

Module Fields.

(** [firstNotIn chars s]: [s] is empty or starts with a character
    that is none of [chars]. *)
Definition firstNotIn (chars s : string) : bool :=
  match s with
  | String c _ => negb (hasChar c chars)
  | EmptyString => true
  end.

Definition isWhiteSpace (c : ascii) : bool :=
  let n := nat_of_ascii c in
  ((n =? 9) || (n =? 10) || (n =? 11) || (n =? 12) || (n =? 13) || (n =? 32)
   || (n =? 160))%nat.

(** [TrimString(s, start)]. *)
Fixpoint trimStart (s : string) : string :=
  match s with
  | String c s' => if isWhiteSpace c then trimStart s' else s
  | EmptyString => EmptyString
  end.

(** A leading sign: whether it is a minus, and the text after it. *)
Definition splitSign (s : string) : bool * string :=
  match s with
  | String c s' =>
      if Ascii.eqb c "-" then (true, s')
      else if Ascii.eqb c "+" then (false, s')
      else (false, s)
  | EmptyString => (false, s)
  end.

(** The leading decimal digits of [s], read onto [acc]: the value, the
    number of digits, the text left. *)
Fixpoint takeDigits (s : string) (acc : Z) (count : nat) : Z * nat * string :=
  match s with
  | String c s' =>
      match JSDate.digitValue c with
      | Some v => takeDigits s' (10 * acc + v) (S count)
      | None => (acc, count, s)
      end
  | EmptyString => (acc, count, s)
  end.

Definition hexValue (c : ascii) : option Z :=
  let n := Z.of_nat (nat_of_ascii c) in
  if (48 <=? n) && (n <=? 57) then Some (n - 48)
  else if (65 <=? n) && (n <=? 70) then Some (n - 55)
  else if (97 <=? n) && (n <=? 102) then Some (n - 87)
  else None.

Fixpoint takeHexDigits (s : string) (acc : Z) (count : nat) : Z * nat * string :=
  match s with
  | String c s' =>
      match hexValue c with
      | Some v => takeHexDigits s' (16 * acc + v) (S count)
      | None => (acc, count, s)
      end
  | EmptyString => (acc, count, s)
  end.

(** The text after a leading [0x] or [0X], if there is one. *)
Definition hexPrefix (s : string) : option string :=
  match s with
  | String c0 (String c1 s') =>
      if Ascii.eqb c0 "0" && (Ascii.eqb c1 "x" || Ascii.eqb c1 "X") then Some s'
      else None
  | _ => None
  end.

(** The double for the integer of [negative] sign and magnitude
    [magnitude]; a zero keeps the sign. *)
Definition ofInteger (negative : bool) (magnitude : Z) : F64.number :=
  if magnitude =? 0 then S754_zero negative
  else binary_normalize F64.prec F64.emax
         (if negative then - magnitude else magnitude) 0 false.

(** [parseInt(string)], the radix left out. *)
Definition parseInt (string : string) : F64.number :=
  let '(negative, rest) := splitSign (trimStart string) in
  let '(mathInt, count, _) :=
    match hexPrefix rest with
    | Some hex => takeHexDigits hex 0 0
    | None => takeDigits rest 0 0
    end in
  match count with
  | O => F64.NaN
  | _ => ofInteger negative mathInt
  end.

(** The double for [mantissa * 10 ^ exponent10], of [negative] sign. *)
Definition ofDecimal (negative : bool) (mantissa : Z) (exponent10 : Z) : F64.number :=
  match mantissa with
  | Zpos m =>
      match exponent10 with
      | Zneg e =>
          SFdiv F64.prec F64.emax (S754_finite negative m 0)
            (S754_finite false (10 ^ e) 0)
      | _ => ofInteger negative (mantissa * 10 ^ exponent10)
      end
  | _ => S754_zero negative
  end.

Fixpoint startsWith (prefix s : string) : bool :=
  match prefix, s with
  | EmptyString, _ => true
  | String c p, String c' s' => Ascii.eqb c c' && startsWith p s'
  | String _ _, EmptyString => false
  end.

(** The value of an [ExponentPart] at the start of [s]: [e] or [E], a
    sign or none, one digit at least; [0] where there is none. *)
Definition exponentPart (s : string) : Z :=
  match s with
  | String c s' =>
      if Ascii.eqb c "e" || Ascii.eqb c "E" then
        let '(negative, digits) := splitSign s' in
        let '(e, count, _) := takeDigits digits 0 0 in
        match count with
        | O => 0
        | _ => if negative then - e else e
        end
      else 0
  | EmptyString => 0
  end.

(** [parseFloat(string)]: the longest start of the trimmed text that
    is a [StrDecimalLiteral]. *)
Definition parseFloat (string : string) : F64.number :=
  let '(negative, rest) := splitSign (trimStart string) in
  if startsWith "Infinity" rest then S754_infinity negative
  else
    let '(intPart, intCount, rest1) := takeDigits rest 0 0 in
    let '(mantissa, fracCount, rest2) :=
      match rest1 with
      | String c fraction =>
          if Ascii.eqb c "." then takeDigits fraction intPart 0 else (intPart, O, rest1)
      | EmptyString => (intPart, O, rest1)
      end in
    match intCount, fracCount with
    | O, O => F64.NaN
    | _, _ => ofDecimal negative mantissa (exponentPart rest2 - Z.of_nat fracCount)
    end.

End Fields.

(** Lines 2-17 from the texts of the four fields. *)
Definition calculateLoanOfFields (pow : F64.number -> F64.number -> F64.number)
    (host : JSDate.Host)
    (loan_amount interest_rate loan_duration start_date : string)
    : outcome (Page F64.number) :=
  calculateLoan (N := F64.binary64 pow) host
    (Fields.parseFloat loan_amount) (Fields.parseFloat interest_rate)
    (Fields.parseInt loan_duration) start_date.

(** ** The unrounded amounts

    The three numbers of a period, before [toFixed(2)]: lines 35 and
    41-43, run [i] times from the loan amount.  None of them depends
    on the dates. *)

Section Amounts.

Context {num : Type} {N : Number num}.

Local Open Scope num_scope.

(** The balance after [i] turns of the loop. *)
Fixpoint balanceAfter (loanAmount monthlyEMI interestRate : num) (i : nat) : num :=
  match i with
  | O => loanAmount
  | S j =>
      let balance := balanceAfter loanAmount monthlyEMI interestRate j in
      let interest := balance * (interestRate / ofZ 12) in
      let principal := monthlyEMI - interest in
      balance - principal
  end.

(** [interest] and [principal] in turn [i], counted from 0. *)
Definition interestOf (loanAmount monthlyEMI interestRate : num) (i : nat) : num :=
  balanceAfter loanAmount monthlyEMI interestRate i * (interestRate / ofZ 12).

Definition principalOf (loanAmount monthlyEMI interestRate : num) (i : nat) : num :=
  monthlyEMI - interestOf loanAmount monthlyEMI interestRate i.

(** Lines 45-50: the row pushed in turn [i], given the text of its
    date. *)
Definition rowOf (loanAmount monthlyEMI interestRate : num) (dateText : string)
    (i : nat) : Row :=
  {| date := dateText;
     principalAmount := toFixed2 (principalOf loanAmount monthlyEMI interestRate i);
     interest := toFixed2 (interestOf loanAmount monthlyEMI interestRate i);
     balance := toFixed2 (balanceAfter loanAmount monthlyEMI interestRate (S i)) |}.

(** [f 0 + f 1 + ... + f (n - 1)]. *)
Fixpoint sumOf (f : nat -> num) (n : nat) : num :=
  match n with
  | O => ofZ 0
  | S k => sumOf f k + f k
  end.

End Amounts.

(** * Theorems *)

Section EngineFacts.

Context {num : Type} {N : Number num}.
Variable host : JSDate.Host.

Local Open Scope num_scope.

Lemma toISOString_valid (startDate : string) (i : nat) :
  dateValid host startDate i = true ->
  exists iso,
    JSDate.toISOString (periodDate host startDate (Z.of_nat i)) = Ret iso
    /\ Spec.dateText host startDate i = JSDate.split_T_0 iso.
Proof.
  unfold dateValid, Spec.dateText.
  destruct (periodDate host startDate (Z.of_nat i)) as [t | ]; [ | discriminate ].
  intros _. simpl. eexists; split; reflexivity.
Qed.

Lemma toISOString_invalid (startDate : string) (i : nat) :
  dateValid host startDate i = false ->
  JSDate.toISOString (periodDate host startDate (Z.of_nat i)) = Throw RangeError.
Proof.
  unfold dateValid.
  destruct (periodDate host startDate (Z.of_nat i)); [ discriminate | reflexivity ].
Qed.

(** One turn of the loop from the state the specification predicts. *)
Lemma loopBody_step (principal payment rate : num) (startDate : string)
    (i : nat) (rows : list Row) :
  dateValid host startDate i = true ->
  loopBody host payment startDate rate (Z.of_nat i)
    (Spec.runningBalance principal payment (rate / ofZ 12) i, rows)
  = Ret (Spec.runningBalance principal payment (rate / ofZ 12) (S i),
         rows ++ [Spec.periodRow host principal payment (rate / ofZ 12) startDate i]).
Proof.
  intros Hv. destruct (toISOString_valid startDate i Hv) as (iso & Hiso & Htext).
  unfold loopBody. rewrite Hiso. simpl.
  unfold Spec.periodRow, Spec.principalPortion, Spec.interestPortion.
  rewrite Htext. reflexivity.
Qed.

Lemma loopBody_throw (payment rate : num) (startDate : string) (i : nat)
    (st : num * list Row) :
  dateValid host startDate i = false ->
  loopBody host payment startDate rate (Z.of_nat i) st = Throw RangeError.
Proof.
  intros Hv. unfold loopBody. destruct st as [b rows].
  rewrite (toISOString_invalid startDate i Hv). reflexivity.
Qed.

(** The loop, [k] turns from period [i]. *)
Lemma forLoop_run (principal payment rate : num) (startDate : string) :
  forall (k i : nat) (rows : list Row),
    forLoop host payment startDate rate k (Z.of_nat i)
      (Spec.runningBalance principal payment (rate / ofZ 12) i, rows)
    = if forallb (dateValid host startDate) (seq i k)
      then Ret (Spec.runningBalance principal payment (rate / ofZ 12) (i + k),
                rows ++ map (Spec.periodRow host principal payment (rate / ofZ 12) startDate)
                            (seq i k))
      else Throw RangeError.
Proof.
  induction k as [ | k IH]; intros i rows.
  - simpl. rewrite Nat.add_0_r, app_nil_r. reflexivity.
  - cbn [forLoop seq forallb map].
    destruct (dateValid host startDate i) eqn:Hv.
    + rewrite (loopBody_step principal payment rate startDate i rows Hv).
      cbn [bind andb].
      replace (Z.of_nat i + 1)%Z with (Z.of_nat (S i)) by lia.
      rewrite IH.
      replace (S i + k)%nat with (i + S k)%nat by lia.
      rewrite <- app_assoc. reflexivity.
    + rewrite (loopBody_throw payment rate startDate i _ Hv). reflexivity.
Qed.

(** A loop whose guard never fails returns nothing: it throws or goes
    on for ever. *)
Lemma unboundedLoop_outcome (startDate : string) :
  unboundedLoop (num := num) host startDate = Throw RangeError
  \/ unboundedLoop (num := num) host startDate = NoReturn.
Proof.
  unfold unboundedLoop.
  destruct (dateFails host startDate 53 0); [ left; reflexivity | ].
  destruct (periodDate host startDate (2 ^ 53)); [ right | left ]; reflexivity.
Qed.

(** An invalid date among the indices searched is found. *)
Lemma dateFails_complete (startDate : string) (depth : nat) :
  forall i j : Z,
    (i <= j < i + 2 ^ Z.of_nat depth)%Z ->
    periodDate host startDate j = None ->
    dateFails host startDate depth i = true.
Proof.
  induction depth as [ | depth IH]; intros i j Hj Hnone.
  - cbn [dateFails]. change (2 ^ Z.of_nat 0)%Z with 1%Z in Hj.
    replace i with j by lia. rewrite Hnone. reflexivity.
  - cbn [dateFails].
    destruct (dateFails host startDate depth i) eqn:Hlow; [ reflexivity | ].
    apply (IH _ j); [ | exact Hnone ].
    assert (Hpow : (2 ^ Z.of_nat (S depth) = 2 * 2 ^ Z.of_nat depth)%Z).
    { rewrite Nat2Z.inj_succ, Z.pow_succ_r by lia. reflexivity. }
    destruct (Z_lt_le_dec j (i + 2 ^ Z.of_nat depth)) as [Hlt | Hge]; [ | lia ].
    rewrite (IH i j) in Hlow; [ discriminate | lia | exact Hnone ].
Qed.

(** And nothing else is: the search finds invalid dates only. *)
Lemma dateFails_sound (startDate : string) (depth : nat) :
  forall i : Z,
    dateFails host startDate depth i = true ->
    exists j : Z,
      (i <= j < i + 2 ^ Z.of_nat depth)%Z /\ periodDate host startDate j = None.
Proof.
  induction depth as [ | depth IH]; intros i Hfails.
  - cbn [dateFails] in Hfails. exists i. split; [ change (2 ^ Z.of_nat 0)%Z with 1%Z; lia | ].
    destruct (periodDate host startDate i); [ discriminate | reflexivity ].
  - cbn [dateFails] in Hfails.
    assert (Hpow : (2 ^ Z.of_nat (S depth) = 2 * 2 ^ Z.of_nat depth)%Z).
    { rewrite Nat2Z.inj_succ, Z.pow_succ_r by lia. reflexivity. }
    assert (Hpos : (0 < 2 ^ Z.of_nat depth)%Z) by (apply Z.pow_pos_nonneg; lia).
    destruct (dateFails host startDate depth i) eqn:Hlow.
    + destruct (IH i Hlow) as (j & Hj & Hnone). exists j. split; [ lia | exact Hnone ].
    + destruct (IH _ Hfails) as (j & Hj & Hnone). exists j. split; [ lia | exact Hnone ].
Qed.

(** With an invalid date at some index up to [2^53], the loop throws. *)
Lemma unboundedLoop_throws (startDate : string) (j : Z) :
  (0 <= j <= 2 ^ 53)%Z ->
  periodDate host startDate j = None ->
  unboundedLoop (num := num) host startDate = Throw RangeError.
Proof.
  intros Hj Hnone. unfold unboundedLoop.
  destruct (Z.eq_dec j (2 ^ 53)) as [-> | Hne].
  - rewrite Hnone. destruct (dateFails host startDate 53 0); reflexivity.
  - rewrite (dateFails_complete startDate 53 0 j); [ reflexivity | | exact Hnone ].
    change (Z.of_nat 53) with 53%Z. lia.
Qed.

(** The three outcomes of the schedule builder. *)
Lemma scheduleRun_run (loanAmount monthlyEMI loanDuration : num)
    (startDate : string) (interestRate : num) :
  scheduleRun host loanAmount monthlyEMI loanDuration startDate interestRate
  = match loopBound loanDuration with
    | None => unboundedLoop host startDate
    | Some n =>
        if datesValid host startDate n
        then Ret (Spec.runningBalance loanAmount monthlyEMI (interestRate / ofZ 12) n,
                  Spec.schedule host loanAmount monthlyEMI (interestRate / ofZ 12)
                    startDate n)
        else Throw RangeError
    end.
Proof.
  unfold scheduleRun. destruct (loopBound loanDuration) as [n | ]; [ | reflexivity ].
  exact (forLoop_run loanAmount monthlyEMI interestRate startDate n 0 []).
Qed.

Lemma generateRepaymentScheduleArray_run (loanAmount monthlyEMI loanDuration : num)
    (startDate : string) (interestRate : num) (n : nat) :
  loopBound loanDuration = Some n ->
  datesValid host startDate n = true ->
  generateRepaymentScheduleArray host loanAmount monthlyEMI loanDuration startDate
    interestRate
  = Ret (Spec.schedule host loanAmount monthlyEMI (interestRate / ofZ 12) startDate n).
Proof.
  intros Hn Hd. unfold generateRepaymentScheduleArray.
  rewrite scheduleRun_run, Hn, Hd. reflexivity.
Qed.

(** The engine's result on a run that returns. *)
Lemma calculateLoanDetails_run (loanAmount annualRatePercent loanDuration : num)
    (startDate : string) (n : nat) :
  loopBound loanDuration = Some n ->
  datesValid host startDate n = true ->
  let payment := Spec.monthlyPayment loanAmount annualRatePercent loanDuration in
  calculateLoanDetails host loanAmount (annualRatePercent / ofZ 100) loanDuration
    startDate
  = Ret {| monthlyEMI := payment;
           totalInterest := payment * loanDuration - loanAmount;
           totalAmount := payment * loanDuration - loanAmount + loanAmount;
           repaymentSchedule :=
             Spec.schedule host loanAmount payment
               (Spec.monthlyRate annualRatePercent) startDate n |}.
Proof.
  intros Hn Hd payment. unfold calculateLoanDetails.
  rewrite (generateRepaymentScheduleArray_run _ _ _ _ _ n Hn Hd).
  reflexivity.
Qed.

(** Conversely, a run that returns had a bounded loop and valid dates. *)
Lemma calculateLoanDetails_Ret_inv (loanAmount interestRate loanDuration : num)
    (startDate : string) (r : LoanResult num) :
  calculateLoanDetails host loanAmount interestRate loanDuration startDate = Ret r ->
  exists n, loopBound loanDuration = Some n /\ datesValid host startDate n = true.
Proof.
  unfold calculateLoanDetails, generateRepaymentScheduleArray.
  rewrite scheduleRun_run.
  destruct (loopBound loanDuration) as [n | ].
  - destruct (datesValid host startDate n) eqn:Hd; [ | discriminate ].
    intros _. exists n. split; [ reflexivity | exact Hd ].
  - destruct (unboundedLoop_outcome startDate) as [H | H]; rewrite H; discriminate.
Qed.

(** An invalid date among the periods makes the engine throw. *)
Lemma calculateLoanDetails_throw (loanAmount interestRate loanDuration : num)
    (startDate : string) (n : nat) :
  loopBound loanDuration = Some n ->
  datesValid host startDate n = false ->
  calculateLoanDetails host loanAmount interestRate loanDuration startDate
  = Throw RangeError.
Proof.
  intros Hn Hd. unfold calculateLoanDetails, generateRepaymentScheduleArray.
  rewrite scheduleRun_run, Hn, Hd. reflexivity.
Qed.

End EngineFacts.

(** ** The loop part of the way

    The state of the loop after [i] of its [n] turns: the unrounded
    balance, and the first [i] rows of the schedule. *)

Lemma datesValid_prefix (host : JSDate.Host) (startDate : string) (m n : nat) :
  (m <= n)%nat -> datesValid host startDate n = true ->
  datesValid host startDate m = true.
Proof.
  intros Hmn Hv. unfold datesValid in *. rewrite forallb_forall in *.
  intros i Hi. apply Hv. apply in_seq in Hi. apply in_seq. lia.
Qed.

Lemma firstn_seq_prefix (s i n : nat) : (i <= n)%nat -> firstn i (seq s n) = seq s i.
Proof.
  revert s n. induction i as [ | i IH]; intros s n Hi; [ reflexivity | ].
  destruct n as [ | n]; [ lia | ].
  cbn [seq firstn]. rewrite IH by lia. reflexivity.
Qed.

Section LoopPrefix.

Context {num : Type} {N : Number num}.
Variable host : JSDate.Host.

Local Open Scope num_scope.

Lemma schedule_prefix (loanAmount monthlyEMI rate : num) (startDate : string)
    (i n : nat) :
  (i <= n)%nat ->
  firstn i (Spec.schedule host loanAmount monthlyEMI rate startDate n)
  = Spec.schedule host loanAmount monthlyEMI rate startDate i.
Proof.
  intros Hi. unfold Spec.schedule.
  rewrite firstn_map, firstn_seq_prefix by exact Hi. reflexivity.
Qed.

(** After [i] turns. *)
Lemma forLoop_prefix (loanAmount monthlyEMI interestRate : num) (startDate : string)
    (i n : nat) :
  (i <= n)%nat ->
  datesValid host startDate n = true ->
  forLoop host monthlyEMI startDate interestRate i 0%Z (loanAmount, [])
  = Ret (Spec.runningBalance loanAmount monthlyEMI (interestRate / ofZ 12) i,
         firstn i (Spec.schedule host loanAmount monthlyEMI (interestRate / ofZ 12)
                     startDate n)).
Proof.
  intros Hi Hv.
  pose proof (forLoop_run host loanAmount monthlyEMI interestRate startDate i 0 [])
    as Hrun.
  cbn [Z.of_nat Spec.runningBalance] in Hrun. rewrite Hrun.
  fold (datesValid host startDate i).
  rewrite (datesValid_prefix host startDate i n Hi Hv).
  rewrite schedule_prefix by exact Hi. reflexivity.
Qed.

(** Turn [i], from the state the loop is then in. *)
Lemma loopBody_prefix (loanAmount monthlyEMI interestRate : num) (startDate : string)
    (i n : nat) :
  (i < n)%nat ->
  datesValid host startDate n = true ->
  let rows := Spec.schedule host loanAmount monthlyEMI (interestRate / ofZ 12)
                startDate n in
  loopBody host monthlyEMI startDate interestRate (Z.of_nat i)
    (Spec.runningBalance loanAmount monthlyEMI (interestRate / ofZ 12) i, firstn i rows)
  = Ret (Spec.runningBalance loanAmount monthlyEMI (interestRate / ofZ 12) (S i),
         firstn (S i) rows).
Proof.
  intros Hi Hv rows. unfold rows.
  assert (Hd : dateValid host startDate i = true).
  { unfold datesValid in Hv. rewrite forallb_forall in Hv. apply Hv.
    apply in_seq. lia. }
  rewrite (loopBody_step host loanAmount monthlyEMI interestRate startDate i _ Hd).
  rewrite !schedule_prefix by lia.
  unfold Spec.schedule. rewrite seq_S, map_app. reflexivity.
Qed.

End LoopPrefix.

(** ** Rounding for display *)

(** [toFixed(2)] shows the number of cents nearest to the value, half a
    cent going up in magnitude. *)
Lemma cents_nearest (x : Q) :
  (inject_Z (Fixed.cents x) - (1 # 2) <= Qabs x * 100
   /\ Qabs x * 100 < inject_Z (Fixed.cents x) + (1 # 2))%Q.
Proof.
  unfold Fixed.cents.
  pose proof (Qfloor_le (Qabs x * 100 + (1 # 2))) as Hlo.
  pose proof (Qlt_floor (Qabs x * 100 + (1 # 2))) as Hhi.
  rewrite inject_Z_plus in Hhi. change (inject_Z 1) with 1%Q in Hhi.
  split; lra.
Qed.

(** In double precision [toFixed(2)] rounds the exact value of the
    double, as long as it is finite and below [10^21] in magnitude. *)
Lemma toFixed2_finite (x : F64.number) :
  F64.isFinite x = true ->
  (Qabs (F64.toQ x) < inject_Z (10 ^ 21))%Q ->
  F64.toFixed2 x = Fixed.toFixed2 (F64.toQ x).
Proof.
  intros Hf Hlt. unfold F64.toFixed2.
  destruct (Qle_bool (inject_Z (10 ^ 21)) (Qabs (F64.toQ x))) eqn:Hle.
  - apply Qle_bool_iff in Hle. lra.
  - destruct x as [s | s | | s m e]; try discriminate Hf; reflexivity.
Qed.

(** ** The calendar

    The year, month and day of a valid date are read back from its
    time value; hence, without a time zone offset, the date of a
    period keeps the day of the month of the start date whenever the
    month reached has such a day. *)

Section CalendarFacts.

Import JSDate.

Lemma DayFromYear_succ (y : Z) :
  DayFromYear (y + 1) = DayFromYear y + DaysInYear y.
Proof.
  unfold DayFromYear, DaysInYear, isLeap.
  replace (y + 1 - 1970) with (y - 1970 + 1) by lia.
  replace (y + 1 - 1969) with (y - 1969 + 1) by lia.
  replace (y + 1 - 1901) with (y - 1901 + 1) by lia.
  replace (y + 1 - 1601) with (y - 1601 + 1) by lia.
  destruct (Z.eqb_spec (y mod 4) 0) as [H4 | H4];
    destruct (Z.eqb_spec (y mod 100) 0) as [H100 | H100];
    destruct (Z.eqb_spec (y mod 400) 0) as [H400 | H400];
    cbn [andb orb negb];
    Z.to_euclidean_division_equations; lia.
Qed.

Lemma DaysInYear_pos (y : Z) : 365 <= DaysInYear y <= 366.
Proof. unfold DaysInYear. destruct (isLeap y); lia. Qed.

Lemma YearFromDay_estimate (y D : Z) :
  DayFromYear y <= D < DayFromYear (y + 1) ->
  y - 1 <= 1970 + 400 * D / 146097 <= y + 1.
Proof.
  intros H. rewrite DayFromYear_succ in H.
  pose proof (DaysInYear_pos y) as Hy.
  unfold DayFromYear in H.
  Z.to_euclidean_division_equations. lia.
Qed.

Lemma YearFromDay_unique (y D : Z) :
  DayFromYear y <= D < DayFromYear (y + 1) -> YearFromDay D = y.
Proof.
  intros H. pose proof (YearFromDay_estimate y D H) as He.
  unfold YearFromDay. set (y' := 1970 + 400 * D / 146097) in *.
  pose proof (DayFromYear_succ (y - 1)) as Hm. replace (y - 1 + 1) with y in Hm by lia.
  pose proof (DayFromYear_succ (y + 1)) as Hp.
  pose proof (DaysInYear_pos (y - 1)). pose proof (DaysInYear_pos (y + 1)).
  assert (Hc : y' = y - 1 \/ y' = y \/ y' = y + 1) by lia.
  destruct Hc as [-> | [-> | ->]].
  - replace (y - 1 + 1) with y by lia.
    destruct (Z.ltb_spec D (DayFromYear (y - 1))); [ lia | ].
    destruct (Z.leb_spec (DayFromYear y) D); lia.
  - destruct (Z.ltb_spec D (DayFromYear y)); [ lia | ].
    destruct (Z.leb_spec (DayFromYear (y + 1)) D); lia.
  - destruct (Z.ltb_spec D (DayFromYear (y + 1))); lia.
Qed.

Ltac eval_daysBeforeMonth :=
  repeat match goal with
         | |- context [daysBeforeMonth ?l ?x] =>
             let v := eval vm_compute in (daysBeforeMonth l x) in
             change (daysBeforeMonth l x) with v
         | H : context [daysBeforeMonth ?l ?x] |- _ =>
             let v := eval vm_compute in (daysBeforeMonth l x) in
             change (daysBeforeMonth l x) with v in H
         end.

Lemma monthOfDay_decode (leap : bool) (m d : Z) :
  0 <= m <= 11 -> 1 <= d <= daysInMonth leap m ->
  monthOfDay leap 11 0 (daysBeforeMonth leap m + d - 1) = m.
Proof.
  intros Hm Hd.
  assert (Hc : m = 0 \/ m = 1 \/ m = 2 \/ m = 3 \/ m = 4 \/ m = 5 \/ m = 6
               \/ m = 7 \/ m = 8 \/ m = 9 \/ m = 10 \/ m = 11) by lia.
  unfold daysInMonth in Hd.
  destruct leap;
    repeat (destruct Hc as [-> | Hc]); try subst m;
    cbv [monthOfDay]; eval_daysBeforeMonth;
    repeat match goal with
           | |- context [?a <? ?b] => destruct (Z.ltb_spec a b); try lia
           end.
Qed.

Lemma daysBeforeMonth_bound (leap : bool) (m d : Z) :
  0 <= m <= 11 -> 1 <= d <= daysInMonth leap m ->
  0 <= daysBeforeMonth leap m + d - 1 < (if leap then 366 else 365).
Proof.
  intros Hm Hd.
  assert (Hc : m = 0 \/ m = 1 \/ m = 2 \/ m = 3 \/ m = 4 \/ m = 5 \/ m = 6
               \/ m = 7 \/ m = 8 \/ m = 9 \/ m = 10 \/ m = 11) by lia.
  unfold daysInMonth in Hd.
  destruct leap;
    repeat (destruct Hc as [-> | Hc]); try subst m;
    eval_daysBeforeMonth; lia.
Qed.

(** A valid calendar date is read back from its time value. *)
Lemma civil_roundtrip (y m d w : Z) :
  0 <= m <= 11 -> 1 <= d <= daysInMonth (isLeap y) m -> 0 <= w < msPerDay ->
  let t := MakeDate (MakeDay y m d) w in
  YearFromTime t = y /\ MonthFromTime t = m /\ DateFromTime t = d
  /\ TimeWithinDay t = w.
Proof.
  intros Hm Hd Hw t.
  assert (Hday : Day t = MakeDay y m d).
  { unfold t, Day, MakeDate. unfold msPerDay in *.
    Z.to_euclidean_division_equations. lia. }
  assert (Hmk : MakeDay y m d = DayFromYear y + daysBeforeMonth (isLeap y) m + d - 1).
  { unfold MakeDay. rewrite (Z.div_small m 12), (Z.mod_small m 12) by lia.
    rewrite Z.add_0_r. reflexivity. }
  pose proof (daysBeforeMonth_bound (isLeap y) m d Hm Hd) as Hb.
  assert (Hy : YearFromTime t = y).
  { unfold YearFromTime. rewrite Hday. apply YearFromDay_unique.
    rewrite DayFromYear_succ, Hmk. unfold DaysInYear. lia. }
  assert (Hwy : DayWithinYear t = daysBeforeMonth (isLeap y) m + d - 1).
  { unfold DayWithinYear. rewrite Hy, Hday, Hmk. lia. }
  assert (Hmo : MonthFromTime t = m).
  { unfold MonthFromTime. rewrite Hy, Hwy. apply monthOfDay_decode; assumption. }
  split; [ exact Hy | ]. split; [ exact Hmo | ]. split.
  - unfold DateFromTime. rewrite Hy, Hmo, Hwy. lia.
  - unfold t, TimeWithinDay, MakeDate. unfold msPerDay in *.
    Z.to_euclidean_division_equations. lia.
Qed.

Lemma split_T_0_app (a rest : string) :
  noT a = true -> split_T_0 (a ++ rest) = (a ++ split_T_0 rest)%string.
Proof.
  induction a as [ | c a IH]; intros H; [ reflexivity | ].
  cbn [noT] in H. apply andb_prop in H. destruct H as [Hc Ha].
  cbn [append split_T_0].
  destruct (Ascii.eqb c "T"); [ discriminate Hc | ].
  rewrite IH by exact Ha. reflexivity.
Qed.

Lemma noT_app (a b : string) : noT a = true -> noT b = true -> noT (a ++ b) = true.
Proof.
  induction a as [ | c a IH]; intros Ha Hb; [ exact Hb | ].
  cbn [noT append] in *. apply andb_prop in Ha. destruct Ha as [Hc Ha].
  rewrite Hc, IH by assumption. reflexivity.
Qed.

Lemma digit_not_T (n : Z) : Ascii.eqb (digit n) "T" = false.
Proof.
  unfold digit. pose proof (Z.mod_pos_bound n 10 ltac:(lia)) as Hb.
  assert (Hc : n mod 10 = 0 \/ n mod 10 = 1 \/ n mod 10 = 2 \/ n mod 10 = 3
               \/ n mod 10 = 4 \/ n mod 10 = 5 \/ n mod 10 = 6 \/ n mod 10 = 7
               \/ n mod 10 = 8 \/ n mod 10 = 9) by lia.
  repeat (destruct Hc as [-> | Hc]; [ reflexivity | ]).
  rewrite Hc. reflexivity.
Qed.

Lemma noT_pad (width : nat) (n : Z) (acc : string) :
  noT acc = true -> noT (pad width n acc) = true.
Proof.
  revert n acc. induction width as [ | w IH]; intros n acc H; [ exact H | ].
  cbn [pad]. apply IH. cbn [noT]. rewrite digit_not_T, H. reflexivity.
Qed.

Lemma noT_isoYear (y : Z) : noT (isoYear y) = true.
Proof.
  unfold isoYear.
  destruct ((0 <=? y) && (y <=? 9999)); [ apply noT_pad; reflexivity | ].
  destruct (0 <=? y); cbn [noT]; rewrite noT_pad by reflexivity; reflexivity.
Qed.

Lemma append_empty_r (s : string) : (s ++ "")%string = s.
Proof. induction s as [ | c s IH]; [ reflexivity | cbn [append]; rewrite IH; reflexivity ]. Qed.

Lemma noT_isoDate (y m d : Z) : noT (isoDate y m d) = true.
Proof.
  unfold isoDate.
  repeat (apply noT_app; [ first [ apply noT_isoYear | apply noT_pad | idtac ];
                           reflexivity | ]).
  apply noT_pad. reflexivity.
Qed.

(** The text of a valid date: year, month and day of its time value. *)
Lemma isoDate_text (t : Z) :
  exists iso,
    toISOString (Some t) = Ret iso
    /\ split_T_0 iso = isoDate (YearFromTime t) (MonthFromTime t) (DateFromTime t).
Proof.
  eexists. split; [ reflexivity | ].
  rewrite split_T_0_app by apply noT_isoDate.
  cbn [append split_T_0]. rewrite Ascii.eqb_refl. apply append_empty_r.
Qed.

Lemma TimeClip_in_range (t : Z) :
  Z.abs t <= 8640000000000000 -> TimeClip t = Some t.
Proof.
  intros H. unfold TimeClip.
  destruct (Z.leb_spec (Z.abs t) 8640000000000000); [ reflexivity | lia ].
Qed.

Lemma TimeClip_Some (t u : Z) : TimeClip t = Some u -> u = t.
Proof.
  unfold TimeClip. destruct (Z.abs t <=? 8640000000000000); congruence.
Qed.

Lemma periodDate_no_offset (host : Host) (startDate : string) (y m d : Z) (i : Z) :
  (forall t b, LocalTZA host t b = 0) ->
  Date_parse host startDate = Some (MakeDate (MakeDay y m d) 0) ->
  0 <= m <= 11 ->
  1 <= d <= daysInMonth (isLeap y) m ->
  periodDate host startDate i
  = match TimeClip (MakeDate (MakeDay y m d) 0) with
    | Some _ => TimeClip (MakeDate (MakeDay y (m + i) d) 0)
    | None => None
    end.
Proof.
  intros Htz Hparse Hm Hd.
  destruct (civil_roundtrip y m d 0 Hm Hd ltac:(unfold msPerDay; lia))
    as (Hy0 & Hm0 & Hd0 & Hw0).
  unfold periodDate, newDate. rewrite Hparse.
  destruct (TimeClip (MakeDate (MakeDay y m d) 0)) as [t0 | ] eqn:Ht0;
    [ | reflexivity ].
  apply TimeClip_Some in Ht0. subst t0.
  cbn [getMonth option_map setMonth].
  unfold LocalTime, UTC. rewrite !Htz, !Z.add_0_r, Z.sub_0_r.
  rewrite Hy0, Hm0, Hd0, Hw0. reflexivity.
Qed.

Lemma MakeDay_reduce (y m d : Z) :
  MakeDay y m d = MakeDay (y + m / 12) (m mod 12) d.
Proof.
  unfold MakeDay.
  pose proof (Z.mod_pos_bound m 12 ltac:(lia)) as Hb.
  rewrite (Z.div_small (m mod 12) 12), (Z.mod_small (m mod 12) 12) by lia.
  rewrite Z.add_0_r. reflexivity.
Qed.

(** With no time zone offset, a start date on day [d] of a month gives
    period [i] the same day [d] of the month [i] months later whenever
    that month has a day [d], whether or not the day ran over into the
    next month in an earlier period. *)
Lemma period_date_keeps_day (host : Host) (startDate : string) (y m d : Z) (i : nat) :
  (forall t b, LocalTZA host t b = 0) ->
  Date_parse host startDate = Some (MakeDate (MakeDay y m d) 0) ->
  0 <= m <= 11 ->
  1 <= d <= daysInMonth (isLeap y) m ->
  dateValid host startDate i = true ->
  let y' := y + (m + Z.of_nat i) / 12 in
  let m' := (m + Z.of_nat i) mod 12 in
  d <= daysInMonth (isLeap y') m' ->
  Spec.dateText host startDate i = isoDate y' m' d.
Proof.
  intros Htz Hparse Hm Hd Hv y' m' Hfit.
  assert (Hm' : 0 <= m' <= 11)
    by (unfold m'; pose proof (Z.mod_pos_bound (m + Z.of_nat i) 12); lia).
  destruct (civil_roundtrip y' m' d 0 Hm' ltac:(lia) ltac:(unfold msPerDay; lia))
    as (Hy1 & Hm1 & Hd1 & _).
  pose proof (periodDate_no_offset host startDate y m d (Z.of_nat i) Htz Hparse Hm Hd)
    as Hp.
  rewrite (MakeDay_reduce y (m + Z.of_nat i) d) in Hp. fold y' m' in Hp.
  unfold dateValid in Hv. unfold Spec.dateText.
  destruct (periodDate host startDate (Z.of_nat i)) as [u | ]; [ | discriminate Hv ].
  destruct (TimeClip (MakeDate (MakeDay y m d) 0)); [ | discriminate Hp ].
  symmetry in Hp. apply TimeClip_Some in Hp. subst u.
  destruct (isoDate_text (MakeDate (MakeDay y' m' d) 0)) as (iso & Hiso & Htext).
  rewrite Hiso, Htext, Hy1, Hm1, Hd1. reflexivity.
Qed.

(** Years 0 to 265000 lie within the range of time values. *)
Lemma MakeDay_in_range (y m d : Z) :
  0 <= y -> y + m / 12 <= 265000 -> 0 <= m -> 1 <= d <= 31 ->
  Z.abs (MakeDate (MakeDay y m d) 0) <= 8640000000000000.
Proof.
  intros Hy Hym Hm Hd.
  unfold MakeDate, MakeDay, msPerDay.
  set (ym := y + m / 12) in *. set (mn := m mod 12).
  assert (Hmn : 0 <= mn <= 11) by (unfold mn; pose proof (Z.mod_pos_bound m 12); lia).
  assert (Hym0 : 0 <= ym) by (unfold ym; pose proof (Z.div_pos m 12); lia).
  assert (Hb : 0 <= daysBeforeMonth (isLeap ym) mn <= 335).
  { assert (Hc : mn = 0 \/ mn = 1 \/ mn = 2 \/ mn = 3 \/ mn = 4 \/ mn = 5 \/ mn = 6
                 \/ mn = 7 \/ mn = 8 \/ mn = 9 \/ mn = 10 \/ mn = 11) by lia.
    destruct (isLeap ym);
      repeat (destruct Hc as [-> | Hc]); try rewrite Hc; cbn; lia. }
  assert (Hdy : -719528 <= DayFromYear ym <= 96070000).
  { unfold DayFromYear. Z.to_euclidean_division_equations. lia. }
  lia.
Qed.

(** Without a time zone offset, a start date in the years 0 to 9999
    and a term of up to three million months keep every period date
    valid. *)
Lemma datesValid_in_range (host : Host) (startDate : string) (y m d : Z) (n : nat) :
  (forall t b, LocalTZA host t b = 0) ->
  Date_parse host startDate = Some (MakeDate (MakeDay y m d) 0) ->
  0 <= y <= 9999 -> 0 <= m <= 11 ->
  1 <= d <= daysInMonth (isLeap y) m ->
  Z.of_nat n <= 3000000 ->
  datesValid host startDate n = true.
Proof.
  intros Htz Hparse Hy Hm Hd Hn.
  unfold datesValid. apply forallb_forall. intros i Hi. apply in_seq in Hi.
  unfold dateValid.
  rewrite (periodDate_no_offset host startDate y m d (Z.of_nat i) Htz Hparse Hm Hd).
  assert (Hd31 : 1 <= d <= 31).
  { pose proof (daysBeforeMonth_bound (isLeap y) m d Hm Hd).
    assert (Hc : m = 0 \/ m = 1 \/ m = 2 \/ m = 3 \/ m = 4 \/ m = 5 \/ m = 6
                 \/ m = 7 \/ m = 8 \/ m = 9 \/ m = 10 \/ m = 11) by lia.
    unfold daysInMonth in Hd.
    destruct (isLeap y);
      repeat (destruct Hc as [-> | Hc]); try subst m; cbn in Hd; lia. }
  rewrite (TimeClip_in_range (MakeDate (MakeDay y m d) 0)).
  - rewrite TimeClip_in_range; [ reflexivity | ].
    apply MakeDay_in_range; try lia.
    assert ((m + Z.of_nat i) / 12 <= 250001).
    { apply Z.div_le_upper_bound; lia. }
    lia.
  - apply MakeDay_in_range; try lia.
    rewrite (Z.div_small m 12) by lia. lia.
Qed.

Lemma datesValid_false_at (host : Host) (startDate : string) (i n : nat) :
  (i < n)%nat -> dateValid host startDate i = false ->
  datesValid host startDate n = false.
Proof.
  intros Hi Hv. unfold datesValid.
  destruct (forallb (dateValid host startDate) (seq 0 n)) eqn:Hall; [ | reflexivity ].
  rewrite forallb_forall in Hall. rewrite Hall in Hv; [ discriminate Hv | ].
  apply in_seq. lia.
Qed.

Lemma digitValue_bound (c : ascii) (v : Z) : digitValue c = Some v -> 0 <= v <= 9.
Proof.
  unfold digitValue.
  destruct ((48 <=? Z.of_nat (nat_of_ascii c)) && (Z.of_nat (nat_of_ascii c) <=? 57))
    eqn:H; [ | discriminate ].
  apply andb_prop in H. destruct H as [H1 H2].
  apply Z.leb_le in H1. apply Z.leb_le in H2.
  intros Hv. injection Hv as <-. lia.
Qed.

Lemma digits_bound (l : list ascii) :
  forall acc v, digits l acc = Some v -> 0 <= acc ->
    acc * 10 ^ Z.of_nat (List.length l) <= v
    < (acc + 1) * 10 ^ Z.of_nat (List.length l).
Proof.
  induction l as [ | c l IH]; intros acc v Hv Hacc.
  - cbn in Hv. injection Hv as <-. cbn. lia.
  - cbn [digits] in Hv.
    destruct (digitValue c) as [dv | ] eqn:Hc; [ | discriminate Hv ].
    apply digitValue_bound in Hc.
    specialize (IH _ _ Hv ltac:(lia)).
    cbn [List.length]. rewrite Nat2Z.inj_succ, Z.pow_succ_r by lia.
    assert (0 < 10 ^ Z.of_nat (List.length l)) by (apply Z.pow_pos_nonneg; lia).
    nia.
Qed.

(** What the reference parser accepts: a valid calendar date of the
    years 0 to 9999, read as midnight UTC. *)
Lemma parseISODate_valid (s : string) (t : Z) :
  parseISODate s = Some t ->
  exists y m d,
    t = MakeDate (MakeDay y m d) 0
    /\ 0 <= y <= 9999 /\ 0 <= m <= 11
    /\ 1 <= d <= daysInMonth (isLeap y) m.
Proof.
  unfold parseISODate.
  destruct (list_ascii_of_string s)
    as [ | y1 [ | y2 [ | y3 [ | y4 [ | d1 [ | m1 [ | m2 [ | d2 [ | dd1 [ | dd2 [ | ? ?]]]]]]]]]]];
    try discriminate.
  destruct (Ascii.eqb d1 "-" && Ascii.eqb d2 "-"); [ | discriminate ].
  destruct (digits [y1; y2; y3; y4] 0) as [y | ] eqn:Hy; [ | discriminate ].
  destruct (digits [m1; m2] 0) as [m | ] eqn:Hm; [ | discriminate ].
  destruct (digits [dd1; dd2] 0) as [d | ] eqn:Hd; [ | discriminate ].
  destruct ((1 <=? m) && (m <=? 12) && (1 <=? d)
            && (d <=? daysInMonth (isLeap y) (m - 1))) eqn:Hc; [ | discriminate ].
  intros Ht. injection Ht as <-.
  apply andb_prop in Hc. destruct Hc as [Hc Hc4].
  apply andb_prop in Hc. destruct Hc as [Hc Hc3].
  apply andb_prop in Hc. destruct Hc as [Hc1 Hc2].
  apply Z.leb_le in Hc1, Hc2, Hc3, Hc4.
  apply digits_bound in Hy; [ | lia ]. cbn in Hy.
  exists y, (m - 1), d. repeat split; try lia.
Qed.

End CalendarFacts.

(** ** Claims about the engine under any arithmetic

    The statements of this part hold for every instance of [Number], in
    particular for double precision and for exact arithmetic.  Their
    hypotheses are the two conditions under which the engine returns
    (lemma [calculateLoanDetails_Ret_inv]): the loop guard fails after
    [n] turns, and the [n] period dates are valid. *)

Section GenericClaims.

Context {num : Type} {N : Number num}.
Variable host : JSDate.Host.

Local Open Scope num_scope.

(** C1. The monthly payment the engine returns is
    [principal * monthlyRate * (1 + monthlyRate)^termMonths
     / ((1 + monthlyRate)^termMonths - 1)] with
    [monthlyRate = (annualRatePercent / 100) / 12]; [calculateLoan]
    shows it with two decimals. *)
Theorem monthly_payment_formula
    (principal annualRatePercent termMonths : num) (startDate : string) (n : nat) :
  loopBound termMonths = Some n ->
  datesValid host startDate n = true ->
  exists (r : LoanResult num) (page : Page num),
    calculateLoanDetails host principal (annualRatePercent / ofZ 100) termMonths
      startDate = Ret r
    /\ calculateLoan host principal annualRatePercent termMonths startDate = Ret page
    /\ (let monthlyRate := (annualRatePercent / ofZ 100) / ofZ 12 in
        monthlyEMI r
        = principal * monthlyRate * Math_pow (ofZ 1 + monthlyRate) termMonths
          / (Math_pow (ofZ 1 + monthlyRate) termMonths - ofZ 1))
    /\ monthly_emi page = toFixed2 (monthlyEMI r).
Proof.
  intros Hn Hd.
  pose proof (calculateLoanDetails_run host principal annualRatePercent termMonths
                startDate n Hn Hd) as Hrun.
  cbv zeta in Hrun.
  eexists. eexists. split; [ exact Hrun | ].
  unfold calculateLoan. rewrite Hrun. cbn [bind].
  split; [ reflexivity | ].
  split; reflexivity.
Qed.

(** C2. The schedule is the list of the rows of periods
    [0 .. termMonths - 1]: row [i] shows, rounded to two decimals, the
    interest [b_i * monthlyRate], the principal part
    [monthlyPayment - b_i * monthlyRate] and the balance [b_(i+1)],
    where the running balance [b] starts at the principal and is
    carried unrounded: [b_(i+1) = b_i - (monthlyPayment - b_i * monthlyRate)]. *)
Theorem schedule_recurrence
    (principal annualRatePercent termMonths : num) (startDate : string) (n : nat) :
  loopBound termMonths = Some n ->
  datesValid host startDate n = true ->
  exists (r : LoanResult num) (b : nat -> num),
    calculateLoanDetails host principal (annualRatePercent / ofZ 100) termMonths
      startDate = Ret r
    /\ List.length (repaymentSchedule r) = n
    /\ b O = principal
    /\ (forall i,
          b (S i) = b i - (monthlyEMI r - b i * (annualRatePercent / ofZ 100 / ofZ 12)))
    /\ (forall i, (i < n)%nat ->
          let interestPortion := b i * (annualRatePercent / ofZ 100 / ofZ 12) in
          let principalPortion := monthlyEMI r - interestPortion in
          nth_error (repaymentSchedule r) i
          = Some {| date := Spec.dateText host startDate i;
                    principalAmount := toFixed2 principalPortion;
                    interest := toFixed2 interestPortion;
                    balance := toFixed2 (b i - principalPortion) |}).
Proof.
  intros Hn Hd.
  pose proof (calculateLoanDetails_run host principal annualRatePercent termMonths
                startDate n Hn Hd) as Hrun.
  cbv zeta in Hrun.
  eexists.
  exists (Spec.runningBalance principal
            (Spec.monthlyPayment principal annualRatePercent termMonths)
            (Spec.monthlyRate annualRatePercent)).
  split; [ exact Hrun | ].
  cbn [repaymentSchedule monthlyEMI].
  split; [ unfold Spec.schedule; rewrite length_map, length_seq; reflexivity | ].
  split; [ reflexivity | ].
  split; [ intros i; reflexivity | ].
  intros i Hi. unfold Spec.schedule.
  rewrite nth_error_map, nth_error_seq.
  destruct (Nat.ltb_spec i n) as [_ | Hge]; [ | lia ].
  reflexivity.
Qed.

(** C4. In the returned record [totalInterest] is
    [monthlyEMI * termMonths - principal] and [totalAmount] is
    [totalInterest + principal]. *)
Theorem totals_identities
    (principal interestRate termMonths : num) (startDate : string) (n : nat) :
  loopBound termMonths = Some n ->
  datesValid host startDate n = true ->
  exists r : LoanResult num,
    calculateLoanDetails host principal interestRate termMonths startDate = Ret r
    /\ totalInterest r = monthlyEMI r * termMonths - principal
    /\ totalAmount r = totalInterest r + principal.
Proof.
  intros Hn Hd. unfold calculateLoanDetails.
  rewrite (generateRepaymentScheduleArray_run host _ _ _ _ _ n Hn Hd).
  cbn [bind]. eexists. split; [ reflexivity | ].
  split; reflexivity.
Qed.

(** C10. The date of row [i] is the text of a fresh [Date] made from
    [startDate] and moved to month [getMonth() + i]: it is a function
    of the start date and of [i] alone, whatever the amounts, the rate
    and the dates of the other rows.  In particular, without a time
    zone offset, a start date on day [d] gives row [i] the day [d] of
    the month [i] months later whenever that month has a day [d]: a
    day that ran over into the next month in one period leaves the
    later periods as they are. *)
Theorem row_date_from_start_date
    (principal interestRate termMonths : num) (startDate : string) (n : nat) :
  loopBound termMonths = Some n ->
  datesValid host startDate n = true ->
  exists r : LoanResult num,
    calculateLoanDetails host principal interestRate termMonths startDate = Ret r
    /\ (forall i, (i < n)%nat ->
          exists (row : Row) (iso : string),
            nth_error (repaymentSchedule r) i = Some row
            /\ (let fresh := JSDate.newDate host startDate in
                JSDate.toISOString
                  (JSDate.setMonth host fresh
                     (option_map (fun m => (m + Z.of_nat i)%Z)
                        (JSDate.getMonth host fresh))) = Ret iso)
            /\ date row = JSDate.split_T_0 iso)
    /\ (forall y m d : Z,
          (forall t b, JSDate.LocalTZA host t b = 0%Z) ->
          JSDate.Date_parse host startDate
          = Some (JSDate.MakeDate (JSDate.MakeDay y m d) 0) ->
          (0 <= m <= 11)%Z ->
          (1 <= d <= JSDate.daysInMonth (JSDate.isLeap y) m)%Z ->
          forall i, (i < n)%nat ->
            let y' := (y + (m + Z.of_nat i) / 12)%Z in
            let m' := ((m + Z.of_nat i) mod 12)%Z in
            (d <= JSDate.daysInMonth (JSDate.isLeap y') m')%Z ->
            exists row : Row,
              nth_error (repaymentSchedule r) i = Some row
              /\ date row = JSDate.isoDate y' m' d).
Proof.
  intros Hn Hd. unfold calculateLoanDetails.
  rewrite (generateRepaymentScheduleArray_run host _ _ _ _ _ n Hn Hd).
  cbn [bind]. eexists. split; [ reflexivity | ].
  cbn [repaymentSchedule].
  assert (Hvalid : forall i, (i < n)%nat -> dateValid host startDate i = true).
  { intros i Hi. unfold datesValid in Hd. rewrite forallb_forall in Hd.
    apply Hd. apply in_seq. lia. }
  assert (Hrow : forall i, (i < n)%nat ->
            nth_error (Spec.schedule host principal
                         (principal * (interestRate / ofZ 12)
                          * Math_pow (ofZ 1 + interestRate / ofZ 12) termMonths
                          / (Math_pow (ofZ 1 + interestRate / ofZ 12) termMonths - ofZ 1))
                         (interestRate / ofZ 12) startDate n) i
            = Some (Spec.periodRow host principal
                      (principal * (interestRate / ofZ 12)
                       * Math_pow (ofZ 1 + interestRate / ofZ 12) termMonths
                       / (Math_pow (ofZ 1 + interestRate / ofZ 12) termMonths - ofZ 1))
                      (interestRate / ofZ 12) startDate i)).
  { intros i Hi. unfold Spec.schedule. rewrite nth_error_map, nth_error_seq.
    destruct (Nat.ltb_spec i n) as [_ | Hge]; [ reflexivity | lia ]. }
  split.
  - intros i Hi.
    destruct (toISOString_valid host startDate i (Hvalid i Hi)) as (iso & Hiso & Htext).
    eexists. exists iso. split; [ exact (Hrow i Hi) | ].
    split; [ exact Hiso | exact Htext ].
  - intros y m d Htz Hparse Hm Hday i Hi Hfit.
    eexists. split; [ exact (Hrow i Hi) | ].
    cbn [date Spec.periodRow].
    exact (period_date_keeps_day host startDate y m d i Htz Hparse Hm Hday
             (Hvalid i Hi) Hfit).
Qed.

End GenericClaims.

(** ** Exact arithmetic

    Over the rationals the running balance has a closed form, from
    which the classical facts of amortization follow. *)

Section ExactFacts.

Import Exact.
Local Open Scope Qc_scope.

Lemma this_Q2Qc (q : Q) : (this (Q2Qc q) == q)%Q.
Proof. apply Qred_correct. Qed.

#[local] Instance Q2Qc_proper : Proper (Qeq ==> eq) Q2Qc.
Proof. intros q q' H. apply Q2Qc_eq_iff. exact H. Qed.

Ltac qc_to_q :=
  unfold Qclt, Qcle, Qcdiv, Qcminus, Qcinv, Qcopp, Qcmult, Qcplus in *;
  repeat match goal with
         | H : context [this (Q2Qc ?q)] |- _ => rewrite (this_Q2Qc q) in H
         | |- context [this (Q2Qc ?q)] => rewrite (this_Q2Qc q)
         end.

Lemma Qclt_0_mult (a b : Qc) : 0 < a -> 0 < b -> 0 < a * b.
Proof. intros Ha Hb. qc_to_q. nra. Qed.

Lemma Qclt_0_inv (a : Qc) : 0 < a -> 0 < / a.
Proof. intros Ha. qc_to_q. apply Qinv_lt_0_compat. exact Ha. Qed.

Lemma Qclt_sub_pos (a b : Qc) : a < b <-> 0 < b - a.
Proof. qc_to_q. split; intros; lra. Qed.

Lemma Qclt_sub_lt (a b : Qc) : 0 < b -> a - b < a.
Proof. intros. qc_to_q. lra. Qed.

Lemma Qclt_1_plus (r : Qc) : 0 < r -> 1 < 1 + r.
Proof. intros. qc_to_q. lra. Qed.

Lemma Qcpower_gt_1 (q : Qc) (n : nat) : 1 < q -> (0 < n)%nat -> 1 < q ^ n.
Proof.
  intros Hq Hn. induction n as [ | n IH]; [ lia | ].
  destruct n as [ | n].
  - simpl. rewrite Qcmult_1_r. exact Hq.
  - assert (H1 : 1 < q ^ S n) by (apply IH; lia).
    change (q ^ S (S n)) with (q * q ^ S n).
    qc_to_q. nra.
Qed.

Lemma Qcpower_gt_0 (q : Qc) (n : nat) : 0 < q -> 0 < q ^ n.
Proof.
  intros Hq. induction n as [ | n IH].
  - simpl. qc_to_q. lra.
  - change (q ^ S n) with (q * q ^ n). apply Qclt_0_mult; assumption.
Qed.

(** The operations of the exact instance. *)
Lemma exact_ofZ_1 : @ofZ Qc exact 1 = 1.
Proof. reflexivity. Qed.

Lemma exact_Qfloor_ofZ (k : Z) : Qfloor (@ofZ Qc exact k) = k.
Proof. cbn [ofZ exact]. rewrite this_Q2Qc. apply Qfloor_Z. Qed.

Lemma exact_loopBound_ofZ (k : Z) :
  @loopBound Qc exact (ofZ k) = Some (Z.to_nat k).
Proof.
  cbn [loopBound ofZ exact]. rewrite this_Q2Qc, Qceiling_Z. reflexivity.
Qed.

Lemma exact_pow_ofZ (x : Qc) (k : Z) :
  (0 < k)%Z -> @Math_pow Qc exact x (ofZ k) = x ^ Z.to_nat k.
Proof.
  intros Hk. cbn [Math_pow exact]. fold (@ofZ Qc exact k).
  rewrite exact_Qfloor_ofZ.
  destruct k as [ | p | p]; try lia. reflexivity.
Qed.

Lemma exact_rate_pos (pct : Qc) :
  0 < pct -> 0 < @Spec.monthlyRate Qc exact pct.
Proof.
  intros H. unfold Spec.monthlyRate. cbn [num_div ofZ exact].
  unfold Qcdiv. apply Qclt_0_mult; [ apply Qclt_0_mult | ]; try assumption;
    apply Qclt_0_inv; reflexivity.
Qed.

(** The closed form of the running balance, free of division. *)
Lemma exact_balance_closed_form (P E r : Qc) (i : nat) :
  r * @Spec.runningBalance Qc exact P E r i
  = r * P * (1 + r) ^ i - E * ((1 + r) ^ i - 1).
Proof.
  induction i as [ | i IH].
  - simpl. ring.
  - cbn [Spec.runningBalance]. cbv zeta. cbn [num_sub num_mul exact].
    set (b := Spec.runningBalance P E r i) in *.
    replace (r * (b - (E - b * r))) with ((r * b) * (1 + r) - r * E) by ring.
    rewrite IH. change ((1 + r) ^ S i) with ((1 + r) * (1 + r) ^ i). ring.
Qed.

Lemma exact_payment (P pct : Qc) (k : Z) :
  (0 < k)%Z ->
  let r := @Spec.monthlyRate Qc exact pct in
  @Spec.monthlyPayment Qc exact P pct (ofZ k)
  = P * r * (1 + r) ^ Z.to_nat k / ((1 + r) ^ Z.to_nat k - 1).
Proof.
  intros Hk r. unfold Spec.monthlyPayment. fold r.
  rewrite exact_pow_ofZ by exact Hk. reflexivity.
Qed.

Lemma exact_final_balance (P pct : Qc) (k : Z) :
  0 < pct -> (0 < k)%Z ->
  @Spec.runningBalance Qc exact P (Spec.monthlyPayment P pct (ofZ k))
    (Spec.monthlyRate pct) (Z.to_nat k) = 0.
Proof.
  intros Hpct Hk.
  pose proof (exact_rate_pos pct Hpct) as Hr.
  rewrite exact_payment by exact Hk. cbv zeta.
  set (r := Spec.monthlyRate pct) in *. set (n := Z.to_nat k).
  assert (Hq : 1 < (1 + r) ^ n).
  { apply Qcpower_gt_1; [ apply Qclt_1_plus; exact Hr | lia ]. }
  assert (Hd : (1 + r) ^ n - 1 <> 0).
  { apply Qclt_sub_pos in Hq. intros Heq. rewrite Heq in Hq. discriminate Hq. }
  set (E := P * r * (1 + r) ^ n / ((1 + r) ^ n - 1)).
  assert (Hrb : r * Spec.runningBalance P E r n = 0).
  { rewrite exact_balance_closed_form. unfold E. field. exact Hd. }
  apply Qcmult_integral in Hrb. destruct Hrb as [Hr0 | Hb]; [ | exact Hb ].
  rewrite Hr0 in Hr. discriminate Hr.
Qed.

Lemma exact_principal_part (P E r : Qc) (i : nat) :
  E - @Spec.runningBalance Qc exact P E r i * r = (E - r * P) * (1 + r) ^ i.
Proof.
  replace (Spec.runningBalance P E r i * r) with (r * Spec.runningBalance P E r i)
    by ring.
  rewrite exact_balance_closed_form. ring.
Qed.

Lemma exact_payment_above_first_interest (P r : Qc) (n : nat) :
  0 < P -> 0 < r -> (0 < n)%nat ->
  0 < P * r * (1 + r) ^ n / ((1 + r) ^ n - 1) - r * P.
Proof.
  intros HP Hr Hn.
  assert (Hq : 1 < (1 + r) ^ n).
  { apply Qcpower_gt_1; [ apply Qclt_1_plus; exact Hr | exact Hn ]. }
  apply Qclt_sub_pos in Hq.
  assert (Hd : (1 + r) ^ n - 1 <> 0).
  { intros Heq. rewrite Heq in Hq. discriminate Hq. }
  replace (P * r * (1 + r) ^ n / ((1 + r) ^ n - 1) - r * P)
    with (r * P * / ((1 + r) ^ n - 1)) by (field; exact Hd).
  apply Qclt_0_mult; [ apply Qclt_0_mult; assumption | apply Qclt_0_inv; exact Hq ].
Qed.

Lemma exact_interest_below_payment (P pct : Qc) (k : Z) (i : nat) :
  0 < P -> 0 < pct -> (0 < k)%Z ->
  let E := @Spec.monthlyPayment Qc exact P pct (ofZ k) in
  let r := @Spec.monthlyRate Qc exact pct in
  Spec.runningBalance P E r i * r < E.
Proof.
  intros HP Hpct Hk E r.
  pose proof (exact_rate_pos pct Hpct) as Hr. fold r in Hr.
  apply Qclt_sub_pos. rewrite exact_principal_part.
  apply Qclt_0_mult.
  - unfold E. rewrite exact_payment by exact Hk. cbv zeta. fold r.
    apply exact_payment_above_first_interest; [ assumption | assumption | lia ].
  - apply Qcpower_gt_0.
    apply Qclt_trans with (y := 1); [ reflexivity | apply Qclt_1_plus; exact Hr ].
Qed.

Lemma exact_balance_step_decreases (P E r : Qc) (i : nat) :
  @Spec.runningBalance Qc exact P E r i * r < E ->
  Spec.runningBalance P E r (S i) < Spec.runningBalance P E r i.
Proof.
  intros H. cbn [Spec.runningBalance]. cbv zeta. cbn [num_sub num_mul exact].
  apply Qclt_sub_lt. apply -> Qclt_sub_pos. exact H.
Qed.

Lemma exact_single_period_payment (P pct : Qc) :
  0 < pct ->
  @Spec.monthlyPayment Qc exact P pct (ofZ 1)
  = P * (1 + Spec.monthlyRate pct).
Proof.
  intros Hpct. pose proof (exact_rate_pos pct Hpct) as Hr.
  rewrite exact_payment by lia. cbv zeta.
  set (r := Spec.monthlyRate pct) in *.
  change ((1 + r) ^ Z.to_nat 1) with ((1 + r) * 1).
  field. intros Heq.
  apply (Qclt_not_eq 0 r Hr). rewrite <- Heq. ring.
Qed.

Lemma toFixed2_zero : @toFixed2 Qc exact 0 = "0.00"%string.
Proof. reflexivity. Qed.


(** C5, as amended. Under exact arithmetic, for a positive rate and a positive
    integral number of months, the balance left when the loop ends is
    zero, and the last row shows [0.00]. *)
Theorem final_balance_zero_exact (host : JSDate.Host)
    (principal annualRatePercent : Qc) (termMonths : Z) (startDate : string) :
  0 < annualRatePercent ->
  (0 < termMonths)%Z ->
  datesValid host startDate (Z.to_nat termMonths) = true ->
  exists (r : LoanResult Qc) (lastRow : Row),
    calculateLoanDetails host principal (annualRatePercent / ofZ 100)%num
      (ofZ termMonths) startDate = Ret r
    /\ scheduleRun host principal (monthlyEMI r) (ofZ termMonths) startDate
         (annualRatePercent / ofZ 100)%num
       = Ret (0, repaymentSchedule r)
    /\ nth_error (repaymentSchedule r) (Z.to_nat termMonths - 1) = Some lastRow
    /\ balance lastRow = "0.00"%string.
Proof.
  intros Hpct Hk Hd.
  pose proof (exact_loopBound_ofZ termMonths) as Hn.
  pose proof (calculateLoanDetails_run host principal annualRatePercent
                (ofZ termMonths) startDate _ Hn Hd) as Hrun.
  cbv zeta in Hrun.
  pose proof (exact_final_balance principal annualRatePercent termMonths Hpct Hk)
    as Hzero.
  eexists. eexists. split; [ exact Hrun | ].
  cbn [monthlyEMI repaymentSchedule].
  split; [ | split ].
  - rewrite scheduleRun_run, Hn, Hd.
    unfold Spec.monthlyRate in Hzero. rewrite Hzero. reflexivity.
  - unfold Spec.schedule. rewrite nth_error_map, nth_error_seq.
    destruct (Nat.ltb_spec (Z.to_nat termMonths - 1) (Z.to_nat termMonths))
      as [_ | Hge]; [ reflexivity | lia ].
  - cbn [balance Spec.periodRow].
    replace (S (0 + (Z.to_nat termMonths - 1))) with (Z.to_nat termMonths) by lia.
    rewrite Hzero. reflexivity.
Qed.

(** The balance a turn of the loop ends with. *)
Lemma exact_loopBody_balance (host : JSDate.Host) (payment rate before after : Qc)
    (startDate : string) (i : Z) (rows rows' : list Row) :
  loopBody host payment startDate rate i (before, rows) = Ret (after, rows') ->
  after = before - (payment - before * (rate / ofZ 12)%num).
Proof.
  unfold loopBody.
  destruct (JSDate.toISOString (periodDate host startDate i)) as [iso | e | ];
    cbn [bind]; [ | discriminate | discriminate ].
  intros H. injection H as Hb _. symmetry. exact Hb.
Qed.

(** C6, as amended. Under exact arithmetic, for a positive principal,
    a positive rate and a positive integral number of months, every
    turn of the engine's loop starts with an interest below the
    payment and ends with a strictly smaller unrounded balance; and
    for any payment, rate and state of the loop, a turn whose interest
    is below the payment ends with a strictly smaller balance. *)
Theorem balance_strictly_decreases_exact (host : JSDate.Host)
    (principal annualRatePercent : Qc) (termMonths : Z) (startDate : string) :
  0 < principal ->
  0 < annualRatePercent ->
  (0 < termMonths)%Z ->
  datesValid host startDate (Z.to_nat termMonths) = true ->
  exists r : LoanResult Qc,
    calculateLoanDetails host principal (annualRatePercent / ofZ 100)%num
      (ofZ termMonths) startDate = Ret r
    /\ (forall i : nat, (i < Z.to_nat termMonths)%nat ->
          exists before after : Qc,
            forLoop host (monthlyEMI r) startDate (annualRatePercent / ofZ 100)%num
              i 0%Z (principal, [])
            = Ret (before, firstn i (repaymentSchedule r))
            /\ loopBody host (monthlyEMI r) startDate (annualRatePercent / ofZ 100)%num
                 (Z.of_nat i) (before, firstn i (repaymentSchedule r))
               = Ret (after, firstn (S i) (repaymentSchedule r))
            /\ (before * (annualRatePercent / ofZ 100 / ofZ 12))%num < monthlyEMI r
            /\ after < before)
    /\ (forall (payment rate before after : Qc) (start : string) (i : Z)
               (rows rows' : list Row),
          loopBody host payment start rate i (before, rows) = Ret (after, rows') ->
          (before * (rate / ofZ 12))%num < payment ->
          after < before).
Proof.
  intros HP Hpct Hk Hd.
  pose proof (exact_loopBound_ofZ termMonths) as Hn.
  pose proof (calculateLoanDetails_run host principal annualRatePercent
                (ofZ termMonths) startDate _ Hn Hd) as Hrun.
  cbv zeta in Hrun.
  eexists. split; [ exact Hrun | ].
  cbn [monthlyEMI repaymentSchedule]. split.
  - intros i Hi.
    pose proof (exact_interest_below_payment principal annualRatePercent termMonths
                  i HP Hpct Hk) as Hlt.
    cbv zeta in Hlt.
    eexists. eexists.
    split; [ apply (forLoop_prefix host); [ lia | exact Hd ] | ].
    split; [ apply (loopBody_prefix host); [ exact Hi | exact Hd ] | ].
    split; [ exact Hlt | ].
    apply exact_balance_step_decreases. exact Hlt.
  - intros payment rate before after start i rows rows' Hturn Hlt.
    rewrite (exact_loopBody_balance host payment rate before after start i rows rows'
               Hturn).
    cbn [num_mul num_div exact] in *.
    apply Qclt_sub_lt. apply -> Qclt_sub_pos. exact Hlt.
Qed.

(** C7, as amended. Under exact arithmetic, for a positive rate, the
    monthly payment of a loan of one month is
    [principal * (1 + monthlyRate)]. *)
Theorem single_period_payment_exact (host : JSDate.Host)
    (principal annualRatePercent : Qc) (startDate : string) :
  0 < annualRatePercent ->
  datesValid host startDate 1 = true ->
  exists r : LoanResult Qc,
    calculateLoanDetails host principal (annualRatePercent / ofZ 100)%num
      (ofZ 1) startDate = Ret r
    /\ monthlyEMI r = principal * (1 + annualRatePercent / ofZ 100 / ofZ 12).
Proof.
  intros Hpct Hd.
  pose proof (calculateLoanDetails_run host principal annualRatePercent
                (ofZ 1) startDate 1 (exact_loopBound_ofZ 1) Hd) as Hrun.
  cbv zeta in Hrun.
  eexists. split; [ exact Hrun | ].
  cbn [monthlyEMI].
  exact (exact_single_period_payment principal annualRatePercent Hpct).
Qed.

End ExactFacts.

(** ** Double precision

    Integers up to [2^53] are doubles, so the loop of a loan of [k]
    months runs [k] times; a division by zero is never finite. *)

Section DoubleFacts.

Import F64.
Local Open Scope Z_scope.

Lemma digits2_pos_iter_xO (m : positive) (p : positive) :
  digits2_pos (Pos.iter xO m p) = (digits2_pos m + p)%positive.
Proof.
  induction p as [ | p IH] using Pos.peano_ind.
  - simpl. lia.
  - rewrite Pos.iter_succ. simpl. rewrite IH. lia.
Qed.

Lemma Zpos_iter_xO (m : positive) (p : positive) :
  Z.pos (Pos.iter xO m p) = Z.pos m * 2 ^ Z.pos p.
Proof.
  induction p as [ | p IH] using Pos.peano_ind.
  - simpl. lia.
  - rewrite Pos.iter_succ, Pos2Z.inj_xO, IH, Pos2Z.inj_succ, Z.pow_succ_r by lia. ring.
Qed.

Lemma digits2_pos_bounds (m : positive) :
  2 ^ Z.pos (digits2_pos m) <= 2 * Z.pos m /\ Z.pos m < 2 ^ Z.pos (digits2_pos m).
Proof.
  induction m as [m IH | m IH | ]; simpl digits2_pos.
  - rewrite Pos2Z.inj_succ, Z.pow_succ_r by lia. lia.
  - rewrite Pos2Z.inj_succ, Z.pow_succ_r by lia. lia.
  - simpl. lia.
Qed.

Lemma digits2_pos_le_53 (m : positive) :
  Z.pos m < 2 ^ 53 -> Z.pos (digits2_pos m) <= 53.
Proof.
  intros Hm. pose proof (digits2_pos_bounds m) as [Hlo _].
  destruct (Z_le_gt_dec (Z.pos (digits2_pos m)) 53) as [ | Hgt]; [ assumption | ].
  assert (2 ^ 54 <= 2 ^ Z.pos (digits2_pos m)) by (apply Z.pow_le_mono_r; lia).
  change (2 ^ 54) with (2 * 2 ^ 53) in *. lia.
Qed.

(** A mantissa of 53 bits with an exponent in range is already rounded. *)
Lemma binary_round_aux_exact (s : bool) (mz : positive) (ez : Z) :
  digits2_pos mz = 53%positive -> -1074 <= ez <= 971 ->
  binary_round_aux prec emax s (Z.pos mz) ez loc_Exact = S754_finite s mz ez.
Proof.
  intros Hd He.
  unfold binary_round_aux, shr_fexp, fexp, emin, prec, emax.
  cbn [Zdigits2 shr_record_of_loc]. rewrite Hd.
  replace (Z.max (53 + ez - 53) (3 - 1024 - 53) - ez) with 0 by lia.
  cbn [shr loc_of_shr_record shr_m round_nearest_even Zdigits2 shr_record_of_loc].
  rewrite Hd.
  replace (Z.max (53 + ez - 53) (3 - 1024 - 53) - ez) with 0 by lia.
  cbn [shr shr_m].
  destruct (Z.leb_spec ez (1024 - 53)) as [ _ | H ]; [ reflexivity | lia ].
Qed.

(** The double of a positive integer below [2^53]: the integer itself,
    its mantissa shifted to 53 bits. *)
Lemma ofZ_small (m : positive) :
  Z.pos m < 2 ^ 53 ->
  exists mz ez,
    ofZ (Z.pos m) = S754_finite false mz ez
    /\ -52 <= ez <= 0
    /\ Z.pos mz = Z.pos m * 2 ^ (- ez).
Proof.
  intros Hm. pose proof (digits2_pos_le_53 m Hm) as Hd.
  unfold ofZ, binary_normalize, binary_round, fexp, emin, prec, emax.
  replace (Z.max (Z.pos (digits2_pos m) + 0 - 53) (3 - 1024 - 53))
    with (Z.pos (digits2_pos m) - 53) by lia.
  unfold shl_align.
  destruct (Z.pos (digits2_pos m) - 53 - 0) as [ | p | p] eqn:Hs; try lia.
  - exists m, 0.
    split; [ | split; [ lia | simpl; lia ] ].
    apply binary_round_aux_exact; [ | lia ].
    apply Pos2Z.inj. lia.
  - exists (Pos.iter xO m p), (Z.pos (digits2_pos m) - 53).
    split; [ | split; [ lia | ] ].
    + apply binary_round_aux_exact; [ | lia ].
      rewrite digits2_pos_iter_xO. apply Pos2Z.inj. rewrite Pos2Z.inj_add. lia.
    + rewrite Zpos_iter_xO. f_equal. f_equal. lia.
Qed.

Lemma toQ_ofZ_small (m : positive) :
  Z.pos m < 2 ^ 53 -> (toQ (ofZ (Z.pos m)) == inject_Z (Z.pos m))%Q.
Proof.
  intros Hm. destruct (ofZ_small m Hm) as (mz & ez & Hof & He & Hmz).
  rewrite Hof. unfold toQ.
  destruct ez as [ | p | p]; try lia.
  - change (2 ^ (- 0)) with 1 in Hmz. change (2 ^ 0) with 1.
    rewrite !Z.mul_1_r in *. rewrite Hmz. reflexivity.
  - unfold Qeq. cbn [Qnum Qden inject_Z]. rewrite Hmz.
    change (- Z.neg p) with (Z.pos p). rewrite Pos2Z.inj_pow. lia.
Qed.

Lemma loopBound_ofZ (k : Z) :
  0 <= k <= 2 ^ 53 -> loopBound (ofZ k) = Some (Z.to_nat k).
Proof.
  intros Hk. destruct k as [ | m | m]; try lia.
  - reflexivity.
  - destruct (Z.eq_dec (Z.pos m) (2 ^ 53)) as [Heq | Hne].
    + rewrite Heq.
      assert (Hv : ofZ (2 ^ 53) = S754_finite false 4503599627370496 1)
        by (vm_compute; reflexivity).
      assert (Hc : Qceiling (toQ (ofZ (2 ^ 53))) = 2 ^ 53)
        by (vm_compute; reflexivity).
      unfold loopBound. rewrite Hv. cbv zeta. rewrite <- Hv. rewrite Hc.
      rewrite Z.leb_refl. reflexivity.
    + assert (Hm : Z.pos m < 2 ^ 53) by lia.
      pose proof (toQ_ofZ_small m Hm) as HQ.
      destruct (ofZ_small m Hm) as (mz & ez & Hof & _ & _).
      assert (Hc : Qceiling (toQ (ofZ (Z.pos m))) = Z.pos m)
        by (rewrite HQ; apply Qceiling_Z).
      unfold loopBound. rewrite Hof. cbv zeta. rewrite <- Hof. rewrite Hc.
      destruct (Z.leb_spec (Z.pos m) (2 ^ 53)); [ reflexivity | lia ].
Qed.

Lemma isFinite_ofZ (k : Z) : 0 <= k <= 2 ^ 53 -> isFinite (ofZ k) = true.
Proof.
  intros Hk. destruct k as [ | m | m]; try lia.
  - reflexivity.
  - destruct (Z.eq_dec (Z.pos m) (2 ^ 53)) as [Heq | Hne].
    + rewrite Heq. vm_compute. reflexivity.
    + destruct (ofZ_small m) as (mz & ez & Hof & _ & _); [ lia | ].
      rewrite Hof. reflexivity.
Qed.

Lemma iter_pos_Pos_iter {A : Type} (f : A -> A) (n : positive) (x : A) :
  iter_pos f n x = Pos.iter f x n.
Proof.
  revert x. induction n as [n IH | n IH | ]; intros x; cbn [iter_pos Pos.iter].
  - rewrite !IH. rewrite <- !Pos.iter_swap. reflexivity.
  - rewrite !IH. reflexivity.
  - reflexivity.
Qed.

Lemma shr_1_iter_xO (q : positive) (j : positive) :
  Pos.iter shr_1 {| shr_m := Z.pos (Pos.iter xO q j); shr_r := false; shr_s := false |} j
  = {| shr_m := Z.pos q; shr_r := false; shr_s := false |}.
Proof.
  induction j as [ | j IH] using Pos.peano_ind.
  - reflexivity.
  - rewrite Pos.iter_succ_r. rewrite (Pos.iter_succ j positive xO q). cbn [shr_1 orb]. exact IH.
Qed.

(** A 53-bit mantissa followed by [j] zero bits is rounded exactly. *)
Lemma binary_round_aux_shift (s : bool) (q : positive) (e : Z) (j : positive) :
  digits2_pos q = 53%positive -> -1074 <= e <= 971 ->
  binary_round_aux prec emax s (Z.pos (Pos.iter xO q j)) (e - Z.pos j) loc_Exact
  = S754_finite s q e.
Proof.
  intros Hd He.
  unfold binary_round_aux, shr_fexp, fexp, emin, prec, emax.
  cbn [Zdigits2 shr_record_of_loc]. rewrite digits2_pos_iter_xO, Hd.
  replace (Z.max (Z.pos (53 + j) + (e - Z.pos j) - 53) (3 - 1024 - 53) - (e - Z.pos j))
    with (Z.pos j) by lia.
  cbn [shr]. rewrite iter_pos_Pos_iter, shr_1_iter_xO.
  cbn [loc_of_shr_record shr_m round_nearest_even Zdigits2 shr_record_of_loc].
  rewrite Hd.
  replace (Z.max (53 + (e - Z.pos j + Z.pos j) - 53) (3 - 1024 - 53) - (e - Z.pos j + Z.pos j))
    with 0 by lia.
  cbn [shr shr_m].
  destruct (Z.leb_spec (e - Z.pos j + Z.pos j) (1024 - 53)) as [ _ | H ]; [ | lia ].
  f_equal. lia.
Qed.

(** The double of an integer between 1 and [2^53]: a mantissa of 53
    bits. *)
Lemma ofZ_normal (m : positive) :
  Z.pos m <= 2 ^ 53 ->
  exists mz ez,
    ofZ (Z.pos m) = S754_finite false mz ez
    /\ digits2_pos mz = 53%positive
    /\ -52 <= ez <= 1
    /\ Z.pos m * 2 ^ 52 = Z.pos mz * 2 ^ (ez + 52).
Proof.
  intros Hm. destruct (Z.eq_dec (Z.pos m) (2 ^ 53)) as [Heq | Hne].
  - exists 4503599627370496%positive, 1. rewrite Heq.
    repeat split; try lia; vm_compute; reflexivity.
  - assert (Hlt : Z.pos m < 2 ^ 53) by lia.
    pose proof (digits2_pos_le_53 m Hlt) as Hd.
    unfold ofZ, binary_normalize, binary_round, fexp, emin, prec, emax.
    replace (Z.max (Z.pos (digits2_pos m) + 0 - 53) (3 - 1024 - 53))
      with (Z.pos (digits2_pos m) - 53) by lia.
    unfold shl_align.
    destruct (Z.pos (digits2_pos m) - 53 - 0) as [ | p | p] eqn:Hs; try lia.
    + exists m, 0.
      assert (Hd53 : digits2_pos m = 53%positive) by (apply Pos2Z.inj; lia).
      split; [ apply binary_round_aux_exact; [ exact Hd53 | lia ] | ].
      split; [ exact Hd53 | ]. split; [ lia | reflexivity ].
    + exists (Pos.iter xO m p), (Z.pos (digits2_pos m) - 53).
      assert (Hd53 : digits2_pos (Pos.iter xO m p) = 53%positive).
      { rewrite digits2_pos_iter_xO. apply Pos2Z.inj. rewrite Pos2Z.inj_add. lia. }
      split; [ apply binary_round_aux_exact; [ exact Hd53 | lia ] | ].
      split; [ exact Hd53 | ]. split; [ lia | ].
      rewrite Zpos_iter_xO.
      replace 52 with (Z.pos p + (Z.pos (digits2_pos m) - 53 + 52)) at 1 by lia.
      rewrite Z.pow_add_r by lia. ring.
Qed.

(** The mantissa [p * 2^52] at exponent [-52] rounds to the double of
    [p]. *)
Lemma binary_round_scaled (p P : positive) :
  Z.pos p <= 2 ^ 53 -> Z.pos P = Z.pos p * 2 ^ 52 ->
  binary_round prec emax false P (-52) = ofZ (Z.pos p).
Proof.
  intros Hp HP.
  destruct (Z.eq_dec (Z.pos p) (2 ^ 53)) as [Heq | Hne].
  - assert (P = (2 ^ 105)%positive) by (apply Pos2Z.inj; rewrite HP, Heq; reflexivity).
    subst P. rewrite Heq. vm_compute. reflexivity.
  - destruct (Pos.eq_dec p 1) as [-> | Hp1].
    + assert (P = (2 ^ 52)%positive) by (apply Pos2Z.inj; rewrite HP; reflexivity).
      subst P. vm_compute. reflexivity.
    + destruct (ofZ_normal p Hp) as (mz & ez & Hof & Hd53 & He & Hval).
      rewrite Hof.
      pose proof (digits2_pos_bounds p) as [Hlo Hhi].
      pose proof (digits2_pos_bounds mz) as [Hlo' Hhi']. rewrite Hd53 in Hlo', Hhi'.
      assert (Hlt : Z.pos p < 2 ^ 53) by lia.
      pose proof (digits2_pos_le_53 p Hlt) as Hd.
      assert (Hd2 : 2 <= Z.pos (digits2_pos p)).
      { destruct p as [p | p | ]; simpl digits2_pos; try lia; try congruence. }
      assert (HdP : Z.pos (digits2_pos P) = Z.pos (digits2_pos p) + 52).
      { assert (P = Pos.iter xO p 52) by (apply Pos2Z.inj; rewrite Zpos_iter_xO; exact HP).
        subst P. rewrite digits2_pos_iter_xO. lia. }
      (* the exponent of the double of p *)
      assert (Hez : ez = Z.pos (digits2_pos p) - 53).
      { assert (Hpow : Z.pos p * 2 ^ 52 = Z.pos mz * 2 ^ (ez + 52)) by exact Hval.
        assert (H1 : 2 ^ Z.pos (digits2_pos p) * 2 ^ 52 <= 2 * (Z.pos mz * 2 ^ (ez + 52)))
          by nia.
        assert (H2 : Z.pos mz * 2 ^ (ez + 52) < 2 ^ Z.pos (digits2_pos p) * 2 ^ 52)
          by nia.
        rewrite <- Z.pow_add_r in H1, H2 by lia.
        assert (H3 : 2 ^ 52 * 2 ^ (ez + 52) <= Z.pos mz * 2 ^ (ez + 52)).
        { apply Z.mul_le_mono_nonneg_r; [ apply Z.pow_nonneg; lia | lia ]. }
        assert (H4 : Z.pos mz * 2 ^ (ez + 52) < 2 ^ 53 * 2 ^ (ez + 52)).
        { apply Z.mul_lt_mono_pos_r; [ apply Z.pow_pos_nonneg; lia | lia ]. }
        rewrite <- Z.pow_add_r in H3, H4 by lia.
        assert (H5 : 2 ^ (52 + (ez + 52)) < 2 ^ (Z.pos (digits2_pos p) + 52)) by lia.
        assert (H6 : 2 ^ (Z.pos (digits2_pos p) + 52) < 2 * 2 ^ (53 + (ez + 52))) by lia.
        rewrite <- Z.pow_succ_r in H6 by lia.
        apply Z.pow_lt_mono_r_iff in H5; [ | lia | lia ].
        apply Z.pow_lt_mono_r_iff in H6; [ | lia | lia ].
        lia. }
      unfold binary_round, fexp, emin, prec, emax. rewrite HdP.
      replace (Z.max (Z.pos (digits2_pos p) + 52 + -52 - 53) (3 - 1024 - 53))
        with (Z.pos (digits2_pos p) - 53) by lia.
      unfold shl_align.
      destruct (Z.pos (digits2_pos p) - 53 - -52) as [ | j | j] eqn:Hj; try lia.
      assert (HPj : P = Pos.iter xO mz j).
      { apply Pos2Z.inj. rewrite Zpos_iter_xO, HP, Hval.
        replace (ez + 52) with (Z.pos j) by lia. reflexivity. }
      rewrite HPj.
      replace (-52) with (ez - Z.pos j) by lia.
      apply binary_round_aux_shift; [ exact Hd53 | lia ].
Qed.

(** Counting in doubles: [i + 1] is exact below [2^53]. *)
Lemma add_ofZ_one (i : Z) :
  0 <= i < 2 ^ 53 -> add (ofZ i) (ofZ 1) = ofZ (i + 1).
Proof.
  intros Hi. destruct i as [ | m | m]; try lia.
  - reflexivity.
  - destruct (ofZ_normal m ltac:(lia)) as (mz & ez & Hof & Hd53 & He & Hval).
    assert (He0 : ez <= 0).
    { destruct (Z.eq_dec ez 1) as [-> | ]; [ | lia ].
      pose proof (digits2_pos_bounds mz) as [Hlo _]. rewrite Hd53 in Hlo.
      change (2 ^ (1 + 52)) with (2 * 2 ^ 52) in Hval. lia. }
    rewrite Hof.
    change (ofZ 1) with (S754_finite false 4503599627370496 (-52)).
    unfold add, SFadd. cbn [cond_Zopp].
    replace (Z.min ez (-52)) with (-52) by lia.
    assert (H1 : Z.pos (fst (shl_align mz ez (-52))) = Z.pos m * 2 ^ 52).
    { unfold shl_align.
      destruct (-52 - ez) as [ | j | j] eqn:Hj; try lia; cbn [fst].
      - replace (ez + 52) with 0 in Hval by lia. lia.
      - rewrite Zpos_iter_xO. replace (ez + 52) with (Z.pos j) in Hval by lia. lia. }
    change (fst (shl_align 4503599627370496 (-52) (-52))) with 4503599627370496%positive.
    rewrite H1.
    destruct (Z.pos m * 2 ^ 52 + 4503599627370496) as [ | P | P] eqn:HP; try lia.
    unfold binary_normalize.
    rewrite (binary_round_scaled (m + 1) P); [ reflexivity | lia | lia ].
Qed.

(** Doubles of integers up to [2^53] compare as the integers do. *)
Lemma SFltb_ofZ (i k : Z) :
  0 <= i <= 2 ^ 53 -> 0 <= k <= 2 ^ 53 -> SFltb (ofZ i) (ofZ k) = (i <? k).
Proof.
  intros Hi Hk.
  destruct i as [ | m | m]; try lia; destruct k as [ | n | n]; try lia.
  - reflexivity.
  - destruct (ofZ_normal n ltac:(lia)) as (nz & fz & Hof & _). rewrite Hof. reflexivity.
  - destruct (ofZ_normal m ltac:(lia)) as (mz & ez & Hof & _). rewrite Hof. reflexivity.
  - destruct (ofZ_normal m ltac:(lia)) as (mz & ez & Hof & Hdm & Hem & Hvm).
    destruct (ofZ_normal n ltac:(lia)) as (nz & fz & Hof' & Hdn & Hen & Hvn).
    rewrite Hof, Hof'.
    pose proof (digits2_pos_bounds mz) as [Hlm Hhm]. rewrite Hdm in Hlm, Hhm.
    pose proof (digits2_pos_bounds nz) as [Hln Hhn]. rewrite Hdn in Hln, Hhn.
    change (2 ^ 53) with (2 * 2 ^ 52) in Hlm, Hln.
    assert (Hpe : 0 < 2 ^ (ez + 52)) by (apply Z.pow_pos_nonneg; lia).
    assert (Hpf : 0 < 2 ^ (fz + 52)) by (apply Z.pow_pos_nonneg; lia).
    unfold SFltb, SFcompare, Z.ltb.
    destruct (Z.compare_spec ez fz) as [Heq | Hlt | Hgt].
    + subst fz. rewrite Pos.compare_cont_spec. cbn [Pos.switch_Eq].
      change (Z.pos m ?= Z.pos n) with (m ?= n)%positive.
      destruct (Pos.compare_spec mz nz) as [H | H | H];
        destruct (Pos.compare_spec m n) as [H' | H' | H']; try reflexivity;
        exfalso; try subst; nia.
    + assert (Hstep : 2 * 2 ^ (ez + 52) <= 2 ^ (fz + 52)).
      { rewrite <- Z.pow_succ_r by lia. apply Z.pow_le_mono_r; lia. }
      assert (Hlt' : Z.pos m < Z.pos n) by nia.
      change (Z.pos m ?= Z.pos n) with (m ?= n)%positive.
      destruct (Pos.compare_spec m n) as [H' | H' | H']; try reflexivity; lia.
    + assert (Hstep : 2 * 2 ^ (fz + 52) <= 2 ^ (ez + 52)).
      { rewrite <- Z.pow_succ_r by lia. apply Z.pow_le_mono_r; lia. }
      assert (Hlt' : Z.pos n < Z.pos m) by nia.
      change (Z.pos m ?= Z.pos n) with (m ?= n)%positive.
      destruct (Pos.compare_spec m n) as [H' | H' | H']; try reflexivity; lia.
Qed.

(** The guard [i < d] run with a double counter from [i] holds
    [k - i] times: the trip count of [loopBound]. *)
Lemma guardTrips_from (k : Z) (n : nat) (i : Z) :
  0 <= i -> k <= 2 ^ 53 -> i + Z.of_nat n = k ->
  guardTrips (S n) (ofZ i) (ofZ k) = Some n.
Proof.
  revert i. induction n as [ | n IH]; intros i Hi Hk Hsum.
  - cbn [guardTrips]. rewrite SFltb_ofZ by lia.
    destruct (Z.ltb_spec i k); [ lia | reflexivity ].
  - change (guardTrips (S (S n)) (ofZ i) (ofZ k))
      with (if SFltb (ofZ i) (ofZ k)
            then option_map S (guardTrips (S n) (add (ofZ i) (ofZ 1)) (ofZ k))
            else Some O).
    rewrite SFltb_ofZ by lia.
    destruct (Z.ltb_spec i k); [ | lia ].
    rewrite add_ofZ_one by lia.
    rewrite IH by lia. reflexivity.
Qed.

(** [loopBound] is the trip count of the loop guard run with its
    double counter. *)
Lemma loopBound_counts_guard (k : Z) :
  0 <= k <= 2 ^ 53 ->
  guardTrips (S (Z.to_nat k)) (ofZ 0) (ofZ k) = loopBound (ofZ k).
Proof.
  intros Hk. rewrite loopBound_ofZ by exact Hk.
  apply guardTrips_from; lia.
Qed.

Lemma div_zero_not_finite (x : number) (s : bool) :
  isFinite (div x (S754_zero s)) = false.
Proof. destruct x as [sx | sx | | sx m e]; reflexivity. Qed.

Lemma sub_one_one : sub (ofZ 1) (ofZ 1) = S754_zero false.
Proof. vm_compute. reflexivity. Qed.

Lemma zero_rate_monthly (s : bool) :
  div (div (S754_zero s) (ofZ 100)) (ofZ 12) = S754_zero s.
Proof. destruct s; vm_compute; reflexivity. Qed.

Lemma one_plus_zero (s : bool) : add (ofZ 1) (S754_zero s) = ofZ 1.
Proof. destruct s; vm_compute; reflexivity. Qed.

Lemma zero_product_over_zero (x : number) (s : bool) :
  div (mul (mul x (S754_zero s)) (ofZ 1)) (S754_zero false) = NaN.
Proof. destruct x as [sx | sx | | sx m e], s; try destruct sx; reflexivity. Qed.

(** The reference [Math.pow] meets the three clauses. *)
Lemma powRef_zero_exponent : pow_zero_exponent powRef.
Proof. intros x s. destruct x as [sx | sx | | sx m e]; reflexivity. Qed.

Lemma powRef_one_base : pow_one_base powRef.
Proof.
  intros y Hy. destruct y as [sy | sy | | sy m e]; try discriminate Hy.
  - reflexivity.
  - vm_compute. reflexivity.
Qed.

End DoubleFacts.

Section DoubleClaims.

Local Open Scope Z_scope.

Variable pow : F64.number -> F64.number -> F64.number.
Variable host : JSDate.Host.

(** C3. In double precision, for an integral number of months between
    1 and [2^53], every schedule the engine returns has exactly that
    many rows, whatever the principal, the rate and the start date;
    the engine returns when the period dates are valid, and throws
    [RangeError] otherwise.  The dates are valid, in a host without
    time zone offset, for every start date of the years 0 to 9999 and
    up to three million months. *)
Theorem schedule_length
    (principal annualRatePercent : F64.number) (termMonths : Z) (startDate : string) :
  0 < termMonths <= 2 ^ 53 ->
  let run :=
    calculateLoanDetails (N := F64.binary64 pow) host principal
      (F64.div annualRatePercent (F64.ofZ 100)) (F64.ofZ termMonths) startDate in
  (forall r : LoanResult F64.number,
      run = Ret r -> Z.of_nat (List.length (repaymentSchedule r)) = termMonths)
  /\ (datesValid host startDate (Z.to_nat termMonths) = true ->
      exists r : LoanResult F64.number, run = Ret r)
  /\ (datesValid host startDate (Z.to_nat termMonths) = false ->
      run = Throw RangeError)
  /\ (forall y m d : Z,
        (forall t b, JSDate.LocalTZA host t b = 0) ->
        JSDate.Date_parse host startDate
        = Some (JSDate.MakeDate (JSDate.MakeDay y m d) 0) ->
        0 <= y <= 9999 -> 0 <= m <= 11 ->
        1 <= d <= JSDate.daysInMonth (JSDate.isLeap y) m ->
        termMonths <= 3000000 ->
        exists r : LoanResult F64.number, run = Ret r).
Proof.
  intros Hk run.
  assert (Hn : @loopBound F64.number (F64.binary64 pow) (F64.ofZ termMonths)
               = Some (Z.to_nat termMonths)) by (apply loopBound_ofZ; lia).
  split; [ | split; [ | split ] ].
  - intros r Hr.
    destruct (calculateLoanDetails_Ret_inv _ _ _ _ _ _ Hr) as (n & Hn' & Hd).
    rewrite Hn in Hn'. injection Hn' as <-.
    pose proof (calculateLoanDetails_run (N := F64.binary64 pow) host principal
                  annualRatePercent (F64.ofZ termMonths) startDate _ Hn Hd) as Hrun.
    cbv zeta in Hrun. pose proof (eq_trans (eq_sym Hrun) Hr) as Heq.
    injection Heq as <-.
    cbn [repaymentSchedule]. unfold Spec.schedule.
    rewrite length_map, length_seq. lia.
  - intros Hd. eexists.
    exact (calculateLoanDetails_run (N := F64.binary64 pow) host principal
             annualRatePercent (F64.ofZ termMonths) startDate _ Hn Hd).
  - intros Hd. exact (calculateLoanDetails_throw _ _ _ _ _ _ Hn Hd).
  - intros y m d Htz Hparse Hy Hm Hday Hmax. eexists.
    apply (calculateLoanDetails_run (N := F64.binary64 pow) host principal
             annualRatePercent (F64.ofZ termMonths) startDate _ Hn).
    apply (datesValid_in_range host startDate y m d _ Htz Hparse Hy Hm Hday). lia.
Qed.

(** C8. At a zero rate, with a host whose [Math.pow] gives [1] for the
    base [1], the engine returns normally and the monthly payment is
    NaN: the formula is evaluated as it stands, to [0 / 0]. *)
Theorem zero_rate_non_finite
    (principal : F64.number) (termMonths : Z) (startDate : string) :
  F64.pow_one_base pow ->
  0 < termMonths <= 2 ^ 53 ->
  datesValid host startDate (Z.to_nat termMonths) = true ->
  exists r : LoanResult F64.number,
    calculateLoanDetails (N := F64.binary64 pow) host principal
      (F64.div (F64.ofZ 0) (F64.ofZ 100)) (F64.ofZ termMonths) startDate = Ret r
    /\ monthlyEMI r = F64.NaN
    /\ F64.isFinite (monthlyEMI r) = false.
Proof.
  intros Hpow Hk Hd.
  assert (Hn : @loopBound F64.number (F64.binary64 pow) (F64.ofZ termMonths)
               = Some (Z.to_nat termMonths)) by (apply loopBound_ofZ; lia).
  pose proof (calculateLoanDetails_run (N := F64.binary64 pow) host principal
                (F64.ofZ 0) (F64.ofZ termMonths) startDate _ Hn Hd) as Hrun.
  cbv zeta in Hrun.
  eexists. split; [ exact Hrun | ].
  cbn [monthlyEMI].
  assert (HE : Spec.monthlyPayment (N := F64.binary64 pow) principal (F64.ofZ 0) (F64.ofZ termMonths)
               = F64.NaN).
  { unfold Spec.monthlyPayment, Spec.monthlyRate.
    cbn [num_add num_sub num_mul num_div Math_pow ofZ F64.binary64].
    change (F64.ofZ 0) with (S754_zero false).
    rewrite zero_rate_monthly, one_plus_zero.
    rewrite (Hpow (F64.ofZ termMonths)) by (apply isFinite_ofZ; lia).
    rewrite sub_one_one. apply zero_product_over_zero. }
  rewrite HE. split; reflexivity.
Qed.

(** C9. For a term of zero months the engine returns normally, for
    every principal, rate and start date: the power is [1], the
    denominator [1 - 1 = 0], the monthly payment a division by zero,
    which is NaN or an infinity; the schedule is empty. *)
Theorem zero_term_non_finite
    (principal annualRatePercent : F64.number) (startDate : string) :
  F64.pow_zero_exponent pow ->
  exists r : LoanResult F64.number,
    calculateLoanDetails (N := F64.binary64 pow) host principal
      (F64.div annualRatePercent (F64.ofZ 100)) (F64.ofZ 0) startDate = Ret r
    /\ F64.isFinite (monthlyEMI r) = false
    /\ repaymentSchedule r = [].
Proof.
  intros Hpow.
  pose proof (calculateLoanDetails_run (N := F64.binary64 pow) host principal
                annualRatePercent (F64.ofZ 0) startDate 0 eq_refl eq_refl) as Hrun.
  cbv zeta in Hrun.
  eexists. split; [ exact Hrun | ].
  cbn [monthlyEMI repaymentSchedule]. split; [ | reflexivity ].
  unfold Spec.monthlyPayment.
  cbn [num_add num_sub num_mul num_div Math_pow ofZ F64.binary64].
  change (F64.ofZ 0) with (S754_zero false).
  rewrite (Hpow _ false), sub_one_one.
  apply div_zero_not_finite.
Qed.

End DoubleClaims.

(** With the reference host, every start date the parser accepts and
    every term of 1 to 3,000,000 months give a schedule: the engine
    returns, with as many rows as months. *)
Lemma engine_returns_for_iso_dates (pow : F64.number -> F64.number -> F64.number)
    (principal annualRatePercent : F64.number) (termMonths : Z)
    (startDate : string) (t : Z) :
  JSDate.parseISODate startDate = Some t ->
  0 < termMonths <= 3000000 ->
  exists r : LoanResult F64.number,
    calculateLoanDetails (N := F64.binary64 pow) JSDate.utcHost principal
      (F64.div annualRatePercent (F64.ofZ 100)) (F64.ofZ termMonths) startDate = Ret r
    /\ Z.of_nat (List.length (repaymentSchedule r)) = termMonths.
Proof.
  intros Hparse Hk.
  destruct (parseISODate_valid startDate t Hparse) as (y & m & d & -> & Hy & Hm & Hd).
  assert (Hn : @loopBound F64.number (F64.binary64 pow) (F64.ofZ termMonths)
               = Some (Z.to_nat termMonths)) by (apply loopBound_ofZ; lia).
  assert (Hv : datesValid JSDate.utcHost startDate (Z.to_nat termMonths) = true).
  { apply (datesValid_in_range JSDate.utcHost startDate y m d); try assumption.
    - intros; reflexivity.
    - lia. }
  pose proof (calculateLoanDetails_run (N := F64.binary64 pow) JSDate.utcHost principal
                annualRatePercent (F64.ofZ termMonths) startDate _ Hn Hv) as Hrun.
  cbv zeta in Hrun. eexists. split; [ exact Hrun | ].
  cbn [repaymentSchedule]. unfold Spec.schedule.
  rewrite length_map, length_seq. lia.
Qed.

(** ** Where double precision departs from exact arithmetic *)

(** C7 as stated fails in double precision: for a loan of 1000 at 6%
    over one month the engine returns 1005.0000000000214, while
    [principal * (1 + monthlyRate)] is 1004.9999999999999; both are
    shown as 1005.00. *)
Lemma single_period_payment_double_counterexample :
  exists r : LoanResult F64.number,
    calculateLoanDetails (N := refDouble) JSDate.utcHost (F64.ofZ 1000)
      (F64.div (F64.ofZ 6) (F64.ofZ 100)) (F64.ofZ 1) "2024-01-01" = Ret r
    /\ monthlyEMI r = S754_finite false 8840073487319228 (-43)
    /\ F64.mul (F64.ofZ 1000)
         (F64.add (F64.ofZ 1) (F64.div (F64.div (F64.ofZ 6) (F64.ofZ 100)) (F64.ofZ 12)))
       = S754_finite false 8840073487319039 (-43)
    /\ monthlyEMI r
       <> F64.mul (F64.ofZ 1000)
            (F64.add (F64.ofZ 1) (F64.div (F64.div (F64.ofZ 6) (F64.ofZ 100)) (F64.ofZ 12)))
    /\ F64.toFixed2 (monthlyEMI r) = "1005.00"%string.
Proof.
  eexists. split; [ vm_compute; reflexivity | ].
  cbn [monthlyEMI].
  split; [ vm_compute; reflexivity | ].
  split; [ vm_compute; reflexivity | ].
  split; [ vm_compute; discriminate | vm_compute; reflexivity ].
Qed.

(** C5 as stated fails in double precision, where no tolerance holds
    for every loan: for 1000 at 1200% a year (monthly rate 1) over 60
    months, [2^60 - 1] rounds to [2^60], the payment comes out as
    1000, all of it interest, and the balance left when the loop ends
    is the whole loan; the last row shows [1000.00]. *)
Lemma final_balance_not_zero_double_counterexample :
  exists (r : LoanResult F64.number) (lastRow : Row),
    calculateLoanDetails (N := refDouble) JSDate.utcHost (F64.ofZ 1000)
      (F64.div (F64.ofZ 1200) (F64.ofZ 100)) (F64.ofZ 60) "2024-01-01" = Ret r
    /\ monthlyEMI r = F64.ofZ 1000
    /\ scheduleRun (N := refDouble) JSDate.utcHost (F64.ofZ 1000) (monthlyEMI r)
         (F64.ofZ 60) "2024-01-01" (F64.div (F64.ofZ 1200) (F64.ofZ 100))
       = Ret (F64.ofZ 1000, repaymentSchedule r)
    /\ nth_error (repaymentSchedule r) 59 = Some lastRow
    /\ balance lastRow = "1000.00"%string.
Proof.
  eexists. eexists. split; [ vm_compute; reflexivity | ].
  cbn [monthlyEMI repaymentSchedule].
  split; [ vm_compute; reflexivity | ].
  split; [ vm_compute; reflexivity | ].
  split; [ vm_compute; reflexivity | vm_compute; reflexivity ].
Qed.

(** A balance the turn of the loop gives back unchanged stays where it
    is, turn after turn. *)
Lemma runningBalance_stuck {num : Type} {N : Number num}
    (loanAmount monthlyEMI rate : num) :
  (loanAmount - (monthlyEMI - loanAmount * rate))%num = loanAmount ->
  forall i : nat, Spec.runningBalance loanAmount monthlyEMI rate i = loanAmount.
Proof.
  intros Hfix i. induction i as [ | i IH]; [ reflexivity | ].
  change (Spec.runningBalance loanAmount monthlyEMI rate (S i))
    with (Spec.runningBalance loanAmount monthlyEMI rate i
          - (monthlyEMI - Spec.runningBalance loanAmount monthlyEMI rate i * rate))%num.
  rewrite IH. exact Hfix.
Qed.

Lemma map_seq_constant {A : Type} (f : nat -> A) (c : A) (s n : nat) :
  (forall i, f i = c) -> map f (seq s n) = repeat c n.
Proof.
  intros Hf. revert s. induction n as [ | n IH]; intros s; [ reflexivity | ].
  cbn [seq map repeat]. rewrite Hf, IH. reflexivity.
Qed.

(** The engine's run of a loan in double precision whose balance is
    given back unchanged by the first turn: every turn starts and ends
    with the loan amount. *)
Lemma stuck_loan_run (principal annualRatePercent : F64.number) (termMonths : Z)
    (n : nat) :
  let E := Spec.monthlyPayment (N := refDouble) principal annualRatePercent
             (F64.ofZ termMonths) in
  let rate := F64.div annualRatePercent (F64.ofZ 100) in
  @loopBound F64.number refDouble (F64.ofZ termMonths) = Some n ->
  datesValid JSDate.utcHost "2024-01-01" n = true ->
  F64.sub principal (F64.sub E (F64.mul principal (F64.div rate (F64.ofZ 12))))
  = principal ->
  exists r : LoanResult F64.number,
    calculateLoanDetails (N := refDouble) JSDate.utcHost principal rate
      (F64.ofZ termMonths) "2024-01-01" = Ret r
    /\ monthlyEMI r = E
    /\ (forall i : nat, (i < n)%nat ->
          forLoop (N := refDouble) JSDate.utcHost (monthlyEMI r) "2024-01-01" rate
            i 0 (principal, [])
          = Ret (principal, firstn i (repaymentSchedule r))
          /\ loopBody (N := refDouble) JSDate.utcHost (monthlyEMI r) "2024-01-01" rate
               (Z.of_nat i) (principal, firstn i (repaymentSchedule r))
             = Ret (principal, firstn (S i) (repaymentSchedule r)))
    /\ map balance (repaymentSchedule r)
       = repeat (F64.toFixed2 principal) n.
Proof.
  intros E rate Hn Hd Hfix.
  pose proof (calculateLoanDetails_run (N := refDouble) JSDate.utcHost principal
                annualRatePercent (F64.ofZ termMonths) "2024-01-01" n Hn Hd) as Hrun.
  cbv zeta in Hrun. fold E in Hrun.
  pose proof (runningBalance_stuck (N := refDouble) principal E
                (@num_div _ refDouble rate (@ofZ _ refDouble 12)) Hfix) as Hstuck.
  eexists. split; [ exact Hrun | ].
  cbn [monthlyEMI repaymentSchedule]. split; [ reflexivity | ]. split.
  - intros i Hi. split.
    + pose proof (forLoop_prefix (N := refDouble) JSDate.utcHost principal E rate
                    "2024-01-01" i n ltac:(lia) Hd) as Hloop.
      rewrite (Hstuck i) in Hloop. exact Hloop.
    + pose proof (loopBody_prefix (N := refDouble) JSDate.utcHost principal E rate
                    "2024-01-01" i n Hi Hd) as Hturn.
      cbv zeta in Hturn. rewrite (Hstuck i), (Hstuck (S i)) in Hturn. exact Hturn.
  - unfold Spec.schedule. rewrite map_map.
    apply map_seq_constant. intros i.
    cbn [balance Spec.periodRow].
    change (F64.toFixed2 (Spec.runningBalance (N := refDouble) principal E
                            (@num_div _ refDouble rate (@ofZ _ refDouble 12)) (S i))
            = F64.toFixed2 principal).
    rewrite (Hstuck (S i)). reflexivity.
Qed.

(** C6 as stated fails, in three ways.

    In double precision, a loan of 1000 at 1200% a year (monthly rate
    1) over 60 months: [2^60 - 1] rounds to [2^60], the payment comes
    out as 1000, equal to the interest, and every turn of the loop
    leaves the balance at 1000.

    In double precision, a loan of 1024 at 300% a year (monthly rate
    0.25) over 164 months: [1.25^164] lies between [2^52] and [2^53],
    the payment is [256 + 2^-44], above the interest of 256 in every
    period, yet [1024 - 2^-44] rounds back to 1024, and every turn of
    the loop leaves the balance at 1024.

    Under exact arithmetic, a loan of 1 at 6% over 120 months: the
    balances shown by the first two rows are both [0.99], the
    unrounded ones being 0.9939 and 0.9878. *)
Lemma balance_not_decreasing_double_counterexample :
  (exists r : LoanResult F64.number,
     calculateLoanDetails (N := refDouble) JSDate.utcHost (F64.ofZ 1000)
       (F64.div (F64.ofZ 1200) (F64.ofZ 100)) (F64.ofZ 60) "2024-01-01" = Ret r
     /\ monthlyEMI r = F64.ofZ 1000
     /\ F64.mul (F64.ofZ 1000)
          (F64.div (F64.div (F64.ofZ 1200) (F64.ofZ 100)) (F64.ofZ 12))
        = monthlyEMI r
     /\ (forall i : nat, (i < 60)%nat ->
           forLoop (N := refDouble) JSDate.utcHost (monthlyEMI r) "2024-01-01"
             (F64.div (F64.ofZ 1200) (F64.ofZ 100)) i 0 (F64.ofZ 1000, [])
           = Ret (F64.ofZ 1000, firstn i (repaymentSchedule r))
           /\ loopBody (N := refDouble) JSDate.utcHost (monthlyEMI r) "2024-01-01"
                (F64.div (F64.ofZ 1200) (F64.ofZ 100)) (Z.of_nat i)
                (F64.ofZ 1000, firstn i (repaymentSchedule r))
              = Ret (F64.ofZ 1000, firstn (S i) (repaymentSchedule r)))
     /\ map balance (repaymentSchedule r) = repeat "1000.00"%string 60)
  /\ (exists r : LoanResult F64.number,
        calculateLoanDetails (N := refDouble) JSDate.utcHost (F64.ofZ 1024)
          (F64.div (F64.ofZ 300) (F64.ofZ 100)) (F64.ofZ 164) "2024-01-01" = Ret r
        /\ monthlyEMI r = S754_finite false 4503599627370497 (-44)
        /\ F64.mul (F64.ofZ 1024)
             (F64.div (F64.div (F64.ofZ 300) (F64.ofZ 100)) (F64.ofZ 12))
           = F64.ofZ 256
        /\ SFltb (F64.ofZ 256) (monthlyEMI r) = true
        /\ (forall i : nat, (i < 164)%nat ->
              forLoop (N := refDouble) JSDate.utcHost (monthlyEMI r) "2024-01-01"
                (F64.div (F64.ofZ 300) (F64.ofZ 100)) i 0 (F64.ofZ 1024, [])
              = Ret (F64.ofZ 1024, firstn i (repaymentSchedule r))
              /\ loopBody (N := refDouble) JSDate.utcHost (monthlyEMI r) "2024-01-01"
                   (F64.div (F64.ofZ 300) (F64.ofZ 100)) (Z.of_nat i)
                   (F64.ofZ 1024, firstn i (repaymentSchedule r))
                 = Ret (F64.ofZ 1024, firstn (S i) (repaymentSchedule r)))
        /\ map balance (repaymentSchedule r) = repeat "1024.00"%string 164)
  /\ (exists (r : LoanResult Qc) (row0 row1 : Row),
        calculateLoanDetails (N := Exact.exact) JSDate.utcHost (Q2Qc 1)
          (Q2Qc 6 / Q2Qc 100)%Qc (Q2Qc 120) "2024-01-01" = Ret r
        /\ nth_error (repaymentSchedule r) 0 = Some row0
        /\ nth_error (repaymentSchedule r) 1 = Some row1
        /\ balance row0 = "0.99"%string
        /\ balance row1 = "0.99"%string).
Proof.
  split; [ | split ].
  - destruct (stuck_loan_run (F64.ofZ 1000) (F64.ofZ 1200) 60 60)
      as (r & Hrun & HE & Hloop & Hrows);
      [ vm_compute; reflexivity | vm_compute; reflexivity | vm_compute; reflexivity | ].
    exists r. split; [ exact Hrun | ].
    assert (HE' : monthlyEMI r = F64.ofZ 1000) by (rewrite HE; vm_compute; reflexivity).
    split; [ exact HE' | ].
    split; [ rewrite HE'; vm_compute; reflexivity | ].
    split; [ exact Hloop | exact Hrows ].
  - destruct (stuck_loan_run (F64.ofZ 1024) (F64.ofZ 300) 164 164)
      as (r & Hrun & HE & Hloop & Hrows);
      [ vm_compute; reflexivity | vm_compute; reflexivity | vm_compute; reflexivity | ].
    exists r. split; [ exact Hrun | ].
    assert (HE' : monthlyEMI r = S754_finite false 4503599627370497 (-44))
      by (rewrite HE; vm_compute; reflexivity).
    split; [ exact HE' | ].
    split; [ vm_compute; reflexivity | ].
    split; [ rewrite HE'; vm_compute; reflexivity | ].
    split; [ exact Hloop | exact Hrows ].
  - pose proof (calculateLoanDetails_run (N := Exact.exact) JSDate.utcHost (Q2Qc 1)
                  (Q2Qc 6) (Q2Qc 120) "2024-01-01" 120 ltac:(vm_compute; reflexivity)
                  ltac:(vm_compute; reflexivity)) as Hrun.
    cbv zeta in Hrun.
    eexists. eexists. eexists. split; [ exact Hrun | ].
    cbn [repaymentSchedule]. unfold Spec.schedule.
    split; [ rewrite nth_error_map; reflexivity | ].
    split; [ rewrite nth_error_map; reflexivity | ].
    split; vm_compute; reflexivity.
Qed.

(** ** The specification's scenario

    A loan of 120000 at 6% a year over 12 months from 2024-01-01. *)

Example scenario_page_double :
  exists page : Page F64.number,
    calculateLoan (N := refDouble) JSDate.utcHost (F64.ofZ 120000) (F64.ofZ 6)
      (F64.ofZ 12) "2024-01-01" = Ret page
    /\ loan_amount_result page = "120000.00"%string
    /\ monthly_emi page = "10327.97"%string
    /\ total_interest page = "3935.66"%string
    /\ total_amount page = "123935.66"%string
    /\ map date (schedule_rows page)
       = [ "2024-01-01"; "2024-02-01"; "2024-03-01"; "2024-04-01"; "2024-05-01";
           "2024-06-01"; "2024-07-01"; "2024-08-01"; "2024-09-01"; "2024-10-01";
           "2024-11-01"; "2024-12-01" ]%string
    /\ map balance (schedule_rows page)
       = [ "110272.03"; "100495.42"; "90669.92"; "80795.30"; "70871.31";
           "60897.69"; "50874.21"; "40800.61"; "30676.64"; "20502.05";
           "10276.59"; "-0.00" ]%string.
Proof.
  eexists. split; [ vm_compute; reflexivity | ].
  repeat split; vm_compute; reflexivity.
Qed.

Example scenario_page_exact :
  exists page : Page Qc,
    calculateLoan (N := Exact.exact) JSDate.utcHost (Q2Qc 120000) (Q2Qc 6)
      (Q2Qc 12) "2024-01-01" = Ret page
    /\ monthly_emi page = "10327.97"%string
    /\ total_interest page = "3935.66"%string
    /\ total_amount page = "123935.66"%string
    /\ map balance (schedule_rows page)
       = [ "110272.03"; "100495.42"; "90669.92"; "80795.30"; "70871.31";
           "60897.69"; "50874.21"; "40800.61"; "30676.64"; "20502.05";
           "10276.59"; "0.00" ]%string.
Proof.
  eexists. split; [ vm_compute; reflexivity | ].
  repeat split; vm_compute; reflexivity.
Qed.

(** A start on the 31st: February and April have no such day and the
    date runs over into the next month, yet March and May are met. *)
Example start_on_the_31st :
  map (Spec.dateText JSDate.utcHost "2024-01-31") (seq 0 6)
  = [ "2024-01-31"; "2024-03-02"; "2024-03-31"; "2024-05-01"; "2024-05-31";
      "2024-07-01" ]%string.
Proof. vm_compute. reflexivity. Qed.

(** No start date, or a date that leaves the range of [Date]: the
    engine throws. *)
Example empty_start_date_throws :
  calculateLoanDetails (N := refDouble) JSDate.utcHost (F64.ofZ 120000)
    (F64.ofFraction 6 100) (F64.ofZ 12) "" = Throw RangeError.
Proof. vm_compute. reflexivity. Qed.

(** The loop guard with its double counter, on small bounds. *)
Example guard_counts_twelve :
  F64.guardTrips 100 (F64.ofZ 0) (F64.ofZ 12) = Some 12%nat
  /\ F64.guardTrips 100 (F64.ofZ 0) (F64.ofFraction 5 2) = Some 3%nat
  /\ F64.guardTrips 100 (F64.ofZ 0) F64.NaN = Some 0%nat.
Proof. repeat split; vm_compute; reflexivity. Qed.

(** A term of zero months: the payment is [Infinity], the totals are
    NaN, and the page shows them as such. *)
Example zero_term_page :
  exists page : Page F64.number,
    calculateLoan (N := refDouble) JSDate.utcHost (F64.ofZ 120000) (F64.ofZ 6)
      (F64.ofZ 0) "2024-01-01" = Ret page
    /\ monthly_emi page = "Infinity"%string
    /\ total_interest page = "NaN"%string
    /\ total_amount page = "NaN"%string
    /\ schedule_rows page = [].
Proof.
  eexists. split; [ vm_compute; reflexivity | ].
  repeat split; vm_compute; reflexivity.
Qed.

(** A zero rate: every amount that depends on the payment is NaN. *)
Example zero_rate_page :
  exists page : Page F64.number,
    calculateLoan (N := refDouble) JSDate.utcHost (F64.ofZ 120000) (F64.ofZ 0)
      (F64.ofZ 2) "2024-01-01" = Ret page
    /\ monthly_emi page = "NaN"%string
    /\ total_interest page = "NaN"%string
    /\ schedule_rows page
       = [ {| date := "2024-01-01"; principalAmount := "NaN"; interest := "0.00";
              balance := "NaN" |};
           {| date := "2024-02-01"; principalAmount := "NaN"; interest := "NaN";
              balance := "NaN" |} ].
Proof.
  eexists. split; [ vm_compute; reflexivity | ].
  repeat split; vm_compute; reflexivity.
Qed.

(** A term that runs beyond the year 275760 (the end of the range of
    [Date]) makes the engine throw. *)
Example term_beyond_date_range_throws :
  calculateLoanDetails (N := refDouble) JSDate.utcHost (F64.ofZ 120000)
    (F64.ofFraction 6 100) (F64.ofZ 3300000) "2024-01-01" = Throw RangeError.
Proof.
  apply (calculateLoanDetails_throw (N := refDouble) JSDate.utcHost _ _ _ _
           (Z.to_nat 3300000)).
  - apply loopBound_ofZ. lia.
  - apply (datesValid_false_at JSDate.utcHost "2024-01-01" (Z.to_nat 3290000));
      [ lia | ].
    unfold dateValid. rewrite Z2Nat.id by lia. vm_compute. reflexivity.
Qed.

(** West of Greenwich the start date is the evening of the day before
    in local time: five hours west, a start on 2024-01-01 is local
    December 31st, and the months without a 31st run over. *)
Example five_hours_west :
  map (Spec.dateText (JSDate.offsetHost (-18000000)) "2024-01-01") (seq 0 6)
  = [ "2024-01-01"; "2024-02-01"; "2024-03-03"; "2024-04-01"; "2024-05-02";
      "2024-06-01" ]%string.
Proof. vm_compute. reflexivity. Qed.

(** An empty or unreadable duration is NaN: the loop does not run and
    every number of the page is NaN. *)
Example missing_duration_page :
  exists page : Page F64.number,
    calculateLoan (N := refDouble) JSDate.utcHost (F64.ofZ 120000) (F64.ofZ 6)
      F64.NaN "" = Ret page
    /\ monthly_emi page = "NaN"%string
    /\ total_interest page = "NaN"%string
    /\ total_amount page = "NaN"%string
    /\ schedule_rows page = [].
Proof.
  eexists. split; [ vm_compute; reflexivity | ].
  repeat split; vm_compute; reflexivity.
Qed.

(** An amount of 22 digits or more is shown in exponent notation, with
    the fewest digits that read back as the same double. *)
Example large_amount_shown :
  F64.toFixed2 (F64.ofZ (2 ^ 89)) = "6.189700196426902e+26"%string
  /\ F64.toFixed2 (F64.ofZ (10 ^ 21)) = "1e+21"%string
  /\ F64.toFixed2 (F64.ofZ (- (2 ^ 70))) = "-1.1805916207174113e+21"%string
  /\ F64.toFixed2 (F64.ofZ (10 ^ 21 - 2 ^ 17)) = "999999999999999868928.00"%string.
Proof. repeat split; vm_compute; reflexivity. Qed.

(** ** The claims at concrete inputs

    Each theorem with hypotheses is applied once here, in double
    precision with the reference host or in exact arithmetic, its
    hypotheses discharged by computation. *)

Lemma monthly_payment_formula_witness :
  loopBound (Number := refDouble) (F64.ofZ 12) = Some 12%nat
  /\ datesValid JSDate.utcHost "2024-01-01" 12 = true
  /\ exists (r : LoanResult F64.number) (page : Page F64.number),
       calculateLoanDetails (N := refDouble) JSDate.utcHost (F64.ofZ 120000)
         (F64.div (F64.ofZ 6) (F64.ofZ 100)) (F64.ofZ 12) "2024-01-01" = Ret r
       /\ calculateLoan (N := refDouble) JSDate.utcHost (F64.ofZ 120000) (F64.ofZ 6)
            (F64.ofZ 12) "2024-01-01" = Ret page
       /\ monthlyEMI r
          = F64.div
              (F64.mul
                 (F64.mul (F64.ofZ 120000)
                    (F64.div (F64.div (F64.ofZ 6) (F64.ofZ 100)) (F64.ofZ 12)))
                 (F64.powRef
                    (F64.add (F64.ofZ 1)
                       (F64.div (F64.div (F64.ofZ 6) (F64.ofZ 100)) (F64.ofZ 12)))
                    (F64.ofZ 12)))
              (F64.sub
                 (F64.powRef
                    (F64.add (F64.ofZ 1)
                       (F64.div (F64.div (F64.ofZ 6) (F64.ofZ 100)) (F64.ofZ 12)))
                    (F64.ofZ 12))
                 (F64.ofZ 1))
       /\ monthly_emi page = F64.toFixed2 (monthlyEMI r).
Proof.
  split; [ vm_compute; reflexivity | ].
  split; [ vm_compute; reflexivity | ].
  apply (monthly_payment_formula (N := refDouble) JSDate.utcHost (F64.ofZ 120000)
           (F64.ofZ 6) (F64.ofZ 12) "2024-01-01" 12);
    vm_compute; reflexivity.
Defined.

Lemma schedule_recurrence_witness :
  loopBound (Number := refDouble) (F64.ofZ 12) = Some 12%nat
  /\ datesValid JSDate.utcHost "2024-01-01" 12 = true
  /\ exists (r : LoanResult F64.number) (b : nat -> F64.number),
       calculateLoanDetails (N := refDouble) JSDate.utcHost (F64.ofZ 120000)
         (F64.div (F64.ofZ 6) (F64.ofZ 100)) (F64.ofZ 12) "2024-01-01" = Ret r
       /\ List.length (repaymentSchedule r) = 12%nat
       /\ b O = F64.ofZ 120000
       /\ (forall i,
             b (S i)
             = F64.sub (b i)
                 (F64.sub (monthlyEMI r)
                    (F64.mul (b i)
                       (F64.div (F64.div (F64.ofZ 6) (F64.ofZ 100)) (F64.ofZ 12)))))
       /\ (forall i, (i < 12)%nat ->
             let interestPortion :=
               F64.mul (b i) (F64.div (F64.div (F64.ofZ 6) (F64.ofZ 100)) (F64.ofZ 12)) in
             let principalPortion := F64.sub (monthlyEMI r) interestPortion in
             nth_error (repaymentSchedule r) i
             = Some {| date := Spec.dateText JSDate.utcHost "2024-01-01" i;
                       principalAmount := F64.toFixed2 principalPortion;
                       interest := F64.toFixed2 interestPortion;
                       balance := F64.toFixed2 (F64.sub (b i) principalPortion) |}).
Proof.
  split; [ vm_compute; reflexivity | ].
  split; [ vm_compute; reflexivity | ].
  apply (schedule_recurrence (N := refDouble) JSDate.utcHost (F64.ofZ 120000)
           (F64.ofZ 6) (F64.ofZ 12) "2024-01-01" 12);
    vm_compute; reflexivity.
Defined.

Lemma schedule_length_witness :
  0 < 12 <= 2 ^ 53
  /\ (let run :=
        calculateLoanDetails (N := F64.binary64 F64.powRef) JSDate.utcHost
          (F64.ofZ 120000) (F64.div (F64.ofZ 6) (F64.ofZ 100)) (F64.ofZ 12)
          "2024-01-01" in
      (forall r : LoanResult F64.number,
          run = Ret r -> Z.of_nat (List.length (repaymentSchedule r)) = 12)
      /\ (datesValid JSDate.utcHost "2024-01-01" (Z.to_nat 12) = true ->
          exists r : LoanResult F64.number, run = Ret r)
      /\ (datesValid JSDate.utcHost "2024-01-01" (Z.to_nat 12) = false ->
          run = Throw RangeError)
      /\ (forall y m d : Z,
            (forall t b, JSDate.LocalTZA JSDate.utcHost t b = 0) ->
            JSDate.Date_parse JSDate.utcHost "2024-01-01"
            = Some (JSDate.MakeDate (JSDate.MakeDay y m d) 0) ->
            0 <= y <= 9999 -> 0 <= m <= 11 ->
            1 <= d <= JSDate.daysInMonth (JSDate.isLeap y) m ->
            12 <= 3000000 ->
            exists r : LoanResult F64.number, run = Ret r)).
Proof.
  split; [ lia | ].
  apply (schedule_length F64.powRef JSDate.utcHost (F64.ofZ 120000) (F64.ofZ 6) 12
           "2024-01-01"). lia.
Defined.

Lemma totals_identities_witness :
  loopBound (Number := refDouble) (F64.ofZ 12) = Some 12%nat
  /\ datesValid JSDate.utcHost "2024-01-01" 12 = true
  /\ exists r : LoanResult F64.number,
       calculateLoanDetails (N := refDouble) JSDate.utcHost (F64.ofZ 120000)
         (F64.ofFraction 6 100) (F64.ofZ 12) "2024-01-01" = Ret r
       /\ totalInterest r
          = F64.sub (F64.mul (monthlyEMI r) (F64.ofZ 12)) (F64.ofZ 120000)
       /\ totalAmount r = F64.add (totalInterest r) (F64.ofZ 120000).
Proof.
  split; [ vm_compute; reflexivity | ].
  split; [ vm_compute; reflexivity | ].
  apply (totals_identities (N := refDouble) JSDate.utcHost (F64.ofZ 120000)
           (F64.ofFraction 6 100) (F64.ofZ 12) "2024-01-01" 12);
    vm_compute; reflexivity.
Defined.

Lemma final_balance_zero_exact_witness :
  (0 < Q2Qc 6)%Qc
  /\ 0 < 12
  /\ datesValid JSDate.utcHost "2024-01-01" (Z.to_nat 12) = true
  /\ exists (r : LoanResult Qc) (lastRow : Row),
       calculateLoanDetails (N := Exact.exact) JSDate.utcHost (Q2Qc 120000)
         (Q2Qc 6 / Q2Qc 100)%Qc (Q2Qc 12) "2024-01-01" = Ret r
       /\ scheduleRun (N := Exact.exact) JSDate.utcHost (Q2Qc 120000) (monthlyEMI r)
            (Q2Qc 12) "2024-01-01" (Q2Qc 6 / Q2Qc 100)%Qc
          = Ret (Q2Qc 0, repaymentSchedule r)
       /\ nth_error (repaymentSchedule r) (Z.to_nat 12 - 1) = Some lastRow
       /\ balance lastRow = "0.00"%string.
Proof.
  split; [ reflexivity | ].
  split; [ lia | ].
  split; [ vm_compute; reflexivity | ].
  apply (final_balance_zero_exact JSDate.utcHost (Q2Qc 120000) (Q2Qc 6) 12
           "2024-01-01"); [ reflexivity | lia | vm_compute; reflexivity ].
Defined.

Lemma balance_strictly_decreases_exact_witness :
  (0 < Q2Qc 120000)%Qc
  /\ (0 < Q2Qc 6)%Qc
  /\ 0 < 12
  /\ datesValid JSDate.utcHost "2024-01-01" (Z.to_nat 12) = true
  /\ exists r : LoanResult Qc,
       calculateLoanDetails (N := Exact.exact) JSDate.utcHost (Q2Qc 120000)
         (Q2Qc 6 / Q2Qc 100)%Qc (Q2Qc 12) "2024-01-01" = Ret r
       /\ forall i : nat, (i < 12)%nat ->
            exists before after : Qc,
              forLoop (N := Exact.exact) JSDate.utcHost (monthlyEMI r) "2024-01-01"
                (Q2Qc 6 / Q2Qc 100)%Qc i 0 (Q2Qc 120000, [])
              = Ret (before, firstn i (repaymentSchedule r))
              /\ loopBody (N := Exact.exact) JSDate.utcHost (monthlyEMI r) "2024-01-01"
                   (Q2Qc 6 / Q2Qc 100)%Qc (Z.of_nat i)
                   (before, firstn i (repaymentSchedule r))
                 = Ret (after, firstn (S i) (repaymentSchedule r))
              /\ (before * (Q2Qc 6 / Q2Qc 100 / Q2Qc 12) < monthlyEMI r)%Qc
              /\ (after < before)%Qc.
Proof.
  split; [ reflexivity | ].
  split; [ reflexivity | ].
  split; [ lia | ].
  split; [ vm_compute; reflexivity | ].
  destruct (balance_strictly_decreases_exact JSDate.utcHost (Q2Qc 120000) (Q2Qc 6) 12
              "2024-01-01") as (r & Hrun & Hturns & _);
    [ reflexivity | reflexivity | lia | vm_compute; reflexivity | ].
  exists r. split; [ exact Hrun | exact Hturns ].
Defined.

Lemma single_period_payment_exact_witness :
  (0 < Q2Qc 6)%Qc
  /\ datesValid JSDate.utcHost "2024-01-01" 1 = true
  /\ exists r : LoanResult Qc,
       calculateLoanDetails (N := Exact.exact) JSDate.utcHost (Q2Qc 1000)
         (Q2Qc 6 / Q2Qc 100)%Qc (Q2Qc 1) "2024-01-01" = Ret r
       /\ monthlyEMI r = (Q2Qc 1000 * (1 + Q2Qc 6 / Q2Qc 100 / Q2Qc 12))%Qc.
Proof.
  split; [ reflexivity | ].
  split; [ vm_compute; reflexivity | ].
  apply (single_period_payment_exact JSDate.utcHost (Q2Qc 1000) (Q2Qc 6) "2024-01-01");
    [ reflexivity | vm_compute; reflexivity ].
Defined.

Lemma zero_rate_non_finite_witness :
  F64.pow_one_base F64.powRef
  /\ 0 < 12 <= 2 ^ 53
  /\ datesValid JSDate.utcHost "2024-01-01" (Z.to_nat 12) = true
  /\ exists r : LoanResult F64.number,
       calculateLoanDetails (N := F64.binary64 F64.powRef) JSDate.utcHost
         (F64.ofZ 120000) (F64.div (F64.ofZ 0) (F64.ofZ 100)) (F64.ofZ 12)
         "2024-01-01" = Ret r
       /\ monthlyEMI r = F64.NaN
       /\ F64.isFinite (monthlyEMI r) = false.
Proof.
  split; [ exact powRef_one_base | ].
  split; [ lia | ].
  split; [ vm_compute; reflexivity | ].
  apply (zero_rate_non_finite F64.powRef JSDate.utcHost (F64.ofZ 120000) 12
           "2024-01-01"); [ exact powRef_one_base | lia | vm_compute; reflexivity ].
Defined.

Lemma zero_term_non_finite_witness :
  F64.pow_zero_exponent F64.powRef
  /\ exists r : LoanResult F64.number,
       calculateLoanDetails (N := F64.binary64 F64.powRef) JSDate.utcHost
         (F64.ofZ 120000) (F64.div (F64.ofZ 6) (F64.ofZ 100)) (F64.ofZ 0)
         "2024-01-01" = Ret r
       /\ F64.isFinite (monthlyEMI r) = false
       /\ repaymentSchedule r = [].
Proof.
  split; [ exact powRef_zero_exponent | ].
  apply (zero_term_non_finite F64.powRef JSDate.utcHost (F64.ofZ 120000) (F64.ofZ 6)
           "2024-01-01"); exact powRef_zero_exponent.
Defined.

Lemma row_date_from_start_date_witness :
  loopBound (Number := refDouble) (F64.ofZ 12) = Some 12%nat
  /\ datesValid JSDate.utcHost "2024-01-31" 12 = true
  /\ exists r : LoanResult F64.number,
       calculateLoanDetails (N := refDouble) JSDate.utcHost (F64.ofZ 120000)
         (F64.ofFraction 6 100) (F64.ofZ 12) "2024-01-31" = Ret r
       /\ (forall i, (i < 12)%nat ->
             exists (row : Row) (iso : string),
               nth_error (repaymentSchedule r) i = Some row
               /\ (let fresh := JSDate.newDate JSDate.utcHost "2024-01-31" in
                   JSDate.toISOString
                     (JSDate.setMonth JSDate.utcHost fresh
                        (option_map (fun m => m + Z.of_nat i)
                           (JSDate.getMonth JSDate.utcHost fresh))) = Ret iso)
               /\ date row = JSDate.split_T_0 iso)
       /\ (forall y m d : Z,
             (forall t b, JSDate.LocalTZA JSDate.utcHost t b = 0) ->
             JSDate.Date_parse JSDate.utcHost "2024-01-31"
             = Some (JSDate.MakeDate (JSDate.MakeDay y m d) 0) ->
             0 <= m <= 11 ->
             1 <= d <= JSDate.daysInMonth (JSDate.isLeap y) m ->
             forall i, (i < 12)%nat ->
               let y' := y + (m + Z.of_nat i) / 12 in
               let m' := (m + Z.of_nat i) mod 12 in
               d <= JSDate.daysInMonth (JSDate.isLeap y') m' ->
               exists row : Row,
                 nth_error (repaymentSchedule r) i = Some row
                 /\ date row = JSDate.isoDate y' m' d).
Proof.
  split; [ vm_compute; reflexivity | ].
  split; [ vm_compute; reflexivity | ].
  apply (row_date_from_start_date (N := refDouble) JSDate.utcHost (F64.ofZ 120000)
           (F64.ofFraction 6 100) (F64.ofZ 12) "2024-01-31" 12);
    vm_compute; reflexivity.
Defined.

(** ** More of the calendar: months run into each other

    [MakeDay] is linear in the day of the month, and moving one month
    on adds the length of the month left behind; a time value is
    rebuilt from the year, month and day read off it. *)

Section MonthArithmetic.

Import JSDate.

Lemma daysInMonth_range (leap : bool) (m : Z) :
  0 <= m <= 11 -> 28 <= daysInMonth leap m <= 31.
Proof.
  intros Hm.
  assert (Hc : m = 0 \/ m = 1 \/ m = 2 \/ m = 3 \/ m = 4 \/ m = 5 \/ m = 6
               \/ m = 7 \/ m = 8 \/ m = 9 \/ m = 10 \/ m = 11) by lia.
  destruct leap;
    repeat (destruct Hc as [-> | Hc]; [ vm_compute; split; discriminate | ]);
    subst m; vm_compute; split; discriminate.
Qed.

Lemma MakeDay_shift (y m d e : Z) : MakeDay y m (d + e) = MakeDay y m d + e.
Proof. unfold MakeDay. lia. Qed.

Lemma daysBeforeMonth_12 (leap : bool) :
  daysBeforeMonth leap 12 = if leap then 366 else 365.
Proof. destruct leap; reflexivity. Qed.

(** One month on: the days of the month left behind are added. *)
Lemma MakeDay_next_month (y k d : Z) :
  MakeDay y (k + 1) d
  = MakeDay y k d + daysInMonth (isLeap (y + k / 12)) (k mod 12).
Proof.
  pose proof (Z.mod_pos_bound k 12 ltac:(lia)) as Hb.
  destruct (Z.eq_dec (k mod 12) 11) as [H11 | H11].
  - assert (Hq : (k + 1) / 12 = k / 12 + 1)
      by (Z.to_euclidean_division_equations; lia).
    assert (Hr : (k + 1) mod 12 = 0)
      by (Z.to_euclidean_division_equations; lia).
    unfold MakeDay. rewrite Hq, Hr, H11.
    replace (y + (k / 12 + 1)) with (y + k / 12 + 1) by lia.
    rewrite DayFromYear_succ. unfold daysInMonth, DaysInYear.
    change (11 + 1) with 12. rewrite daysBeforeMonth_12.
    change (daysBeforeMonth (isLeap (y + k / 12 + 1)) 0) with 0. lia.
  - assert (Hq : (k + 1) / 12 = k / 12)
      by (Z.to_euclidean_division_equations; lia).
    assert (Hr : (k + 1) mod 12 = k mod 12 + 1)
      by (Z.to_euclidean_division_equations; lia).
    unfold MakeDay, daysInMonth. rewrite Hq, Hr. lia.
Qed.

Lemma monthOfDay_range (leap : bool) (d : Z) :
  forall (fuel : nat) (m : Z),
    m <= monthOfDay leap fuel m d <= m + Z.of_nat fuel.
Proof.
  induction fuel as [ | fuel IH]; intros m.
  - cbn [monthOfDay]. lia.
  - cbn [monthOfDay].
    destruct (d <? daysBeforeMonth leap (m + 1)); [ lia | ].
    specialize (IH (m + 1)). lia.
Qed.

Lemma MonthFromTime_range (t : Z) : 0 <= MonthFromTime t <= 11.
Proof.
  unfold MonthFromTime.
  pose proof (monthOfDay_range (isLeap (YearFromTime t)) (DayWithinYear t) 11 0).
  lia.
Qed.

(** The day number of a time value is rebuilt from the year, month and
    day read off it. *)
Lemma MakeDay_of_civil (t : Z) :
  MakeDay (YearFromTime t) (MonthFromTime t) (DateFromTime t) = Day t.
Proof.
  pose proof (MonthFromTime_range t) as Hm.
  unfold MakeDay.
  rewrite (Z.div_small (MonthFromTime t) 12), (Z.mod_small (MonthFromTime t) 12) by lia.
  rewrite Z.add_0_r. unfold DateFromTime, DayWithinYear. lia.
Qed.

Lemma MakeDate_of_parts (t : Z) : MakeDate (Day t) (TimeWithinDay t) = t.
Proof.
  unfold MakeDate, Day, TimeWithinDay, msPerDay.
  Z.to_euclidean_division_equations. lia.
Qed.

(** Year, month and day of a time value depend on its day number only. *)
Lemma civil_of_Day (t u : Z) :
  Day t = Day u ->
  YearFromTime t = YearFromTime u /\ MonthFromTime t = MonthFromTime u
  /\ DateFromTime t = DateFromTime u.
Proof.
  intros H.
  assert (Hy : YearFromTime t = YearFromTime u)
    by (unfold YearFromTime; rewrite H; reflexivity).
  assert (Hw : DayWithinYear t = DayWithinYear u)
    by (unfold DayWithinYear; rewrite H, Hy; reflexivity).
  assert (Hm : MonthFromTime t = MonthFromTime u)
    by (unfold MonthFromTime; rewrite Hy, Hw; reflexivity).
  split; [ exact Hy | ]. split; [ exact Hm | ].
  unfold DateFromTime. rewrite Hy, Hw, Hm. reflexivity.
Qed.

Lemma TimeClip_idempotent (t u : Z) : TimeClip t = Some u -> TimeClip u = Some u.
Proof. intros H. pose proof (TimeClip_Some t u H). subst u. exact H. Qed.

(** The [Date] of a period in a zone at a fixed offset from UTC. *)
Lemma periodDate_fixed_offset (host : Host) (startDate : string) (off t0 i : Z) :
  (forall t b, LocalTZA host t b = off) ->
  newDate host startDate = Some t0 ->
  periodDate host startDate i
  = TimeClip
      (MakeDate
         (MakeDay (YearFromTime (t0 + off)) (MonthFromTime (t0 + off) + i)
            (DateFromTime (t0 + off)))
         (TimeWithinDay (t0 + off)) - off).
Proof.
  intros Htz Hnew. unfold periodDate. rewrite Hnew.
  cbn [getMonth option_map setMonth]. unfold LocalTime, UTC.
  rewrite !Htz. reflexivity.
Qed.

End MonthArithmetic.

(** ** The dates of the rows, host by host *)

Section ScheduleDates.

Context {num : Type} {N : Number num}.

Import JSDate.

(** What a returning run of the engine hands back, row by row. *)
Lemma engine_rows (host : Host) (loanAmount interestRate loanDuration : num)
    (startDate : string) (n : nat) :
  loopBound loanDuration = Some n ->
  datesValid host startDate n = true ->
  exists r : LoanResult num,
    calculateLoanDetails host loanAmount interestRate loanDuration startDate = Ret r
    /\ List.length (repaymentSchedule r) = n
    /\ forall i, (i < n)%nat ->
         nth_error (repaymentSchedule r) i
         = Some (Spec.periodRow host loanAmount (monthlyEMI r)
                   (num_div interestRate (ofZ 12)) startDate i).
Proof.
  intros Hn Hd. unfold calculateLoanDetails.
  rewrite (generateRepaymentScheduleArray_run host _ _ _ _ _ n Hn Hd).
  cbn [bind]. eexists. split; [ reflexivity | ].
  cbn [repaymentSchedule monthlyEMI]. unfold Spec.schedule. split.
  - rewrite length_map, length_seq. reflexivity.
  - intros i Hi. rewrite nth_error_map, nth_error_seq.
    destruct (Nat.ltb_spec i n) as [_ | Hge]; [ reflexivity | lia ].
Qed.

Lemma datesValid_at (host : Host) (startDate : string) (n i : nat) :
  datesValid host startDate n = true -> (i < n)%nat ->
  exists t, periodDate host startDate (Z.of_nat i) = Some t.
Proof.
  intros Hd Hi. unfold datesValid in Hd. rewrite forallb_forall in Hd.
  specialize (Hd i ltac:(apply in_seq; lia)). unfold dateValid in Hd.
  destruct (periodDate host startDate (Z.of_nat i)) as [t | ];
    [ exists t; reflexivity | discriminate Hd ].
Qed.

(** The text of a row's date: year, month and day of the period's
    time value. *)
Lemma dateText_of_time (host : Host) (startDate : string) (i : nat) (t : Z) :
  periodDate host startDate (Z.of_nat i) = Some t ->
  Spec.dateText host startDate i
  = isoDate (YearFromTime t) (MonthFromTime t) (DateFromTime t).
Proof.
  intros Ht. unfold Spec.dateText. rewrite Ht.
  destruct (isoDate_text t) as (iso & Hiso & Htext).
  rewrite Hiso. exact Htext.
Qed.

(** The text of midnight of day [dt] of a month, the day being one
    the month has. *)
Lemma dateText_of_day (host : Host) (startDate : string) (i : nat) (y k dt w : Z) :
  periodDate host startDate (Z.of_nat i)
  = Some (MakeDate (MakeDay y k dt) w) ->
  0 <= w < msPerDay ->
  1 <= dt <= daysInMonth (isLeap (y + k / 12)) (k mod 12) ->
  Spec.dateText host startDate i = isoDate (y + k / 12) (k mod 12) dt.
Proof.
  intros Ht Hw Hdt.
  rewrite (dateText_of_time host startDate i _ Ht).
  rewrite (MakeDay_reduce y k dt).
  pose proof (Z.mod_pos_bound k 12 ltac:(lia)) as Hk.
  destruct (civil_roundtrip (y + k / 12) (k mod 12) dt w ltac:(lia) Hdt Hw)
    as (Hy1 & Hm1 & Hd1 & _).
  rewrite Hy1, Hm1, Hd1. reflexivity.
Qed.

(** The [Date] of a period in any zone. *)
Lemma periodDate_any_host (host : Host) (startDate : string) (t0 i : Z) :
  newDate host startDate = Some t0 ->
  periodDate host startDate i
  = TimeClip
      (UTC host
         (MakeDate
            (MakeDay (YearFromTime (LocalTime host t0))
               (MonthFromTime (LocalTime host t0) + i)
               (DateFromTime (LocalTime host t0)))
            (TimeWithinDay (LocalTime host t0)))).
Proof. intros Hnew. unfold periodDate. rewrite Hnew. reflexivity. Qed.

Lemma newDate_of_valid (host : Host) (startDate : string) (i t t0 : Z) :
  periodDate host startDate i = Some t ->
  Date_parse host startDate = Some t0 ->
  newDate host startDate = Some t0.
Proof.
  intros Ht Hparse. unfold newDate. rewrite Hparse.
  destruct (TimeClip t0) as [u | ] eqn:Hu.
  - apply TimeClip_Some in Hu. subst u. reflexivity.
  - exfalso. revert Ht. unfold periodDate, newDate. rewrite Hparse, Hu.
    discriminate.
Qed.

End ScheduleDates.

Section FixedOffset.

Import JSDate.

Lemma MakeDate_local (day w off : Z) :
  MakeDate day w - off = MakeDate day (w - off).
Proof. unfold MakeDate. lia. Qed.

Lemma MakeDay_month_split (y a i d : Z) :
  MakeDay (y + a / 12) (a mod 12 + i) d = MakeDay y (a + i) d.
Proof.
  assert (Hq : y + a / 12 + (a mod 12 + i) / 12 = y + (a + i) / 12)
    by (Z.to_euclidean_division_equations; lia).
  assert (Hr : (a mod 12 + i) mod 12 = (a + i) mod 12)
    by (Z.to_euclidean_division_equations; lia).
  unfold MakeDay. rewrite Hq, Hr. reflexivity.
Qed.

(** In a zone at a fixed offset of less than a day, the period dates
    are those of UTC, except west of Greenwich for a start on the
    first of a month. *)
Lemma periodDate_fixed_offset_day (host : Host) (startDate : string)
    (off y m d : Z) (i : Z) :
  (forall t b, LocalTZA host t b = off) ->
  Date_parse host startDate = Some (MakeDate (MakeDay y m d) 0) ->
  - msPerDay <= off < msPerDay ->
  0 <= m <= 11 ->
  1 <= d <= daysInMonth (isLeap y) m ->
  (off < 0 -> 2 <= d) ->
  periodDate host startDate i
  = match TimeClip (MakeDate (MakeDay y m d) 0) with
    | Some _ => TimeClip (MakeDate (MakeDay y (m + i) d) 0)
    | None => None
    end.
Proof.
  intros Htz Hparse Hoff Hm Hd Hwest.
  destruct (TimeClip (MakeDate (MakeDay y m d) 0)) as [t0 | ] eqn:Ht0.
  - assert (Hnew : newDate host startDate = Some t0)
      by (unfold newDate; rewrite Hparse; exact Ht0).
    rewrite (periodDate_fixed_offset host startDate off t0 i Htz Hnew).
    apply TimeClip_Some in Ht0. subst t0. f_equal.
    destruct (Z_lt_le_dec off 0) as [Hneg | Hpos].
    + specialize (Hwest Hneg).
      assert (Hlocal : MakeDate (MakeDay y m d) 0 + off
                       = MakeDate (MakeDay y m (d - 1)) (msPerDay + off)).
      { replace d with (d - 1 + 1) at 1 by lia. rewrite MakeDay_shift.
        unfold MakeDate. lia. }
      rewrite Hlocal.
      destruct (civil_roundtrip y m (d - 1) (msPerDay + off) Hm ltac:(lia) ltac:(lia))
        as (Hy1 & Hm1 & Hd1 & Hw1).
      rewrite Hy1, Hm1, Hd1, Hw1.
      replace d with (d - 1 + 1) at 2 by lia. rewrite MakeDay_shift.
      unfold MakeDate. lia.
    + assert (Hlocal : MakeDate (MakeDay y m d) 0 + off = MakeDate (MakeDay y m d) off)
        by (unfold MakeDate; lia).
      rewrite Hlocal.
      destruct (civil_roundtrip y m d off Hm Hd ltac:(lia)) as (Hy1 & Hm1 & Hd1 & Hw1).
      rewrite Hy1, Hm1, Hd1, Hw1. unfold MakeDate. lia.
  - unfold periodDate, newDate. rewrite Hparse, Ht0. reflexivity.
Qed.

End FixedOffset.

Section HostsCompared.

Context {num : Type} {N : Number num}.
Variables host host' : JSDate.Host.
Variable startDate : string.
Hypothesis same_dates :
  forall i, periodDate host startDate i = periodDate host' startDate i.

Lemma loopBody_same (monthlyEMI interestRate : num) (i : Z) (st : num * list Row) :
  loopBody host monthlyEMI startDate interestRate i st
  = loopBody host' monthlyEMI startDate interestRate i st.
Proof. unfold loopBody. rewrite same_dates. reflexivity. Qed.

Lemma forLoop_same (monthlyEMI interestRate : num) :
  forall (k : nat) (i : Z) (st : num * list Row),
    forLoop host monthlyEMI startDate interestRate k i st
    = forLoop host' monthlyEMI startDate interestRate k i st.
Proof.
  induction k as [ | k IH]; intros i st; [ reflexivity | ].
  cbn [forLoop]. rewrite loopBody_same.
  destruct (loopBody host' monthlyEMI startDate interestRate i st); cbn [bind];
    [ apply IH | reflexivity | reflexivity ].
Qed.

Lemma dateFails_same (depth : nat) :
  forall i : Z,
    dateFails host startDate depth i = dateFails host' startDate depth i.
Proof.
  induction depth as [ | depth IH]; intros i; cbn [dateFails].
  - rewrite same_dates. reflexivity.
  - rewrite !IH. reflexivity.
Qed.

Lemma unboundedLoop_same :
  unboundedLoop (num := num) host startDate
  = unboundedLoop (num := num) host' startDate.
Proof. unfold unboundedLoop. rewrite dateFails_same, same_dates. reflexivity. Qed.

Lemma calculateLoanDetails_same (loanAmount interestRate loanDuration : num) :
  calculateLoanDetails host loanAmount interestRate loanDuration startDate
  = calculateLoanDetails host' loanAmount interestRate loanDuration startDate.
Proof.
  unfold calculateLoanDetails, generateRepaymentScheduleArray, scheduleRun.
  destruct (loopBound loanDuration); [ | rewrite unboundedLoop_same; reflexivity ].
  rewrite forLoop_same. reflexivity.
Qed.

Lemma calculateLoan_same (loan_amount interest_rate loan_duration : num) :
  calculateLoan host loan_amount interest_rate loan_duration startDate
  = calculateLoan host' loan_amount interest_rate loan_duration startDate.
Proof. unfold calculateLoan. rewrite calculateLoanDetails_same. reflexivity. Qed.

End HostsCompared.

Section DateText.

Import JSDate.

Lemma digit_of_digitValue (c : ascii) (v : Z) :
  digitValue c = Some v -> digit v = c /\ 0 <= v <= 9.
Proof.
  intros H. pose proof (digitValue_bound c v H) as Hb. split; [ | exact Hb ].
  unfold digitValue in H.
  destruct ((48 <=? Z.of_nat (nat_of_ascii c)) && (Z.of_nat (nat_of_ascii c) <=? 57))
    eqn:Hc; [ | discriminate H ].
  injection H as <-.
  unfold digit. rewrite Z.mod_small by lia.
  replace (48 + Z.to_nat (Z.of_nat (nat_of_ascii c) - 48))%nat with (nat_of_ascii c)
    by lia.
  apply ascii_nat_embedding.
Qed.

Lemma Some_eq {A : Type} (a b : A) : Some a = Some b -> a = b.
Proof. congruence. Qed.

Lemma digits_cons (c : ascii) (l : list ascii) (acc : Z) :
  digits (c :: l) acc
  = match digitValue c with
    | Some v => digits l (10 * acc + v)
    | None => None
    end.
Proof. reflexivity. Qed.

Lemma pad_two_digits (a b : ascii) (v : Z) :
  digits [a; b] 0 = Some v -> pad 2 v "" = String a (String b "").
Proof.
  rewrite digits_cons.
  destruct (digitValue a) as [va | ] eqn:Ha; [ | discriminate ].
  rewrite digits_cons.
  destruct (digitValue b) as [vb | ] eqn:Hb; [ | discriminate ].
  intros H. apply (Some_eq (10 * (10 * 0 + va) + vb) v) in H.
  apply digit_of_digitValue in Ha. destruct Ha as [Ha Hra].
  apply digit_of_digitValue in Hb. destruct Hb as [Hb Hrb].
  cbn [pad]. unfold digit in *.
  replace (v mod 10) with (vb mod 10)
    by (Z.to_euclidean_division_equations; lia).
  replace (v / 10 mod 10) with (va mod 10)
    by (Z.to_euclidean_division_equations; lia).
  rewrite Ha, Hb. reflexivity.
Qed.

Lemma pad_four_digits (a b c e : ascii) (v : Z) :
  digits [a; b; c; e] 0 = Some v ->
  pad 4 v "" = String a (String b (String c (String e ""))) /\ 0 <= v <= 9999.
Proof.
  rewrite digits_cons.
  destruct (digitValue a) as [va | ] eqn:Ha; [ | discriminate ].
  rewrite digits_cons.
  destruct (digitValue b) as [vb | ] eqn:Hb; [ | discriminate ].
  rewrite digits_cons.
  destruct (digitValue c) as [vc | ] eqn:Hc; [ | discriminate ].
  rewrite digits_cons.
  destruct (digitValue e) as [ve | ] eqn:He; [ | discriminate ].
  intros H.
  apply (Some_eq (10 * (10 * (10 * (10 * 0 + va) + vb) + vc) + ve) v) in H.
  apply digit_of_digitValue in Ha. destruct Ha as [Ha Hra].
  apply digit_of_digitValue in Hb. destruct Hb as [Hb Hrb].
  apply digit_of_digitValue in Hc. destruct Hc as [Hc Hrc].
  apply digit_of_digitValue in He. destruct He as [He Hre].
  split; [ | lia ].
  cbn [pad]. unfold digit in *.
  replace (v mod 10) with (ve mod 10)
    by (Z.to_euclidean_division_equations; lia).
  replace (v / 10 mod 10) with (vc mod 10)
    by (Z.to_euclidean_division_equations; lia).
  replace (v / 10 / 10 mod 10) with (vb mod 10)
    by (Z.to_euclidean_division_equations; lia).
  replace (v / 10 / 10 / 10 mod 10) with (va mod 10)
    by (Z.to_euclidean_division_equations; lia).
  rewrite Ha, Hb, Hc, He. reflexivity.
Qed.

(** A string the reference parser accepts is the text of the date it
    is read as. *)
Lemma parseISODate_text (s : string) (t : Z) :
  parseISODate s = Some t ->
  exists y m d,
    t = MakeDate (MakeDay y m d) 0
    /\ 0 <= y <= 9999 /\ 0 <= m <= 11
    /\ 1 <= d <= daysInMonth (isLeap y) m
    /\ isoDate y m d = s.
Proof.
  unfold parseISODate.
  assert (Hs : s = string_of_list_ascii (list_ascii_of_string s))
    by (symmetry; apply string_of_list_ascii_of_string).
  revert Hs.
  destruct (list_ascii_of_string s)
    as [ | y1 [ | y2 [ | y3 [ | y4 [ | d1 [ | m1 [ | m2 [ | d2 [ | dd1 [ | dd2 [ | ? ?]]]]]]]]]]];
    intros Hs; try discriminate.
  destruct (Ascii.eqb_spec d1 "-") as [-> | ]; [ | discriminate ].
  destruct (Ascii.eqb_spec d2 "-") as [-> | ]; [ | discriminate ].
  cbn [andb].
  destruct (digits [y1; y2; y3; y4] 0) as [y | ] eqn:Hy; [ | discriminate ].
  destruct (digits [m1; m2] 0) as [m | ] eqn:Hm; [ | discriminate ].
  destruct (digits [dd1; dd2] 0) as [d | ] eqn:Hd; [ | discriminate ].
  destruct ((1 <=? m) && (m <=? 12) && (1 <=? d)
            && (d <=? daysInMonth (isLeap y) (m - 1))) eqn:Hc; [ | discriminate ].
  intros Ht. injection Ht as <-.
  apply andb_prop in Hc. destruct Hc as [Hc Hc4].
  apply andb_prop in Hc. destruct Hc as [Hc Hc3].
  apply andb_prop in Hc. destruct Hc as [Hc1 Hc2].
  apply Z.leb_le in Hc1, Hc2, Hc3, Hc4.
  apply pad_four_digits in Hy. destruct Hy as [Hy Hyr].
  apply pad_two_digits in Hm. apply pad_two_digits in Hd.
  exists y, (m - 1), d. repeat split; try lia.
  unfold isoDate, isoYear.
  destruct (Z.leb_spec 0 y); [ | lia ]. destruct (Z.leb_spec y 9999); [ | lia ].
  cbn [andb]. replace (m - 1 + 1) with m by lia.
  rewrite Hy, Hm, Hd, Hs. reflexivity.
Qed.

End DateText.

(** ** Properties of the schedule's dates *)

Section DateProperties.

Context {num : Type} {N : Number num}.

Import JSDate.

(** A start day the month reached does not have runs over into the
    month after it: without a time zone offset, a start on day [d]
    gives a period whose month has only [len < d] days the day
    [d - len] of the following month. *)
Theorem day_past_month_end_runs_over (host : Host)
    (loanAmount interestRate loanDuration : num) (startDate : string) (n : nat)
    (y m d : Z) :
  loopBound loanDuration = Some n ->
  datesValid host startDate n = true ->
  (forall t b, LocalTZA host t b = 0) ->
  Date_parse host startDate = Some (MakeDate (MakeDay y m d) 0) ->
  0 <= m <= 11 ->
  1 <= d <= daysInMonth (isLeap y) m ->
  exists r : LoanResult num,
    calculateLoanDetails host loanAmount interestRate loanDuration startDate = Ret r
    /\ forall i, (i < n)%nat ->
         let k := m + Z.of_nat i in
         let len := daysInMonth (isLeap (y + k / 12)) (k mod 12) in
         len < d ->
         exists row : Row,
           nth_error (repaymentSchedule r) i = Some row
           /\ date row = isoDate (y + (k + 1) / 12) ((k + 1) mod 12) (d - len).
Proof.
  intros Hn Hv Htz Hparse Hm Hd.
  destruct (engine_rows host loanAmount interestRate loanDuration startDate n Hn Hv)
    as (r & Hrun & _ & Hrows).
  exists r. split; [ exact Hrun | ].
  intros i Hi k len Hlen.
  eexists. split; [ exact (Hrows i Hi) | ].
  cbn [date Spec.periodRow].
  destruct (datesValid_at host startDate n i Hv Hi) as (t & Ht).
  pose proof (periodDate_no_offset host startDate y m d (Z.of_nat i) Htz Hparse Hm Hd)
    as Hp.
  rewrite Ht in Hp.
  destruct (TimeClip (MakeDate (MakeDay y m d) 0)); [ | discriminate Hp ].
  symmetry in Hp. apply TimeClip_Some in Hp. fold k in Hp.
  pose proof (Z.mod_pos_bound k 12 ltac:(lia)) as Hk.
  pose proof (Z.mod_pos_bound (k + 1) 12 ltac:(lia)) as Hk1.
  pose proof (daysInMonth_range (isLeap y) m Hm) as Hr0.
  pose proof (daysInMonth_range (isLeap (y + k / 12)) (k mod 12) ltac:(lia)) as Hr1.
  pose proof (daysInMonth_range (isLeap (y + (k + 1) / 12)) ((k + 1) mod 12) ltac:(lia)) as Hr2.
  fold len in Hr1.
  assert (Hnext : MakeDay y k d = MakeDay y (k + 1) (d - len)).
  { rewrite MakeDay_next_month. fold len.
    replace d with (d - len + len) at 1 by lia. apply MakeDay_shift. }
  rewrite Hnext in Hp. subst t.
  apply (dateText_of_day host startDate i y (k + 1) (d - len) 0 Ht); unfold msPerDay; lia.
Qed.

(** In a zone at a fixed offset of less than a day the engine gives
    what it gives in UTC: the same record, the same page.  West of
    Greenwich this needs a start date that is not the first of a
    month. *)
Theorem fixed_offset_as_utc (host host' : Host)
    (loanAmount interestRate loanDuration : num) (startDate : string)
    (off y m d : Z) :
  (forall t b, LocalTZA host t b = off) ->
  (forall t b, LocalTZA host' t b = 0) ->
  Date_parse host startDate = Some (MakeDate (MakeDay y m d) 0) ->
  Date_parse host' startDate = Some (MakeDate (MakeDay y m d) 0) ->
  - msPerDay <= off < msPerDay ->
  0 <= m <= 11 ->
  1 <= d <= daysInMonth (isLeap y) m ->
  (off < 0 -> 2 <= d) ->
  calculateLoanDetails host loanAmount interestRate loanDuration startDate
  = calculateLoanDetails host' loanAmount interestRate loanDuration startDate
  /\ forall loan_amount interest_rate loan_duration : num,
       calculateLoan host loan_amount interest_rate loan_duration startDate
       = calculateLoan host' loan_amount interest_rate loan_duration startDate.
Proof.
  intros Htz Htz' Hparse Hparse' Hoff Hm Hd Hwest.
  assert (Hsame : forall i, periodDate host startDate i = periodDate host' startDate i).
  { intros i.
    rewrite (periodDate_fixed_offset_day host startDate off y m d i Htz Hparse Hoff Hm Hd
               Hwest).
    rewrite (periodDate_no_offset host' startDate y m d i Htz' Hparse' Hm Hd).
    reflexivity. }
  split.
  - apply calculateLoanDetails_same. exact Hsame.
  - intros. apply calculateLoan_same. exact Hsame.
Qed.

(** West of Greenwich, at a fixed offset of up to a day, a start on
    the first of a month is the last day [L] of the month before in
    local time.  Period [i] then shows day [L + 1] counted from the
    month before the one expected: the first of the expected month
    when the month before it has [L] days too, a later day of the
    expected month when that month is shorter, and day [L + 1] of the
    month before when it is longer. *)
Theorem west_of_greenwich_first_of_month (host : Host)
    (loanAmount interestRate loanDuration : num) (startDate : string) (n : nat)
    (off y m : Z) :
  loopBound loanDuration = Some n ->
  datesValid host startDate n = true ->
  (forall t b, LocalTZA host t b = off) ->
  Date_parse host startDate = Some (MakeDate (MakeDay y m 1) 0) ->
  - msPerDay <= off < 0 ->
  0 <= m <= 11 ->
  exists r : LoanResult num,
    calculateLoanDetails host loanAmount interestRate loanDuration startDate = Ret r
    /\ forall i, (i < n)%nat ->
         let L := daysInMonth (isLeap (y + (m - 1) / 12)) ((m - 1) mod 12) in
         let k := m - 1 + Z.of_nat i in
         let len := daysInMonth (isLeap (y + k / 12)) (k mod 12) in
         exists row : Row,
           nth_error (repaymentSchedule r) i = Some row
           /\ date row
              = if L <? len
                then isoDate (y + k / 12) (k mod 12) (L + 1)
                else isoDate (y + (k + 1) / 12) ((k + 1) mod 12) (L + 1 - len).
Proof.
  intros Hn Hv Htz Hparse Hoff Hm.
  destruct (engine_rows host loanAmount interestRate loanDuration startDate n Hn Hv)
    as (r & Hrun & _ & Hrows).
  exists r. split; [ exact Hrun | ].
  intros i Hi L k len.
  eexists. split; [ exact (Hrows i Hi) | ].
  cbn [date Spec.periodRow].
  destruct (datesValid_at host startDate n i Hv Hi) as (t & Ht).
  pose proof (Z.mod_pos_bound (m - 1) 12 ltac:(lia)) as Hp1.
  pose proof (Z.mod_pos_bound k 12 ltac:(lia)) as Hk.
  pose proof (Z.mod_pos_bound (k + 1) 12 ltac:(lia)) as Hk1.
  pose proof (daysInMonth_range (isLeap (y + (m - 1) / 12)) ((m - 1) mod 12) ltac:(lia)) as HL.
  pose proof (daysInMonth_range (isLeap (y + k / 12)) (k mod 12) ltac:(lia)) as Hlen.
  pose proof (daysInMonth_range (isLeap (y + (k + 1) / 12)) ((k + 1) mod 12) ltac:(lia)) as Hnx.
  fold L in HL. fold len in Hlen.
  pose proof (newDate_of_valid host startDate _ _ _ Ht Hparse) as Hnew.
  (* the start date in local time: the last day of the month before *)
  assert (Hlocal : MakeDate (MakeDay y m 1) 0 + off
                   = MakeDate (MakeDay (y + (m - 1) / 12) ((m - 1) mod 12) L)
                       (msPerDay + off)).
  { rewrite <- (MakeDay_reduce y (m - 1) L).
    replace m with (m - 1 + 1) at 1 by lia.
    rewrite MakeDay_next_month. fold L.
    replace L with (0 + L) at 2 by lia. rewrite MakeDay_shift.
    replace 1 with (0 + 1) at 2 by lia. rewrite MakeDay_shift.
    unfold MakeDate. lia. }
  assert (Hper : periodDate host startDate (Z.of_nat i)
                 = TimeClip (MakeDate (MakeDay y k (L + 1)) 0)).
  { rewrite (periodDate_fixed_offset host startDate off _ (Z.of_nat i) Htz Hnew).
    rewrite Hlocal.
    destruct (civil_roundtrip (y + (m - 1) / 12) ((m - 1) mod 12) L (msPerDay + off)
                ltac:(lia) ltac:(fold L; lia) ltac:(lia)) as (Hy1 & Hm1 & Hd1 & Hw1).
    rewrite Hy1, Hm1, Hd1, Hw1, MakeDay_month_split. fold k.
    f_equal. rewrite MakeDay_shift. unfold MakeDate. lia. }
  rewrite Ht in Hper. symmetry in Hper. apply TimeClip_Some in Hper. subst t.
  rename Ht into Hper.
  destruct (Z.ltb_spec L len) as [Hlt | Hge].
  - apply (dateText_of_day host startDate i y k (L + 1) 0 Hper);
      [ unfold msPerDay; lia | fold len; lia ].
  - assert (Hnext : MakeDay y k (L + 1) = MakeDay y (k + 1) (L + 1 - len)).
    { rewrite MakeDay_next_month. fold len.
      replace (L + 1) with (L + 1 - len + len) at 1 by lia. apply MakeDay_shift. }
    rewrite Hnext in Hper.
    apply (dateText_of_day host startDate i y (k + 1) (L + 1 - len) 0 Hper);
      [ unfold msPerDay; lia | lia ].
Qed.

End DateProperties.

Section MoreDateProperties.

Context {num : Type} {N : Number num}.

Import JSDate.

(** The first row shows the start date itself, in every zone that
    maps the local time of the start date back to the offset it was
    made with; for an ISO date the reference parser accepts, the
    first row's date is the start date string. *)
Theorem first_row_shows_start_date (host : Host)
    (loanAmount interestRate loanDuration : num) (startDate : string) (n : nat)
    (y m d : Z) :
  loopBound loanDuration = Some (S n) ->
  datesValid host startDate (S n) = true ->
  Date_parse host startDate = Some (MakeDate (MakeDay y m d) 0) ->
  0 <= m <= 11 ->
  1 <= d <= daysInMonth (isLeap y) m ->
  (let t0 := MakeDate (MakeDay y m d) 0 in
   LocalTZA host (t0 + LocalTZA host t0 true) false = LocalTZA host t0 true) ->
  exists (r : LoanResult num) (row : Row),
    calculateLoanDetails host loanAmount interestRate loanDuration startDate = Ret r
    /\ nth_error (repaymentSchedule r) 0 = Some row
    /\ date row = isoDate y m d
    /\ (parseISODate startDate = Date_parse host startDate -> date row = startDate).
Proof.
  intros Hn Hv Hparse Hm Hd Hback. cbv zeta in Hback.
  destruct (engine_rows host loanAmount interestRate loanDuration startDate (S n) Hn Hv)
    as (r & Hrun & _ & Hrows).
  exists r. eexists. split; [ exact Hrun | ].
  split; [ exact (Hrows O ltac:(lia)) | ].
  cbn [date Spec.periodRow].
  destruct (datesValid_at host startDate (S n) 0 Hv ltac:(lia)) as (t & Ht).
  set (t0 := MakeDate (MakeDay y m d) 0) in *.
  assert (Hclip : TimeClip t0 = Some t0).
  { unfold periodDate, newDate in Ht. rewrite Hparse in Ht.
    destruct (TimeClip t0) as [u | ] eqn:Hu; [ | discriminate Ht ].
    apply TimeClip_Some in Hu. subst u. reflexivity. }
  assert (Hzero : periodDate host startDate (Z.of_nat 0) = Some t0).
  { unfold periodDate, newDate. rewrite Hparse, Hclip.
    cbn [getMonth option_map setMonth]. unfold LocalTime, UTC.
    set (tl := t0 + LocalTZA host t0 true) in *.
    change (Z.of_nat 0) with 0. rewrite Z.add_0_r.
    rewrite MakeDay_of_civil, MakeDate_of_parts, Hback.
    replace (tl - LocalTZA host t0 true) with t0 by (unfold tl; lia).
    exact Hclip. }
  assert (Htext : Spec.dateText host startDate 0 = isoDate y m d).
  { rewrite (dateText_of_time host startDate 0 t0 Hzero).
    destruct (civil_roundtrip y m d 0 Hm Hd ltac:(unfold msPerDay; lia))
      as (Hy1 & Hm1 & Hd1 & _).
    fold t0 in Hy1, Hm1, Hd1. rewrite Hy1, Hm1, Hd1. reflexivity. }
  split; [ exact Htext | ].
  intros Hiso. rewrite Hparse in Hiso.
  destruct (parseISODate_text startDate _ Hiso)
    as (y' & m' & d' & Ht' & _ & Hm' & Hd' & Hs).
  destruct (civil_roundtrip y m d 0 Hm Hd ltac:(unfold msPerDay; lia))
    as (Hy1 & Hm1 & Hd1 & _).
  destruct (civil_roundtrip y' m' d' 0 Hm' Hd' ltac:(unfold msPerDay; lia))
    as (Hy2 & Hm2 & Hd2 & _).
  cbv zeta in Hy1, Hm1, Hd1, Hy2, Hm2, Hd2.
  rewrite <- Ht' in Hy2, Hm2, Hd2. subst t0.
  rewrite Htext, <- Hs, <- Hy2, <- Hm2, <- Hd2, Hy1, Hm1, Hd1. reflexivity.
Qed.

(** In a zone at a fixed offset, whatever it is, the dates of
    consecutive rows are those of two time values one calendar month,
    28 to 31 days, apart: the rows are in strict chronological order. *)
Theorem consecutive_rows_a_month_apart (host : Host)
    (loanAmount interestRate loanDuration : num) (startDate : string) (n : nat)
    (off : Z) :
  loopBound loanDuration = Some n ->
  datesValid host startDate n = true ->
  (forall t b, LocalTZA host t b = off) ->
  exists r : LoanResult num,
    calculateLoanDetails host loanAmount interestRate loanDuration startDate = Ret r
    /\ forall i, (S i < n)%nat ->
         exists (row row' : Row) (t t' : Z),
           nth_error (repaymentSchedule r) i = Some row
           /\ nth_error (repaymentSchedule r) (S i) = Some row'
           /\ periodDate host startDate (Z.of_nat i) = Some t
           /\ periodDate host startDate (Z.of_nat (S i)) = Some t'
           /\ date row = isoDate (YearFromTime t) (MonthFromTime t) (DateFromTime t)
           /\ date row' = isoDate (YearFromTime t') (MonthFromTime t') (DateFromTime t')
           /\ 28 * msPerDay <= t' - t <= 31 * msPerDay.
Proof.
  intros Hn Hv Htz.
  destruct (engine_rows host loanAmount interestRate loanDuration startDate n Hn Hv)
    as (r & Hrun & _ & Hrows).
  exists r. split; [ exact Hrun | ].
  intros i Hi.
  destruct (datesValid_at host startDate n i Hv ltac:(lia)) as (t & Ht).
  destruct (datesValid_at host startDate n (S i) Hv Hi) as (t' & Ht').
  eexists. eexists. exists t, t'.
  split; [ exact (Hrows i ltac:(lia)) | ].
  split; [ exact (Hrows (S i) Hi) | ].
  split; [ exact Ht | ]. split; [ exact Ht' | ].
  cbn [date Spec.periodRow].
  split; [ exact (dateText_of_time host startDate i t Ht) | ].
  split; [ exact (dateText_of_time host startDate (S i) t' Ht') | ].
  destruct (newDate host startDate) as [t0 | ] eqn:Hnew.
  - rewrite (periodDate_fixed_offset host startDate off t0 _ Htz Hnew) in Ht.
    rewrite (periodDate_fixed_offset host startDate off t0 _ Htz Hnew) in Ht'.
    apply TimeClip_Some in Ht. apply TimeClip_Some in Ht'.
    replace (MonthFromTime (t0 + off) + Z.of_nat (S i))
      with (MonthFromTime (t0 + off) + Z.of_nat i + 1) in Ht' by lia.
    rewrite MakeDay_next_month in Ht'.
    set (k := MonthFromTime (t0 + off) + Z.of_nat i) in *.
    pose proof (Z.mod_pos_bound k 12 ltac:(lia)) as Hk.
    pose proof (daysInMonth_range (isLeap (YearFromTime (t0 + off) + k / 12)) (k mod 12)
                  ltac:(lia)) as Hlen.
    subst t t'. unfold MakeDate, msPerDay. lia.
  - unfold periodDate in Ht. rewrite Hnew in Ht. discriminate Ht.
Qed.

(** Summer time: when the zone's offset at the local time of a period
    is larger than its offset at the start date, east of Greenwich,
    the row shows the day before the one expected. *)
Theorem larger_offset_shows_day_before (host : Host)
    (loanAmount interestRate loanDuration : num) (startDate : string) (n : nat)
    (y m d : Z) :
  loopBound loanDuration = Some n ->
  datesValid host startDate n = true ->
  Date_parse host startDate = Some (MakeDate (MakeDay y m d) 0) ->
  0 <= m <= 11 ->
  1 <= d <= daysInMonth (isLeap y) m ->
  0 <= LocalTZA host (MakeDate (MakeDay y m d) 0) true < msPerDay ->
  exists r : LoanResult num,
    calculateLoanDetails host loanAmount interestRate loanDuration startDate = Ret r
    /\ forall i, (i < n)%nat ->
         let off0 := LocalTZA host (MakeDate (MakeDay y m d) 0) true in
         let k := m + Z.of_nat i in
         let off := LocalTZA host (MakeDate (MakeDay y k d) off0) false in
         off0 < off <= off0 + msPerDay ->
         2 <= d <= daysInMonth (isLeap (y + k / 12)) (k mod 12) + 1 ->
         exists row : Row,
           nth_error (repaymentSchedule r) i = Some row
           /\ date row = isoDate (y + k / 12) (k mod 12) (d - 1).
Proof.
  intros Hn Hv Hparse Hm Hd Hoff0.
  destruct (engine_rows host loanAmount interestRate loanDuration startDate n Hn Hv)
    as (r & Hrun & _ & Hrows).
  exists r. split; [ exact Hrun | ].
  intros i Hi off0 k off Hoff Hday.
  eexists. split; [ exact (Hrows i Hi) | ].
  cbn [date Spec.periodRow].
  destruct (datesValid_at host startDate n i Hv Hi) as (t & Ht).
  pose proof (newDate_of_valid host startDate _ _ _ Ht Hparse) as Hnew.
  assert (Hper : periodDate host startDate (Z.of_nat i)
                 = TimeClip (MakeDate (MakeDay y k (d - 1)) (msPerDay + off0 - off))).
  { rewrite (periodDate_any_host host startDate _ _ Hnew).
    unfold LocalTime. fold off0.
    replace (MakeDate (MakeDay y m d) 0 + off0) with (MakeDate (MakeDay y m d) off0)
      by (unfold MakeDate; lia).
    destruct (civil_roundtrip y m d off0 Hm Hd Hoff0) as (Hy1 & Hm1 & Hd1 & Hw1).
    rewrite Hy1, Hm1, Hd1, Hw1. fold k. unfold UTC. fold off.
    f_equal. replace d with (d - 1 + 1) at 1 by lia. rewrite MakeDay_shift.
    unfold MakeDate. lia. }
  rewrite Ht in Hper. symmetry in Hper. apply TimeClip_Some in Hper. subst t.
  apply (dateText_of_day host startDate i y k (d - 1) (msPerDay + off0 - off) Ht); lia.
Qed.

End MoreDateProperties.

(** ** A term without end

    A duration above [2^53], or [Infinity], keeps the guard of line 37
    true for ever.  In a host whose time zone offsets stay within a
    day the period dates leave the range of [Date] long before the
    counter stops advancing, and the run ends there. *)

Section EndlessTerm.

Import JSDate.

Local Open Scope Z_scope.

Lemma MakeDay_months_on_nat (y k d : Z) (n : nat) :
  MakeDay y k d + 28 * Z.of_nat n <= MakeDay y (k + Z.of_nat n) d.
Proof.
  induction n as [ | n IH].
  - change (Z.of_nat 0) with 0. replace (k + 0) with k by lia. lia.
  - replace (k + Z.of_nat (S n)) with (k + Z.of_nat n + 1) by lia.
    rewrite MakeDay_next_month.
    pose proof (Z.mod_pos_bound (k + Z.of_nat n) 12 ltac:(lia)) as Hb.
    pose proof (daysInMonth_range (isLeap (y + (k + Z.of_nat n) / 12))
                  ((k + Z.of_nat n) mod 12) ltac:(lia)).
    lia.
Qed.

(** [n] months on, the day number has grown by [28 * n] at least. *)
Lemma MakeDay_months_on (y k d n : Z) :
  0 <= n -> MakeDay y k d + 28 * n <= MakeDay y (k + n) d.
Proof.
  intros Hn. rewrite <- (Z2Nat.id n Hn). apply MakeDay_months_on_nat.
Qed.

Lemma far_out_of_range (dayt day w off : Z) :
  -100000002 <= dayt ->
  dayt + 28 * 8388608 <= day ->
  0 <= w ->
  Z.abs off <= msPerDay ->
  TimeClip (MakeDate day w - off) = None.
Proof.
  intros Hdayt Hday Hw Hoff. unfold TimeClip, MakeDate, msPerDay in *.
  destruct (Z.leb_spec (Z.abs (day * 86400000 + w - off)) 8640000000000000);
    [ lia | reflexivity ].
Qed.

Variable host : Host.
Hypothesis offsets_within_a_day : forall t b, Z.abs (LocalTZA host t b) <= msPerDay.

(** Some eight million months on, no start date gives a valid date. *)
Lemma periodDate_far (startDate : string) :
  periodDate host startDate 8388608 = None.
Proof.
  unfold periodDate. destruct (newDate host startDate) as [t0 | ] eqn:Hnew;
    [ | reflexivity ].
  assert (Ht0 : Z.abs t0 <= 8640000000000000).
  { revert Hnew. unfold newDate.
    destruct (Date_parse host startDate) as [u | ]; [ | discriminate ].
    unfold TimeClip. destruct (Z.leb_spec (Z.abs u) 8640000000000000) as [Hu | Hu];
      [ | discriminate ].
    intros H. injection H as <-. exact Hu. }
  cbn [getMonth option_map setMonth].
  generalize (offsets_within_a_day t0 true). unfold LocalTime.
  generalize (LocalTZA host t0 true). intros off Hoff.
  pose proof (MakeDay_months_on (YearFromTime (t0 + off)) (MonthFromTime (t0 + off))
                (DateFromTime (t0 + off)) 8388608 ltac:(lia)) as Hon.
  rewrite MakeDay_of_civil in Hon.
  revert Hon.
  generalize (MakeDay (YearFromTime (t0 + off)) (MonthFromTime (t0 + off) + 8388608)
                (DateFromTime (t0 + off))).
  intros day Hon.
  unfold UTC.
  generalize (offsets_within_a_day (MakeDate day (TimeWithinDay (t0 + off))) false).
  generalize (LocalTZA host (MakeDate day (TimeWithinDay (t0 + off))) false).
  intros off' Hoff'.
  apply far_out_of_range with (dayt := Day (t0 + off)) (off := off');
    [ | exact Hon | | exact Hoff' ].
  - unfold Day, msPerDay in *. Z.to_euclidean_division_equations. lia.
  - unfold TimeWithinDay, msPerDay. Z.to_euclidean_division_equations. lia.
Qed.

Context {num : Type} {N : Number num}.

(** With a duration for which the guard [i < loanDuration] never
    fails, in a host whose offsets from UTC stay within a day, the
    engine throws [RangeError], whatever the start date, the loan
    amount and the rate: it neither returns nor runs for ever. *)
Theorem endless_term_throws
    (loanAmount interestRate loanDuration : num) (startDate : string) :
  loopBound loanDuration = None ->
  (forall monthlyEMI : num,
      generateRepaymentScheduleArray host loanAmount monthlyEMI loanDuration
        startDate interestRate
      = Throw RangeError)
  /\ calculateLoanDetails host loanAmount interestRate loanDuration startDate
     = Throw RangeError
  /\ calculateLoan host loanAmount interestRate loanDuration startDate
     = Throw RangeError.
Proof.
  intros Hnone.
  assert (Hloop : unboundedLoop (num := num) host startDate = Throw RangeError).
  { apply (unboundedLoop_throws host startDate 8388608);
      [ split; [ lia | apply Z.leb_le; reflexivity ] | apply periodDate_far ]. }
  unfold calculateLoan, calculateLoanDetails, generateRepaymentScheduleArray,
    scheduleRun.
  rewrite Hnone, Hloop. split; [ intros monthlyEMI | split ]; reflexivity.
Qed.

End EndlessTerm.

(** ** Double precision: inputs that are not numbers, loops that do
    not run *)

Section DoubleEdges.

Local Open Scope Z_scope.

Lemma mul_NaN_l (x : F64.number) : F64.mul F64.NaN x = F64.NaN.
Proof. reflexivity. Qed.

Lemma mul_NaN_r (x : F64.number) : F64.mul x F64.NaN = F64.NaN.
Proof. destruct x as [s | s | | s m e]; reflexivity. Qed.

Lemma div_NaN_l (x : F64.number) : F64.div F64.NaN x = F64.NaN.
Proof. reflexivity. Qed.

Lemma sub_NaN_l (x : F64.number) : F64.sub F64.NaN x = F64.NaN.
Proof. reflexivity. Qed.

Lemma sub_NaN_r (x : F64.number) : F64.sub x F64.NaN = F64.NaN.
Proof. destruct x as [s | s | | s m e]; reflexivity. Qed.

Lemma add_NaN_l (x : F64.number) : F64.add F64.NaN x = F64.NaN.
Proof. reflexivity. Qed.

Lemma payment_NaN (a r p q : F64.number) :
  a = F64.NaN \/ r = F64.NaN -> F64.div (F64.mul (F64.mul a r) p) q = F64.NaN.
Proof.
  intros [-> | ->]; [ reflexivity | ].
  rewrite (mul_NaN_r a). reflexivity.
Qed.

(** The guard [0 < d] fails at once exactly when no turn is counted. *)
Lemma loopBound_guard_fails (d : F64.number) :
  SFltb (F64.ofZ 0) d = false -> F64.loopBound d = Some O.
Proof.
  destruct d as [s | [ | ] | | [ | ] m e]; try reflexivity; discriminate.
Qed.

Variable pow : F64.number -> F64.number -> F64.number.
Variable host : JSDate.Host.

Let dbl : Number F64.number := F64.binary64 pow.

(** With a balance or a rate that is NaN every amount of a period is
    NaN. *)
Lemma runningBalance_NaN (principal payment rate : F64.number) (i : nat) :
  principal = F64.NaN \/ rate = F64.NaN ->
  F64.mul (Spec.runningBalance (N := dbl) principal payment rate i) rate = F64.NaN
  /\ Spec.runningBalance (N := dbl) principal payment rate (S i) = F64.NaN.
Proof.
  intros H.
  assert (Hint : forall b, b = F64.NaN \/ rate = F64.NaN -> F64.mul b rate = F64.NaN).
  { intros b [-> | ->]; [ apply mul_NaN_l | apply mul_NaN_r ]. }
  assert (Hstep : forall b, F64.mul b rate = F64.NaN ->
                    F64.sub b (F64.sub payment (F64.mul b rate)) = F64.NaN).
  { intros b Hb. rewrite Hb, sub_NaN_r, sub_NaN_r. reflexivity. }
  induction i as [ | i IH].
  - split; [ apply Hint; exact H | ].
    apply (Hstep principal). apply Hint. exact H.
  - destruct IH as [_ IHb].
    assert (Hi : F64.mul (Spec.runningBalance (N := dbl) principal payment rate (S i)) rate
                 = F64.NaN)
      by (apply Hint; left; exact IHb).
    split; [ exact Hi | ].
    apply (Hstep (Spec.runningBalance (N := dbl) principal payment rate (S i))). exact Hi.
Qed.

(** The page for a loan amount or a rate that is NaN. *)
Lemma page_of_NaN_input
    (loan_amount interest_rate loan_duration : F64.number) (start_date : string)
    (n : nat) :
  loan_amount = F64.NaN \/ interest_rate = F64.NaN ->
  F64.loopBound loan_duration = Some n ->
  datesValid host start_date n = true ->
  exists page : Page F64.number,
    calculateLoan (N := dbl) host loan_amount interest_rate loan_duration start_date
    = Ret page
    /\ monthly_emi page = "NaN"%string
    /\ total_interest page = "NaN"%string
    /\ total_amount page = "NaN"%string
    /\ List.length (schedule_rows page) = n
    /\ forall row, In row (schedule_rows page) ->
         principalAmount row = "NaN"%string
         /\ interest row = "NaN"%string
         /\ balance row = "NaN"%string.
Proof.
  intros Hnan Hn Hv.
  pose proof (calculateLoanDetails_run (N := dbl) host loan_amount interest_rate
                loan_duration start_date n Hn Hv) as Hrun.
  cbv zeta in Hrun.
  unfold calculateLoan. rewrite Hrun. cbn [bind].
  eexists. split; [ reflexivity | ].
  cbn [monthly_emi total_interest total_amount schedule_rows monthlyEMI totalInterest
         totalAmount repaymentSchedule].
  set (rate := Spec.monthlyRate (N := dbl) interest_rate).
  assert (Hrate : loan_amount = F64.NaN \/ rate = F64.NaN).
  { destruct Hnan as [-> | ->]; [ left; reflexivity | right; reflexivity ]. }
  assert (HE : Spec.monthlyPayment (N := dbl) loan_amount interest_rate loan_duration
               = F64.NaN).
  { unfold Spec.monthlyPayment. fold rate.
    cbn [num_add num_sub num_mul num_div Math_pow ofZ dbl F64.binary64].
    apply payment_NaN. exact Hrate. }
  rewrite HE.
  cbn [num_add num_sub num_mul num_div toFixed2 dbl F64.binary64].
  split; [ reflexivity | ]. split; [ reflexivity | ]. split; [ reflexivity | ].
  unfold Spec.schedule. split; [ rewrite length_map, length_seq; reflexivity | ].
  intros row Hin. apply in_map_iff in Hin. destruct Hin as (i & <- & _).
  destruct (runningBalance_NaN loan_amount F64.NaN rate i Hrate) as [Hi Hb].
  cbn [principalAmount interest balance Spec.periodRow].
  unfold Spec.principalPortion, Spec.interestPortion.
  cbn [num_add num_sub num_mul num_div toFixed2 dbl F64.binary64].
  rewrite Hi, Hb. repeat split; reflexivity.
Qed.

(** A loan amount or an interest rate that is not a number (an empty
    or unreadable field) leaves nothing but NaN on the page: the
    payment, both totals, and the three amounts of every row. *)
Theorem not_a_number_spreads
    (loan_amount interest_rate loan_duration : F64.number) (start_date : string)
    (n : nat) :
  loan_amount = F64.NaN \/ interest_rate = F64.NaN ->
  F64.loopBound loan_duration = Some n ->
  datesValid host start_date n = true ->
  exists page : Page F64.number,
    calculateLoan (N := dbl) host loan_amount interest_rate loan_duration start_date
    = Ret page
    /\ monthly_emi page = "NaN"%string
    /\ total_interest page = "NaN"%string
    /\ total_amount page = "NaN"%string
    /\ List.length (schedule_rows page) = n
    /\ forall row, In row (schedule_rows page) ->
         principalAmount row = "NaN"%string
         /\ interest row = "NaN"%string
         /\ balance row = "NaN"%string.
Proof.
  intros Hnan Hn Hv.
  exact (page_of_NaN_input loan_amount interest_rate loan_duration start_date n Hnan Hn Hv).
Qed.

(** When the guard [0 < loanDuration] fails at once (a duration that
    is zero, negative or NaN) no [Date] is ever made: the engine
    returns an empty schedule whatever the start date string, even
    one no host can parse. *)
Theorem no_period_no_date
    (loanAmount interestRate loanDuration : F64.number) (startDate : string) :
  SFltb (F64.ofZ 0) loanDuration = false ->
  exists r : LoanResult F64.number,
    calculateLoanDetails (N := dbl) host loanAmount interestRate loanDuration startDate
    = Ret r
    /\ repaymentSchedule r = []
    /\ generateRepaymentScheduleArray (N := dbl) host loanAmount (monthlyEMI r)
         loanDuration startDate interestRate = Ret [].
Proof.
  intros Hguard. pose proof (loopBound_guard_fails loanDuration Hguard) as Hn.
  unfold calculateLoanDetails, generateRepaymentScheduleArray, scheduleRun.
  cbn [loopBound dbl F64.binary64]. rewrite Hn. cbn [forLoop bind snd].
  eexists. split; [ reflexivity | ]. split; reflexivity.
Qed.

(** The page for a duration that is NaN. *)
Lemma page_of_NaN_duration
    (loan_amount interest_rate : F64.number) (start_date : string) :
  (forall x, pow x F64.NaN = F64.NaN) ->
  exists page : Page F64.number,
    calculateLoan (N := dbl) host loan_amount interest_rate F64.NaN start_date
    = Ret page
    /\ loan_amount_result page = F64.toFixed2 loan_amount
    /\ monthly_emi page = "NaN"%string
    /\ total_interest page = "NaN"%string
    /\ total_amount page = "NaN"%string
    /\ schedule_rows page = []
    /\ pie_data page = [loan_amount; F64.NaN].
Proof.
  intros Hpow.
  unfold calculateLoan, calculateLoanDetails, generateRepaymentScheduleArray, scheduleRun.
  cbn [loopBound dbl F64.binary64 F64.loopBound forLoop bind snd].
  eexists. split; [ reflexivity | ].
  cbn [loan_amount_result monthly_emi total_interest total_amount schedule_rows pie_data
         monthlyEMI totalInterest totalAmount repaymentSchedule].
  cbn [num_add num_sub num_mul num_div Math_pow toFixed2 ofZ dbl F64.binary64].
  rewrite !Hpow, mul_NaN_r, sub_NaN_l, div_NaN_l, mul_NaN_l, sub_NaN_l, add_NaN_l.
  repeat split; reflexivity.
Qed.

(** An empty or unreadable duration is NaN.  With a [Math.pow] that
    gives NaN for the exponent NaN, as the standard has it, the page
    then shows the loan amount, NaN for the payment and both totals,
    and no row; nothing is thrown, whatever the start date. *)
Theorem missing_duration_shows_NaN
    (loan_amount interest_rate : F64.number) (start_date : string) :
  (forall x, pow x F64.NaN = F64.NaN) ->
  exists page : Page F64.number,
    calculateLoan (N := dbl) host loan_amount interest_rate F64.NaN start_date
    = Ret page
    /\ loan_amount_result page = F64.toFixed2 loan_amount
    /\ monthly_emi page = "NaN"%string
    /\ total_interest page = "NaN"%string
    /\ total_amount page = "NaN"%string
    /\ schedule_rows page = []
    /\ pie_data page = [loan_amount; F64.NaN].
Proof.
  intros Hpow.
  exact (page_of_NaN_duration loan_amount interest_rate start_date Hpow).
Qed.

End DoubleEdges.

Section ZeroRatePage.

Local Open Scope Z_scope.

Variable pow : F64.number -> F64.number -> F64.number.
Variable host : JSDate.Host.

Let dbl : Number F64.number := F64.binary64 pow.

Lemma runningBalance_payment_NaN (principal rate : F64.number) (i : nat) :
  Spec.runningBalance (N := dbl) principal F64.NaN rate (S i) = F64.NaN.
Proof.
  cbn [Spec.runningBalance]. cbv zeta.
  cbn [num_sub num_mul dbl F64.binary64].
  rewrite sub_NaN_l, sub_NaN_r. reflexivity.
Qed.

Lemma toFixed2_finite_times_zero (x : F64.number) :
  F64.isFinite x = true ->
  F64.toFixed2 (F64.mul x (S754_zero false)) = "0.00"%string.
Proof.
  destruct x as [s | s | | s m e]; try discriminate; intros _; destruct s; reflexivity.
Qed.

(** A rate of zero on the page: with a [Math.pow] that gives [1] for
    the base [1], a finite loan amount and a term of [k] months, the
    payment, both totals, and in every row the principal part and the
    balance show NaN; only the interest of the first row is a
    number, [0.00]. *)
Theorem zero_rate_page_shows_NaN
    (loan_amount : F64.number) (k : Z) (start_date : string) :
  F64.pow_one_base pow ->
  F64.isFinite loan_amount = true ->
  0 < k <= 2 ^ 53 ->
  datesValid host start_date (Z.to_nat k) = true ->
  exists page : Page F64.number,
    calculateLoan (N := dbl) host loan_amount (F64.ofZ 0) (F64.ofZ k) start_date
    = Ret page
    /\ monthly_emi page = "NaN"%string
    /\ total_interest page = "NaN"%string
    /\ total_amount page = "NaN"%string
    /\ Z.of_nat (List.length (schedule_rows page)) = k
    /\ forall i row, nth_error (schedule_rows page) i = Some row ->
         principalAmount row = "NaN"%string
         /\ balance row = "NaN"%string
         /\ interest row = if Nat.eqb i 0 then "0.00"%string else "NaN"%string.
Proof.
  intros Hpow Hfin Hk Hv.
  assert (Hn : @loopBound F64.number dbl (F64.ofZ k) = Some (Z.to_nat k))
    by (apply loopBound_ofZ; lia).
  pose proof (calculateLoanDetails_run (N := dbl) host loan_amount (F64.ofZ 0)
                (F64.ofZ k) start_date _ Hn Hv) as Hrun.
  cbv zeta in Hrun.
  unfold calculateLoan. rewrite Hrun. cbn [bind].
  eexists. split; [ reflexivity | ].
  cbn [monthly_emi total_interest total_amount schedule_rows monthlyEMI totalInterest
         totalAmount repaymentSchedule].
  assert (Hrate : Spec.monthlyRate (N := dbl) (F64.ofZ 0) = S754_zero false)
    by (apply (zero_rate_monthly false)).
  assert (HE : Spec.monthlyPayment (N := dbl) loan_amount (F64.ofZ 0) (F64.ofZ k)
               = F64.NaN).
  { unfold Spec.monthlyPayment. rewrite Hrate.
    cbn [num_add num_sub num_mul num_div Math_pow ofZ dbl F64.binary64].
    rewrite one_plus_zero.
    rewrite (Hpow (F64.ofZ k)) by (apply isFinite_ofZ; lia).
    rewrite sub_one_one. apply zero_product_over_zero. }
  rewrite HE, Hrate.
  cbn [num_add num_sub num_mul num_div toFixed2 dbl F64.binary64].
  split; [ reflexivity | ]. split; [ reflexivity | ]. split; [ reflexivity | ].
  unfold Spec.schedule.
  split; [ rewrite length_map, length_seq; lia | ].
  intros i row Hrow. rewrite nth_error_map, nth_error_seq in Hrow.
  destruct (Nat.ltb_spec i (Z.to_nat k)) as [_ | _]; [ | discriminate Hrow ].
  cbn [option_map] in Hrow. apply Some_eq in Hrow. subst row.
  cbn [principalAmount interest balance Spec.periodRow].
  unfold Spec.principalPortion, Spec.interestPortion.
  cbn [num_add num_sub num_mul num_div toFixed2 dbl F64.binary64 Nat.add].
  rewrite runningBalance_payment_NaN.
  split; [ reflexivity | ]. split; [ reflexivity | ].
  destruct i as [ | i].
  - cbn [Spec.runningBalance Nat.eqb]. apply toFixed2_finite_times_zero. exact Hfin.
  - rewrite runningBalance_payment_NaN. reflexivity.
Qed.

End ZeroRatePage.

Section AmountsAndDates.

Context {num : Type} {N : Number num}.

(** The amounts take nothing from the dates: two runs on the same
    loan, with different start dates or in different zones, give the
    same payment, the same totals and the same three amounts in
    every row. *)
Theorem amounts_independent_of_dates (host host' : JSDate.Host)
    (loanAmount interestRate loanDuration : num) (startDate startDate' : string)
    (n : nat) :
  loopBound loanDuration = Some n ->
  datesValid host startDate n = true ->
  datesValid host' startDate' n = true ->
  exists r r' : LoanResult num,
    calculateLoanDetails host loanAmount interestRate loanDuration startDate = Ret r
    /\ calculateLoanDetails host' loanAmount interestRate loanDuration startDate' = Ret r'
    /\ monthlyEMI r = monthlyEMI r'
    /\ totalInterest r = totalInterest r'
    /\ totalAmount r = totalAmount r'
    /\ map (fun row => (principalAmount row, interest row, balance row))
         (repaymentSchedule r)
       = map (fun row => (principalAmount row, interest row, balance row))
           (repaymentSchedule r').
Proof.
  intros Hn Hv Hv'. unfold calculateLoanDetails.
  rewrite (generateRepaymentScheduleArray_run host _ _ _ _ _ n Hn Hv).
  rewrite (generateRepaymentScheduleArray_run host' _ _ _ _ _ n Hn Hv').
  cbn [bind]. eexists. eexists.
  split; [ reflexivity | ]. split; [ reflexivity | ].
  cbn [monthlyEMI totalInterest totalAmount repaymentSchedule].
  repeat (split; [ reflexivity | ]).
  unfold Spec.schedule. rewrite !map_map. reflexivity.
Qed.

End AmountsAndDates.

(** ** The loop counter in doubles *)

Section LoopCounter.

Import F64.
Local Open Scope Z_scope.

Lemma guardTrips_enough (k : Z) :
  forall (fuel n : nat) (i : Z),
    0 <= i -> k <= 2 ^ 53 -> i + Z.of_nat n = k -> (n < fuel)%nat ->
    guardTrips fuel (ofZ i) (ofZ k) = Some n.
Proof.
  induction fuel as [ | fuel IH]; intros n i Hi Hk Hsum Hfuel; [ lia | ].
  change (guardTrips (S fuel) (ofZ i) (ofZ k))
    with (if SFltb (ofZ i) (ofZ k)
          then option_map S (guardTrips fuel (add (ofZ i) (ofZ 1)) (ofZ k))
          else Some O).
  rewrite SFltb_ofZ by lia.
  destruct n as [ | n].
  - destruct (Z.ltb_spec i k); [ lia | reflexivity ].
  - destruct (Z.ltb_spec i k); [ | lia ].
    rewrite add_ofZ_one by lia.
    rewrite (IH n (i + 1)) by lia. reflexivity.
Qed.

(** At [2^53] the counter stops moving: [2^53 + 1] rounds back. *)
Lemma counter_sticks : add (ofZ (2 ^ 53)) (ofZ 1) = ofZ (2 ^ 53).
Proof. vm_compute. reflexivity. Qed.

Lemma SFltb_ofZ_Infinity (i : Z) : 0 <= i <= 2 ^ 53 -> SFltb (ofZ i) Infinity = true.
Proof.
  intros Hi. pose proof (isFinite_ofZ i Hi) as Hf.
  destruct (ofZ i) as [s | s | | s m e]; try discriminate Hf; destruct s; reflexivity.
Qed.

Lemma guardTrips_Infinity :
  forall (fuel : nat) (i : Z),
    0 <= i <= 2 ^ 53 -> guardTrips fuel (ofZ i) Infinity = None.
Proof.
  induction fuel as [ | fuel IH]; intros i Hi; [ reflexivity | ].
  change (guardTrips (S fuel) (ofZ i) Infinity)
    with (if SFltb (ofZ i) Infinity
          then option_map S (guardTrips fuel (add (ofZ i) (ofZ 1)) Infinity)
          else Some O).
  rewrite SFltb_ofZ_Infinity by exact Hi.
  destruct (Z.eq_dec i (2 ^ 53)) as [-> | Hne].
  - rewrite counter_sticks, IH by lia. reflexivity.
  - rewrite add_ofZ_one by lia. rewrite IH by lia. reflexivity.
Qed.

(** The guard [i < loanDuration] of line 37, run with the script's
    own counter (a double, incremented in double arithmetic), holds
    exactly [k] times for an integral duration [k] from 0 to [2^53]:
    the number of turns the engine is given.  For the duration
    [Infinity] it never fails, however long the loop runs. *)
Theorem loop_counter_in_doubles (k : Z) (fuel : nat) :
  0 <= k <= 2 ^ 53 ->
  (Z.to_nat k < fuel)%nat ->
  guardTrips fuel (ofZ 0) (ofZ k) = Some (Z.to_nat k)
  /\ loopBound (ofZ k) = Some (Z.to_nat k)
  /\ (forall tests : nat, guardTrips tests (ofZ 0) Infinity = None)
  /\ loopBound Infinity = None.
Proof.
  intros Hk Hfuel.
  split; [ apply guardTrips_enough; lia | ].
  split; [ apply loopBound_ofZ; exact Hk | ].
  split; [ | reflexivity ].
  intros tests. apply guardTrips_Infinity. lia.
Qed.

End LoopCounter.

(** ** What the cells are made of *)

Section CellText.

Local Open Scope Z_scope.

Lemma allIn_app (A a b : string) :
  allIn A (a ++ b) = allIn A a && allIn A b.
Proof.
  induction a as [ | c a IH]; [ reflexivity | ].
  cbn [append allIn]. rewrite IH. apply andb_assoc.
Qed.

Lemma allIn_wider (A B s : string) :
  (forall c, hasChar c A = true -> hasChar c B = true) ->
  allIn A s = true -> allIn B s = true.
Proof.
  intros Hsub. induction s as [ | c s IH]; [ reflexivity | ].
  cbn [allIn]. intros H. apply andb_prop in H. destruct H as [Hc Hs].
  rewrite (Hsub c Hc), (IH Hs). reflexivity.
Qed.

Lemma hasChar_digit (n : Z) : hasChar (JSDate.digit n) "0123456789" = true.
Proof.
  unfold JSDate.digit. pose proof (Z.mod_pos_bound n 10 ltac:(lia)) as Hb.
  assert (Hc : n mod 10 = 0 \/ n mod 10 = 1 \/ n mod 10 = 2 \/ n mod 10 = 3
               \/ n mod 10 = 4 \/ n mod 10 = 5 \/ n mod 10 = 6 \/ n mod 10 = 7
               \/ n mod 10 = 8 \/ n mod 10 = 9) by lia.
  repeat (destruct Hc as [-> | Hc]; [ reflexivity | ]).
  rewrite Hc. reflexivity.
Qed.

Lemma allIn_pad (width : nat) :
  forall (n : Z) (acc : string),
    allIn "0123456789" acc = true -> allIn "0123456789" (JSDate.pad width n acc) = true.
Proof.
  induction width as [ | w IH]; intros n acc H; [ exact H | ].
  cbn [JSDate.pad]. apply IH. cbn [allIn]. rewrite hasChar_digit, H. reflexivity.
Qed.

Ltac find_char c :=
  repeat match goal with
         | H : context [Ascii.eqb c ?x] |- _ =>
             destruct (Ascii.eqb c x); cbn [orb] in H |- *;
             [ reflexivity | ]
         end.

Lemma digits_in_dateAlphabet (c : ascii) :
  hasChar c "0123456789" = true -> hasChar c dateAlphabet = true.
Proof.
  unfold dateAlphabet. cbn [hasChar]. intros H. find_char c. discriminate H.
Qed.

Lemma digits_in_amountAlphabet (c : ascii) :
  hasChar c "0123456789" = true -> hasChar c amountAlphabet = true.
Proof.
  unfold amountAlphabet. cbn [hasChar]. intros H. find_char c. discriminate H.
Qed.

Lemma allIn_isoDate (y m d : Z) : allIn dateAlphabet (JSDate.isoDate y m d) = true.
Proof.
  assert (Hpad : forall w n, allIn dateAlphabet (JSDate.pad w n "") = true).
  { intros w n. apply (allIn_wider "0123456789"); [ exact digits_in_dateAlphabet | ].
    apply allIn_pad. reflexivity. }
  unfold JSDate.isoDate, JSDate.isoYear.
  rewrite !allIn_app, !Hpad, !andb_true_r.
  destruct ((0 <=? y) && (y <=? 9999)); [ apply Hpad | ].
  destruct (0 <=? y); cbn [allIn]; rewrite Hpad; reflexivity.
Qed.

Lemma allIn_string_of_uint (u : Decimal.uint) :
  allIn "0123456789" (NilEmpty.string_of_uint u) = true.
Proof. induction u; cbn [NilEmpty.string_of_uint allIn]; try rewrite IHu; reflexivity. Qed.

Lemma allIn_decimal (n : Z) : allIn "0123456789" (Fixed.decimal n) = true.
Proof.
  unfold Fixed.decimal, NilZero.string_of_uint.
  destruct (N.to_uint (Z.to_N n)) as [ | u | u | u | u | u | u | u | u | u | u ];
    [ reflexivity
    | exact (allIn_string_of_uint (Decimal.D0 u))
    | exact (allIn_string_of_uint (Decimal.D1 u))
    | exact (allIn_string_of_uint (Decimal.D2 u))
    | exact (allIn_string_of_uint (Decimal.D3 u))
    | exact (allIn_string_of_uint (Decimal.D4 u))
    | exact (allIn_string_of_uint (Decimal.D5 u))
    | exact (allIn_string_of_uint (Decimal.D6 u))
    | exact (allIn_string_of_uint (Decimal.D7 u))
    | exact (allIn_string_of_uint (Decimal.D8 u))
    | exact (allIn_string_of_uint (Decimal.D9 u)) ].
Qed.

Lemma allIn_amount_digits (s : string) :
  allIn "0123456789" s = true -> allIn amountAlphabet s = true.
Proof. apply allIn_wider. exact digits_in_amountAlphabet. Qed.

Lemma allIn_render (negative : bool) (n : Z) :
  allIn amountAlphabet (Fixed.render negative n) = true.
Proof.
  unfold Fixed.render. rewrite !allIn_app.
  rewrite (allIn_amount_digits _ (allIn_decimal (n / 100))).
  rewrite (allIn_amount_digits _ (allIn_pad 2 (n mod 100) "" eq_refl)).
  destruct negative; reflexivity.
Qed.

Lemma allIn_tail (A : string) (c : ascii) (s : string) :
  allIn A (String c s) = true -> allIn A (String c "") = true /\ allIn A s = true.
Proof.
  cbn [allIn]. intros H. apply andb_prop in H. destruct H as [Hc Hs].
  rewrite Hc. split; [ reflexivity | exact Hs ].
Qed.

Lemma allIn_toStringLarge (v : Z) : allIn amountAlphabet (F64.toStringLarge v) = true.
Proof.
  unfold F64.toStringLarge. cbv zeta.
  set (w := F64.shortest 17 1 (F64.numDigits v) v).
  pose proof (allIn_amount_digits _
                (allIn_decimal (F64.stripZeros (Z.to_nat (F64.numDigits w)) w))) as Hs.
  pose proof (allIn_amount_digits _ (allIn_decimal (F64.numDigits w - 1))) as He.
  destruct (Fixed.decimal (F64.stripZeros (Z.to_nat (F64.numDigits w)) w))
    as [ | c [ | c' rest]]; [ reflexivity | | ].
  - rewrite !allIn_app, Hs, He. reflexivity.
  - apply allIn_tail in Hs. destruct Hs as [Hc Hrest].
    rewrite !allIn_app, Hc, Hrest, He. reflexivity.
Qed.

(** Every text [toFixed(2)] gives in double precision. *)
Lemma allIn_toFixed2 (x : F64.number) : allIn amountAlphabet (F64.toFixed2 x) = true.
Proof.
  assert (Hfin : forall q : Q,
            allIn amountAlphabet
              (if Qle_bool (inject_Z (10 ^ 21)) (Qabs q)
               then ((if Fixed.isNegative q then "-" else "")
                     ++ F64.toStringLarge (Qfloor (Qabs q)))%string
               else Fixed.toFixed2 q) = true).
  { intros q. destruct (Qle_bool (inject_Z (10 ^ 21)) (Qabs q)).
    - rewrite allIn_app, allIn_toStringLarge.
      destruct (Fixed.isNegative q); reflexivity.
    - apply allIn_render. }
  destruct x as [s | [ | ] | | s m e]; try reflexivity; apply Hfin.
Qed.

(** Occurrences of a character that is not in the alphabet. *)
Lemma countChar_app (c : ascii) (a b : string) :
  countChar c (a ++ b) = (countChar c a + countChar c b)%nat.
Proof.
  induction a as [ | c' a IH]; [ reflexivity | ].
  cbn [append countChar]. rewrite IH. lia.
Qed.

Lemma countChar_outside (A : string) (c : ascii) (s : string) :
  hasChar c A = false -> allIn A s = true -> countChar c s = O.
Proof.
  intros Hc. induction s as [ | c' s IH]; [ reflexivity | ].
  cbn [allIn countChar]. intros H. apply andb_prop in H. destruct H as [Hc' Hs].
  rewrite (IH Hs).
  destruct (Ascii.eqb_spec c c') as [-> | _]; [ congruence | reflexivity ].
Qed.

End CellText.

Section PlainCells.

Variable pow : F64.number -> F64.number -> F64.number.
Variable host : JSDate.Host.

(** The cells of the rows are plain text: a date is made of digits and
    signs, an amount of digits, a point, signs and the letters of
    [NaN], [Infinity] and the exponent mark.  Put between the tags
    of line 62 as they are, they add no tag and no character
    reference: the markup of a row has the ten tags of the template
    and nothing else that the table could read as markup. *)
Theorem cells_are_plain_text
    (loanAmount interestRate loanDuration : F64.number) (startDate : string) (n : nat) :
  F64.loopBound loanDuration = Some n ->
  datesValid host startDate n = true ->
  exists r : LoanResult F64.number,
    calculateLoanDetails (N := F64.binary64 pow) host loanAmount interestRate
      loanDuration startDate = Ret r
    /\ forall row, In row (repaymentSchedule r) ->
         allIn dateAlphabet (date row) = true
         /\ allIn amountAlphabet (principalAmount row) = true
         /\ allIn amountAlphabet (interest row) = true
         /\ allIn amountAlphabet (balance row) = true
         /\ countChar "<" (rowMarkup row) = 10%nat
         /\ countChar ">" (rowMarkup row) = 10%nat
         /\ countChar "&" (rowMarkup row) = 0%nat.
Proof.
  intros Hn Hv. unfold calculateLoanDetails.
  rewrite (generateRepaymentScheduleArray_run (N := F64.binary64 pow) host _ _ _ _ _ n
             Hn Hv).
  cbn [bind]. eexists. split; [ reflexivity | ].
  cbn [repaymentSchedule]. intros row Hin.
  unfold Spec.schedule in Hin. apply in_map_iff in Hin.
  destruct Hin as (i & <- & Hi). apply in_seq in Hi.
  destruct (datesValid_at host startDate n i Hv ltac:(lia)) as (t & Ht).
  assert (Hdate : allIn dateAlphabet (Spec.dateText host startDate i) = true).
  { rewrite (dateText_of_time host startDate i t Ht). apply allIn_isoDate. }
  unfold rowMarkup. cbn [date principalAmount interest balance Spec.periodRow].
  cbn [toFixed2 F64.binary64].
  set (p := F64.toFixed2 _). set (q := F64.toFixed2 _). set (b := F64.toFixed2 _).
  pose proof (allIn_toFixed2) as Hfix.
  assert (Hp : allIn amountAlphabet p = true) by apply Hfix.
  assert (Hq : allIn amountAlphabet q = true) by apply Hfix.
  assert (Hb : allIn amountAlphabet b = true) by apply Hfix.
  split; [ exact Hdate | ]. split; [ exact Hp | ]. split; [ exact Hq | ].
  split; [ exact Hb | ].
  rewrite !countChar_app.
  rewrite (countChar_outside dateAlphabet "<" _ eq_refl Hdate),
    (countChar_outside dateAlphabet ">" _ eq_refl Hdate),
    (countChar_outside dateAlphabet "&" _ eq_refl Hdate),
    (countChar_outside amountAlphabet "<" _ eq_refl Hp),
    (countChar_outside amountAlphabet ">" _ eq_refl Hp),
    (countChar_outside amountAlphabet "&" _ eq_refl Hp),
    (countChar_outside amountAlphabet "<" _ eq_refl Hq),
    (countChar_outside amountAlphabet ">" _ eq_refl Hq),
    (countChar_outside amountAlphabet "&" _ eq_refl Hq),
    (countChar_outside amountAlphabet "<" _ eq_refl Hb),
    (countChar_outside amountAlphabet ">" _ eq_refl Hb),
    (countChar_outside amountAlphabet "&" _ eq_refl Hb).
  repeat split; reflexivity.
Qed.

End PlainCells.

(** ** The fields as they are read *)

Section FieldTexts.

Import Fields.
Local Open Scope Z_scope.

Lemma digit_char_facts (c : ascii) :
  hasChar c "0123456789" = true ->
  isWhiteSpace c = false
  /\ Ascii.eqb c "-" = false /\ Ascii.eqb c "+" = false /\ Ascii.eqb c "I" = false
  /\ Ascii.eqb c "x" = false /\ Ascii.eqb c "X" = false /\ Ascii.eqb c "." = false
  /\ exists v, JSDate.digitValue c = Some v.
Proof.
  destruct c as [[ | ] [ | ] [ | ] [ | ] [ | ] [ | ] [ | ] [ | ]];
    intros H; try discriminate H;
    repeat split; try reflexivity; eexists; reflexivity.
Qed.

Lemma non_digit_char (c : ascii) :
  hasChar c "0123456789" = false -> JSDate.digitValue c = None.
Proof.
  destruct c as [[ | ] [ | ] [ | ] [ | ] [ | ] [ | ] [ | ] [ | ]];
    intros H; try discriminate H; reflexivity.
Qed.

Lemma hasChar_narrower (c : ascii) (chars chars' : string) :
  (forall x, hasChar x chars' = true -> hasChar x chars = true) ->
  hasChar c chars = false -> hasChar c chars' = false.
Proof.
  intros Hsub H. destruct (hasChar c chars') eqn:Hc; [ | reflexivity ].
  rewrite (Hsub c Hc) in H. discriminate H.
Qed.

Lemma takeDigits_digit (c : ascii) (v : Z) (s : string) (acc : Z) (count : nat) :
  JSDate.digitValue c = Some v ->
  takeDigits (String c s) acc count = takeDigits s (10 * acc + v) (S count).
Proof. intros H. cbn [takeDigits]. rewrite H. reflexivity. Qed.

Lemma takeDigits_stops (s : string) (acc : Z) (count : nat) :
  firstNotIn "0123456789" s = true -> takeDigits s acc count = (acc, count, s).
Proof.
  destruct s as [ | c s]; [ reflexivity | ].
  unfold firstNotIn. intros H. apply negb_true_iff in H.
  cbn [takeDigits]. rewrite (non_digit_char c H). reflexivity.
Qed.

(** Reading a decimal numeral gives back its number. *)
Lemma takeDigits_numeral_acc (u : Decimal.uint) :
  forall (p : positive) (count : nat) (tail : string),
    takeDigits (NilEmpty.string_of_uint u ++ tail) (Z.pos p) count
    = takeDigits tail (Z.pos (Pos.of_uint_acc u p)) (Decimal.nb_digits u + count).
Proof.
  induction u as [ | u IH | u IH | u IH | u IH | u IH | u IH | u IH | u IH | u IH | u IH];
    intros p count tail;
    cbn [NilEmpty.string_of_uint append Decimal.nb_digits Pos.of_uint_acc];
    [ reflexivity
    | rewrite (takeDigits_digit "0" 0 _ _ _ eq_refl)
    | rewrite (takeDigits_digit "1" 1 _ _ _ eq_refl)
    | rewrite (takeDigits_digit "2" 2 _ _ _ eq_refl)
    | rewrite (takeDigits_digit "3" 3 _ _ _ eq_refl)
    | rewrite (takeDigits_digit "4" 4 _ _ _ eq_refl)
    | rewrite (takeDigits_digit "5" 5 _ _ _ eq_refl)
    | rewrite (takeDigits_digit "6" 6 _ _ _ eq_refl)
    | rewrite (takeDigits_digit "7" 7 _ _ _ eq_refl)
    | rewrite (takeDigits_digit "8" 8 _ _ _ eq_refl)
    | rewrite (takeDigits_digit "9" 9 _ _ _ eq_refl) ];
    match goal with
    | |- takeDigits _ ?a _ = takeDigits _ (Z.pos (Pos.of_uint_acc _ ?q)) _ =>
        replace a with (Z.pos q) by lia
    end;
    rewrite IH; f_equal; lia.
Qed.

Lemma takeDigits_numeral (u : Decimal.uint) :
  forall (count : nat) (tail : string),
    takeDigits (NilEmpty.string_of_uint u ++ tail) 0 count
    = takeDigits tail (Z.of_N (Pos.of_uint u)) (Decimal.nb_digits u + count).
Proof.
  induction u as [ | u IH | u IH | u IH | u IH | u IH | u IH | u IH | u IH | u IH | u IH];
    intros count tail;
    cbn [NilEmpty.string_of_uint append Decimal.nb_digits Pos.of_uint];
    [ reflexivity
    | rewrite (takeDigits_digit "0" 0 _ _ _ eq_refl)
    | rewrite (takeDigits_digit "1" 1 _ _ _ eq_refl)
    | rewrite (takeDigits_digit "2" 2 _ _ _ eq_refl)
    | rewrite (takeDigits_digit "3" 3 _ _ _ eq_refl)
    | rewrite (takeDigits_digit "4" 4 _ _ _ eq_refl)
    | rewrite (takeDigits_digit "5" 5 _ _ _ eq_refl)
    | rewrite (takeDigits_digit "6" 6 _ _ _ eq_refl)
    | rewrite (takeDigits_digit "7" 7 _ _ _ eq_refl)
    | rewrite (takeDigits_digit "8" 8 _ _ _ eq_refl)
    | rewrite (takeDigits_digit "9" 9 _ _ _ eq_refl) ];
    change (10 * 0 + 0) with 0; try (rewrite IH; f_equal; lia);
    match goal with
    | |- takeDigits _ ?a _ = _ =>
        let v := eval vm_compute in a in change a with v
    end;
    rewrite takeDigits_numeral_acc; cbn [Z.of_N]; f_equal; lia.
Qed.

Lemma decimal_starts_with_digit (n : Z) :
  exists (c : ascii) (rest : string),
    Fixed.decimal n = String c rest
    /\ hasChar c "0123456789" = true
    /\ firstNotIn "xX" rest = true.
Proof.
  pose proof (allIn_decimal n) as Hall.
  assert (Hne : Fixed.decimal n <> EmptyString).
  { unfold Fixed.decimal, NilZero.string_of_uint.
    destruct (N.to_uint (Z.to_N n)); discriminate. }
  destruct (Fixed.decimal n) as [ | c rest]; [ contradiction | ].
  exists c, rest. split; [ reflexivity | ].
  cbn [allIn] in Hall. apply andb_prop in Hall. destruct Hall as [Hc Hrest].
  split; [ exact Hc | ].
  destruct rest as [ | c' rest']; [ reflexivity | ].
  cbn [allIn] in Hrest. apply andb_prop in Hrest. destruct Hrest as [Hc' _].
  destruct (digit_char_facts c' Hc') as (_ & _ & _ & _ & Hx & HX & _).
  unfold firstNotIn. cbn [hasChar]. rewrite Hx, HX. reflexivity.
Qed.

Lemma numeral_shape (u : Decimal.uint) :
  u = Decimal.Nil
  \/ (NilZero.string_of_uint u = NilEmpty.string_of_uint u
      /\ exists k : nat, Decimal.nb_digits u = S k).
Proof.
  destruct u; [ left; reflexivity | .. ];
    right; (split; [ reflexivity | eexists; reflexivity ]).
Qed.

Lemma takeDigits_decimal (n : Z) (tail : string) :
  0 <= n -> firstNotIn "0123456789" tail = true ->
  exists k : nat, takeDigits (Fixed.decimal n ++ tail) 0 0 = (n, S k, tail).
Proof.
  intros Hn Htail. unfold Fixed.decimal.
  pose proof (DecimalN.Unsigned.of_to (Z.to_N n)) as Hof.
  unfold N.of_uint in Hof.
  set (u := N.to_uint (Z.to_N n)) in *.
  assert (Hval : Z.of_N (Pos.of_uint u) = n) by (rewrite Hof; lia).
  destruct (numeral_shape u) as [Hnil | (Hshape & k & Hk)].
  - exists O. rewrite Hnil in *. cbn [Pos.of_uint Z.of_N] in Hval.
    change (NilZero.string_of_uint Decimal.Nil ++ tail)%string with (String "0" tail).
    rewrite (takeDigits_digit "0" 0 _ _ _ eq_refl), takeDigits_stops by exact Htail.
    rewrite <- Hval. reflexivity.
  - exists k.
    rewrite Hshape, takeDigits_numeral, takeDigits_stops, Hval, Hk by exact Htail.
    rewrite Nat.add_0_r. reflexivity.
Qed.

End FieldTexts.

Section FieldParsers.

Import Fields.
Local Open Scope Z_scope.

Lemma integer_tail_char (c : ascii) :
  hasChar c "0123456789xX" = false ->
  hasChar c "0123456789" = false /\ Ascii.eqb c "x" = false /\ Ascii.eqb c "X" = false.
Proof.
  destruct c as [[ | ] [ | ] [ | ] [ | ] [ | ] [ | ] [ | ] [ | ]];
    intros H; try discriminate H; repeat split; reflexivity.
Qed.

Lemma decimal_tail_char (c : ascii) :
  hasChar c "0123456789.eE" = false ->
  hasChar c "0123456789" = false /\ Ascii.eqb c "." = false
  /\ Ascii.eqb c "e" = false /\ Ascii.eqb c "E" = false.
Proof.
  destruct c as [[ | ] [ | ] [ | ] [ | ] [ | ] [ | ] [ | ] [ | ]];
    intros H; try discriminate H; repeat split; reflexivity.
Qed.

Lemma no_number_char (c : ascii) :
  hasChar c "0123456789+-.I" = false ->
  hasChar c "0123456789" = false /\ Ascii.eqb c "+" = false /\ Ascii.eqb c "-" = false
  /\ Ascii.eqb c "." = false /\ Ascii.eqb "I" c = false.
Proof.
  destruct c as [[ | ] [ | ] [ | ] [ | ] [ | ] [ | ] [ | ] [ | ]];
    intros H; try discriminate H; repeat split; reflexivity.
Qed.

Lemma no_integer_char (c : ascii) :
  hasChar c "0123456789+-" = false ->
  hasChar c "0123456789" = false /\ Ascii.eqb c "+" = false /\ Ascii.eqb c "-" = false.
Proof.
  destruct c as [[ | ] [ | ] [ | ] [ | ] [ | ] [ | ] [ | ] [ | ]];
    intros H; try discriminate H; repeat split; reflexivity.
Qed.

Lemma ofInteger_ofZ (n : Z) : ofInteger false n = F64.ofZ n.
Proof.
  unfold ofInteger. destruct (Z.eqb_spec n 0) as [-> | _]; reflexivity.
Qed.

Lemma firstNotIn_digits_of_integer_tail (tail : string) :
  firstNotIn "0123456789xX" tail = true -> firstNotIn "0123456789" tail = true.
Proof.
  destruct tail as [ | c t]; [ reflexivity | ].
  unfold firstNotIn. intros H. apply negb_true_iff in H.
  destruct (integer_tail_char c H) as (Hd & _). rewrite Hd. reflexivity.
Qed.

Lemma firstNotIn_digits_of_decimal_tail (tail : string) :
  firstNotIn "0123456789.eE" tail = true -> firstNotIn "0123456789" tail = true.
Proof.
  destruct tail as [ | c t]; [ reflexivity | ].
  unfold firstNotIn. intros H. apply negb_true_iff in H.
  destruct (decimal_tail_char c H) as (Hd & _). rewrite Hd. reflexivity.
Qed.

(** [parseInt] reads the leading numeral and ignores what follows. *)
Lemma parseInt_numeral (n : Z) (tail : string) :
  0 <= n -> firstNotIn "0123456789xX" tail = true ->
  parseInt (Fixed.decimal n ++ tail) = F64.ofZ n.
Proof.
  intros Hn Htail.
  destruct (takeDigits_decimal n tail Hn (firstNotIn_digits_of_integer_tail tail Htail))
    as (k & Htake).
  destruct (decimal_starts_with_digit n) as (c & rest & Hdec & Hc & Hrest).
  destruct (digit_char_facts c Hc) as (Hws & Hminus & Hplus & _).
  unfold parseInt. rewrite Hdec in *. cbn [append trimStart]. rewrite Hws.
  cbn [splitSign]. rewrite Hminus, Hplus.
  assert (Hhex : hexPrefix (String c (rest ++ tail)) = None).
  { unfold hexPrefix.
    destruct rest as [ | c2 rest2].
    - cbn [append]. destruct tail as [ | t tail']; [ reflexivity | ].
      unfold firstNotIn in Htail. apply negb_true_iff in Htail.
      destruct (integer_tail_char t Htail) as (_ & Hx & HX).
      rewrite Hx, HX, andb_false_r. reflexivity.
    - cbn [append]. unfold firstNotIn in Hrest. apply negb_true_iff in Hrest.
      cbn [hasChar] in Hrest. apply orb_false_elim in Hrest. destruct Hrest as [Hx HX].
      rewrite orb_false_r in HX. rewrite Hx, HX, andb_false_r. reflexivity. }
  rewrite Hhex. cbn [append] in Htake. rewrite Htake. apply ofInteger_ofZ.
Qed.

(** So does [parseFloat], for a numeral without point or exponent. *)
Lemma parseFloat_numeral (n : Z) (tail : string) :
  0 <= n -> firstNotIn "0123456789.eE" tail = true ->
  parseFloat (Fixed.decimal n ++ tail) = F64.ofZ n.
Proof.
  intros Hn Htail.
  destruct (takeDigits_decimal n tail Hn (firstNotIn_digits_of_decimal_tail tail Htail))
    as (k & Htake).
  destruct (decimal_starts_with_digit n) as (c & rest & Hdec & Hc & _).
  destruct (digit_char_facts c Hc) as (Hws & Hminus & Hplus & HI & _).
  unfold parseFloat. rewrite Hdec in *. cbn [append trimStart]. rewrite Hws.
  cbn [splitSign]. rewrite Hminus, Hplus.
  assert (Hinf : startsWith "Infinity" (String c (rest ++ tail)) = false).
  { cbn [startsWith]. rewrite Ascii.eqb_sym, HI. reflexivity. }
  rewrite Hinf. cbn [append] in Htake. rewrite Htake.
  assert (Hrest : (match tail with
                   | String c' fraction =>
                       if Ascii.eqb c' "." then takeDigits fraction n 0
                       else (n, O, tail)
                   | EmptyString => (n, O, tail)
                   end) = (n, O, tail)
                  /\ exponentPart tail = 0).
  { destruct tail as [ | t tail']; [ split; reflexivity | ].
    unfold firstNotIn in Htail. apply negb_true_iff in Htail.
    destruct (decimal_tail_char t Htail) as (_ & Hpoint & He & HE).
    rewrite Hpoint. split; [ reflexivity | ].
    unfold exponentPart. rewrite He, HE. reflexivity. }
  destruct Hrest as [Hfrac Hexp]. rewrite Hfrac, Hexp.
  change (0 - Z.of_nat 0) with 0.
  destruct n as [ | m | m]; [ reflexivity | | lia ].
  unfold ofDecimal. change (10 ^ 0) with 1. rewrite Z.mul_1_r. apply ofInteger_ofZ.
Qed.

(** A text that starts, after white space, with nothing a number can
    start with, is read as NaN; so is an empty text. *)
Lemma parseFloat_unreadable (text : string) :
  firstNotIn "0123456789+-.I" (trimStart text) = true -> parseFloat text = F64.NaN.
Proof.
  unfold parseFloat. destruct (trimStart text) as [ | c s]; [ reflexivity | ].
  unfold firstNotIn. intros H. apply negb_true_iff in H.
  destruct (no_number_char c H) as (Hd & Hplus & Hminus & Hpoint & HI).
  cbn [splitSign]. rewrite Hminus, Hplus.
  cbn [startsWith]. rewrite HI. cbn [andb].
  cbn [takeDigits]. rewrite (non_digit_char c Hd), Hpoint. reflexivity.
Qed.

Lemma parseInt_unreadable (text : string) :
  firstNotIn "0123456789+-" (trimStart text) = true -> parseInt text = F64.NaN.
Proof.
  unfold parseInt. destruct (trimStart text) as [ | c s]; [ reflexivity | ].
  unfold firstNotIn. intros H. apply negb_true_iff in H.
  destruct (no_integer_char c H) as (Hd & Hplus & Hminus).
  cbn [splitSign]. rewrite Hminus, Hplus.
  assert (Hhex : hexPrefix (String c s) = None).
  { unfold hexPrefix. destruct s as [ | c1 s1]; [ reflexivity | ].
    destruct (Ascii.eqb_spec c "0") as [-> | _]; [ discriminate Hd | reflexivity ]. }
  rewrite Hhex. cbn [takeDigits]. rewrite (non_digit_char c Hd). reflexivity.
Qed.

End FieldParsers.

Section FieldsOnThePage.

Local Open Scope Z_scope.

Variable pow : F64.number -> F64.number -> F64.number.
Variable host : JSDate.Host.

(** Numerals in the fields are read as their numbers, and what follows
    a numeral is ignored: a unit after the amount, a percent sign
    after the rate, and in the duration, read by [parseInt], even a
    fraction ([12.5] months are 12).  The page is then the page of
    the three integers. *)
Theorem fields_read_as_numbers
    (amount rate months : Z) (afterAmount afterRate afterMonths : string)
    (start_date : string) :
  0 <= amount -> 0 <= rate -> 0 <= months ->
  Fields.firstNotIn "0123456789.eE" afterAmount = true ->
  Fields.firstNotIn "0123456789.eE" afterRate = true ->
  Fields.firstNotIn "0123456789xX" afterMonths = true ->
  Fields.parseFloat (Fixed.decimal amount ++ afterAmount) = F64.ofZ amount
  /\ Fields.parseFloat (Fixed.decimal rate ++ afterRate) = F64.ofZ rate
  /\ Fields.parseInt (Fixed.decimal months ++ afterMonths) = F64.ofZ months
  /\ calculateLoanOfFields pow host
       (Fixed.decimal amount ++ afterAmount) (Fixed.decimal rate ++ afterRate)
       (Fixed.decimal months ++ afterMonths) start_date
     = calculateLoan (N := F64.binary64 pow) host
         (F64.ofZ amount) (F64.ofZ rate) (F64.ofZ months) start_date.
Proof.
  intros Ha Hr Hm Hta Htr Htm.
  pose proof (parseFloat_numeral amount afterAmount Ha Hta) as H1.
  pose proof (parseFloat_numeral rate afterRate Hr Htr) as H2.
  pose proof (parseInt_numeral months afterMonths Hm Htm) as H3.
  split; [ exact H1 | ]. split; [ exact H2 | ]. split; [ exact H3 | ].
  unfold calculateLoanOfFields. rewrite H1, H2, H3. reflexivity.
Qed.

(** An amount or a rate field that is empty, or starts (after white
    space) with a character no number starts with, is read as NaN:
    the page shows NaN for the payment, both totals and every amount
    of every row. *)
Theorem unreadable_amount_or_rate_field
    (loan_amount interest_rate loan_duration start_date : string) (n : nat) :
  Fields.firstNotIn "0123456789+-.I" (Fields.trimStart loan_amount) = true
  \/ Fields.firstNotIn "0123456789+-.I" (Fields.trimStart interest_rate) = true ->
  F64.loopBound (Fields.parseInt loan_duration) = Some n ->
  datesValid host start_date n = true ->
  exists page : Page F64.number,
    calculateLoanOfFields pow host loan_amount interest_rate loan_duration start_date
    = Ret page
    /\ monthly_emi page = "NaN"%string
    /\ total_interest page = "NaN"%string
    /\ total_amount page = "NaN"%string
    /\ List.length (schedule_rows page) = n
    /\ forall row, In row (schedule_rows page) ->
         principalAmount row = "NaN"%string
         /\ interest row = "NaN"%string
         /\ balance row = "NaN"%string.
Proof.
  intros Hfield Hn Hv. unfold calculateLoanOfFields.
  apply (page_of_NaN_input pow host); [ | exact Hn | exact Hv ].
  destruct Hfield as [H | H];
    [ left | right ]; apply parseFloat_unreadable in H; exact H.
Qed.

(** A duration field that is empty, or starts (after white space)
    with a character no integer starts with, is read as NaN: with a
    [Math.pow] that gives NaN for the exponent NaN, the page shows
    the loan amount, NaN for the payment and both totals, and no row,
    whatever the other fields hold; nothing is thrown. *)
Theorem unreadable_duration_field
    (loan_amount interest_rate loan_duration start_date : string) :
  (forall x, pow x F64.NaN = F64.NaN) ->
  Fields.firstNotIn "0123456789+-" (Fields.trimStart loan_duration) = true ->
  exists page : Page F64.number,
    calculateLoanOfFields pow host loan_amount interest_rate loan_duration start_date
    = Ret page
    /\ loan_amount_result page = F64.toFixed2 (Fields.parseFloat loan_amount)
    /\ monthly_emi page = "NaN"%string
    /\ total_interest page = "NaN"%string
    /\ total_amount page = "NaN"%string
    /\ schedule_rows page = []
    /\ pie_data page = [Fields.parseFloat loan_amount; F64.NaN].
Proof.
  intros Hpow Hfield. unfold calculateLoanOfFields.
  rewrite (parseInt_unreadable loan_duration Hfield).
  apply (page_of_NaN_duration pow host). exact Hpow.
Qed.

End FieldsOnThePage.

(** ** The parsers on some texts *)

Example parseFloat_texts :
  Fields.parseFloat "0.005" = F64.ofFraction 5 1000
  /\ Fields.parseFloat "6.5%" = F64.ofFraction 13 2
  /\ Fields.parseFloat "  12.75 a year" = F64.ofFraction 51 4
  /\ Fields.parseFloat "1e3" = F64.ofZ 1000
  /\ Fields.parseFloat "1,000" = F64.ofZ 1
  /\ Fields.parseFloat "-.5" = F64.ofFraction (-1) 2
  /\ Fields.parseFloat "-0" = S754_zero true
  /\ Fields.parseFloat "." = F64.NaN
  /\ Fields.parseFloat "$1000" = F64.NaN
  /\ Fields.parseFloat "-Infinity" = S754_infinity true
  /\ Fields.parseFloat "1e400" = F64.Infinity
  /\ Fields.parseFloat "9007199254740993" = F64.ofZ 9007199254740992.
Proof. repeat split; vm_compute; reflexivity. Qed.

Example parseInt_texts :
  Fields.parseInt "12" = F64.ofZ 12
  /\ Fields.parseInt "12.9" = F64.ofZ 12
  /\ Fields.parseInt "1e3" = F64.ofZ 1
  /\ Fields.parseInt "0x10" = F64.ofZ 16
  /\ Fields.parseInt "  -12 months" = F64.ofZ (-12)
  /\ Fields.parseInt "-0" = S754_zero true
  /\ Fields.parseInt "0x" = F64.NaN
  /\ Fields.parseInt "" = F64.NaN
  /\ Fields.parseInt "twelve" = F64.NaN.
Proof. repeat split; vm_compute; reflexivity. Qed.

(** ** The rows and the unrounded amounts *)

Section AmountsFacts.

Context {num : Type} {N : Number num}.
Variable host : JSDate.Host.

Local Open Scope num_scope.

Lemma balanceAfter_runningBalance (loanAmount monthlyEMI interestRate : num) (i : nat) :
  balanceAfter loanAmount monthlyEMI interestRate i
  = Spec.runningBalance loanAmount monthlyEMI (interestRate / ofZ 12) i.
Proof.
  induction i as [ | i IH]; [ reflexivity | ].
  cbn [balanceAfter Spec.runningBalance]. cbv zeta. rewrite IH. reflexivity.
Qed.

Lemma rowOf_periodRow (loanAmount monthlyEMI interestRate : num) (startDate : string)
    (i : nat) :
  rowOf loanAmount monthlyEMI interestRate (Spec.dateText host startDate i) i
  = Spec.periodRow host loanAmount monthlyEMI (interestRate / ofZ 12) startDate i.
Proof.
  unfold rowOf, Spec.periodRow, principalOf, interestOf, Spec.principalPortion,
    Spec.interestPortion.
  rewrite !balanceAfter_runningBalance. reflexivity.
Qed.

(** A returning run: the payment by the formula, the totals from it,
    the rows from the unrounded amounts, and the balance the loop
    ends with. *)
Lemma engine_amounts (loanAmount interestRate loanDuration : num)
    (startDate : string) (n : nat) :
  loopBound loanDuration = Some n ->
  datesValid host startDate n = true ->
  exists r : LoanResult num,
    calculateLoanDetails host loanAmount interestRate loanDuration startDate = Ret r
    /\ monthlyEMI r
       = loanAmount * (interestRate / ofZ 12)
         * Math_pow (ofZ 1 + interestRate / ofZ 12) loanDuration
         / (Math_pow (ofZ 1 + interestRate / ofZ 12) loanDuration - ofZ 1)
    /\ totalInterest r = monthlyEMI r * loanDuration - loanAmount
    /\ totalAmount r = totalInterest r + loanAmount
    /\ repaymentSchedule r
       = map (fun i => rowOf loanAmount (monthlyEMI r) interestRate
                         (Spec.dateText host startDate i) i)
           (seq 0 n)
    /\ scheduleRun host loanAmount (monthlyEMI r) loanDuration startDate interestRate
       = Ret (balanceAfter loanAmount (monthlyEMI r) interestRate n,
              repaymentSchedule r).
Proof.
  intros Hn Hv. unfold calculateLoanDetails.
  rewrite (generateRepaymentScheduleArray_run host _ _ _ _ _ n Hn Hv).
  cbn [bind]. eexists. split; [ reflexivity | ].
  cbn [monthlyEMI totalInterest totalAmount repaymentSchedule].
  repeat (split; [ reflexivity | ]).
  assert (Hrows : forall E,
            Spec.schedule host loanAmount E (interestRate / ofZ 12) startDate n
            = map (fun i => rowOf loanAmount E interestRate
                              (Spec.dateText host startDate i) i) (seq 0 n)).
  { intros E. unfold Spec.schedule. apply map_ext. intros i.
    symmetry. apply rowOf_periodRow. }
  split; [ apply Hrows | ].
  rewrite scheduleRun_run, Hn, Hv, balanceAfter_runningBalance. reflexivity.
Qed.

(** The loop of a returning run after [i] of its turns: the unrounded
    balance, and the first [i] rows. *)
Lemma engine_prefix (loanAmount interestRate loanDuration : num)
    (startDate : string) (n i : nat) (r : LoanResult num) :
  loopBound loanDuration = Some n ->
  datesValid host startDate n = true ->
  (i <= n)%nat ->
  calculateLoanDetails host loanAmount interestRate loanDuration startDate = Ret r ->
  forLoop host (monthlyEMI r) startDate interestRate i 0%Z (loanAmount, [])
  = Ret (balanceAfter loanAmount (monthlyEMI r) interestRate i,
         firstn i (repaymentSchedule r)).
Proof.
  intros Hn Hv Hi. unfold calculateLoanDetails.
  rewrite (generateRepaymentScheduleArray_run host _ _ _ _ _ n Hn Hv).
  cbn [bind]. intros Hr. injection Hr as <-.
  cbn [monthlyEMI repaymentSchedule].
  rewrite balanceAfter_runningBalance.
  apply (forLoop_prefix host); assumption.
Qed.

End AmountsFacts.

(** ** Exact arithmetic: what the schedule adds up to *)

Section ExactSchedule.

Import Exact.
Local Open Scope Qc_scope.

#[local] Existing Instance Q2Qc_proper.

Ltac qc_to_q :=
  unfold Qclt, Qcle, Qcdiv, Qcminus, Qcinv, Qcopp, Qcmult, Qcplus in *;
  repeat match goal with
         | H : context [this (Q2Qc ?q)] |- _ => rewrite (this_Q2Qc q) in H
         | |- context [this (Q2Qc ?q)] => rewrite (this_Q2Qc q)
         end.

Lemma exact_monthly_rate_pos (interestRate : Qc) :
  0 < interestRate -> 0 < (interestRate / ofZ 12)%num.
Proof.
  intros H. cbn [num_div ofZ exact]. unfold Qcdiv.
  apply Qclt_0_mult; [ exact H | apply Qclt_0_inv; reflexivity ].
Qed.

Lemma exact_ofZ_succ (m : nat) :
  @ofZ Qc exact (Z.of_nat (S m)) = @ofZ Qc exact (Z.of_nat m) + 1.
Proof.
  cbn [ofZ exact]. apply Qc_is_canon. qc_to_q.
  rewrite Nat2Z.inj_succ. unfold Z.succ. rewrite inject_Z_plus. reflexivity.
Qed.

(** The amounts in the notation of the closed forms. *)
Lemma exact_principalOf_step (P E rate : Qc) (i : nat) :
  @principalOf Qc exact P E rate (S i)
  = principalOf P E rate i * (1 + (rate / ofZ 12)%num).
Proof.
  unfold principalOf, interestOf. cbn [balanceAfter]. cbv zeta.
  cbn [num_sub num_mul num_add exact].
  set (r := (rate / ofZ 12)%num). set (b := balanceAfter P E rate i). ring.
Qed.

Lemma exact_balance_telescopes (P E rate : Qc) (m : nat) :
  @sumOf Qc exact (principalOf P E rate) m = P - balanceAfter P E rate m.
Proof.
  induction m as [ | m IH].
  - cbn [sumOf balanceAfter ofZ exact]. change (Q2Qc (inject_Z 0)) with 0. ring.
  - cbn [sumOf]. cbn [num_add exact]. rewrite IH.
    unfold principalOf, interestOf. cbn [balanceAfter]. cbv zeta.
    cbn [num_sub num_mul num_add exact]. ring.
Qed.

Lemma exact_interest_sum (P E rate : Qc) (m : nat) :
  @sumOf Qc exact (interestOf P E rate) m
  = E * ofZ (Z.of_nat m) - sumOf (principalOf P E rate) m.
Proof.
  induction m as [ | m IH].
  - cbn [sumOf ofZ exact Z.of_nat]. change (Q2Qc (inject_Z 0)) with 0. ring.
  - rewrite exact_ofZ_succ. cbn [sumOf]. cbn [num_add exact]. rewrite IH.
    unfold principalOf. cbn [num_sub exact]. ring.
Qed.

(** The payment in closed form. *)
Lemma exact_monthlyEMI (P rate : Qc) (k : Z) (E : Qc) :
  (0 < k)%Z ->
  E = (P * (rate / ofZ 12) * Math_pow (ofZ 1 + rate / ofZ 12) (ofZ k)
       / (Math_pow (ofZ 1 + rate / ofZ 12) (ofZ k) - ofZ 1))%num ->
  let r := (rate / ofZ 12)%num in
  E = P * r * (1 + r) ^ Z.to_nat k / ((1 + r) ^ Z.to_nat k - 1).
Proof.
  intros Hk HE r. rewrite HE. fold r.
  rewrite exact_pow_ofZ by exact Hk. reflexivity.
Qed.

Lemma exact_final_balance_zero (P rate : Qc) (n : nat) :
  0 < rate -> (0 < n)%nat ->
  let r := (rate / ofZ 12)%num in
  balanceAfter P (P * r * (1 + r) ^ n / ((1 + r) ^ n - 1)) rate n = 0.
Proof.
  intros Hrate Hn r.
  pose proof (exact_monthly_rate_pos rate Hrate) as Hr. fold r in Hr.
  assert (Hq : 1 < (1 + r) ^ n)
    by (apply Qcpower_gt_1; [ apply Qclt_1_plus; exact Hr | exact Hn ]).
  assert (Hd : (1 + r) ^ n - 1 <> 0).
  { apply Qclt_sub_pos in Hq. intros Heq. rewrite Heq in Hq. discriminate Hq. }
  rewrite balanceAfter_runningBalance. fold r.
  set (E := P * r * (1 + r) ^ n / ((1 + r) ^ n - 1)).
  assert (Hrb : r * Spec.runningBalance P E r n = 0).
  { rewrite exact_balance_closed_form. unfold E. field. exact Hd. }
  apply Qcmult_integral in Hrb. destruct Hrb as [Hr0 | Hb]; [ | exact Hb ].
  rewrite Hr0 in Hr. discriminate Hr.
Qed.

(** Under exact arithmetic, for a positive rate and a term of [k >= 1]
    months, the principal parts of the schedule add up to the loan
    amount and the interest parts to the total interest the engine
    reports. *)
Theorem schedule_adds_up_exact (host : JSDate.Host)
    (loanAmount interestRate : Qc) (k : Z) (startDate : string) :
  0 < interestRate ->
  (0 < k)%Z ->
  datesValid host startDate (Z.to_nat k) = true ->
  exists r : LoanResult Qc,
    calculateLoanDetails host loanAmount interestRate (ofZ k) startDate = Ret r
    /\ repaymentSchedule r
       = map (fun i => rowOf loanAmount (monthlyEMI r) interestRate
                         (Spec.dateText host startDate i) i)
           (seq 0 (Z.to_nat k))
    /\ sumOf (principalOf loanAmount (monthlyEMI r) interestRate) (Z.to_nat k)
       = loanAmount
    /\ sumOf (interestOf loanAmount (monthlyEMI r) interestRate) (Z.to_nat k)
       = totalInterest r.
Proof.
  intros Hrate Hk Hv.
  destruct (engine_amounts host loanAmount interestRate (ofZ k) startDate _
              (exact_loopBound_ofZ k) Hv)
    as (r & Hrun & HE & Hti & _ & Hrows & _).
  exists r. split; [ exact Hrun | ]. split; [ exact Hrows | ].
  pose proof (exact_monthlyEMI loanAmount interestRate k (monthlyEMI r) Hk HE) as HE'.
  cbv zeta in HE'.
  assert (Hzero : balanceAfter loanAmount (monthlyEMI r) interestRate (Z.to_nat k) = 0).
  { rewrite HE'. apply exact_final_balance_zero; [ exact Hrate | lia ]. }
  assert (Hsum : sumOf (principalOf loanAmount (monthlyEMI r) interestRate) (Z.to_nat k)
                 = loanAmount).
  { rewrite exact_balance_telescopes, Hzero. ring. }
  split; [ exact Hsum | ].
  rewrite exact_interest_sum, Hsum, Hti, Z2Nat.id by lia. reflexivity.
Qed.

End ExactSchedule.

Section ExactAmortization.

Import Exact.
Local Open Scope Qc_scope.

#[local] Existing Instance Q2Qc_proper.

Ltac qc_to_q :=
  unfold Qclt, Qcle, Qcdiv, Qcminus, Qcinv, Qcopp, Qcmult, Qcplus in *;
  repeat match goal with
         | H : context [this (Q2Qc ?q)] |- _ => rewrite (this_Q2Qc q) in H
         | |- context [this (Q2Qc ?q)] => rewrite (this_Q2Qc q)
         end.

Lemma Qcpower_add (q : Qc) (i j : nat) : q ^ (i + j) = q ^ i * q ^ j.
Proof.
  induction i as [ | i IH].
  - cbn [Nat.add Qcpower]. ring.
  - cbn [Nat.add Qcpower]. rewrite IH. ring.
Qed.

Lemma Qcpower_lt (q : Qc) (i j : nat) : 1 < q -> (i < j)%nat -> q ^ i < q ^ j.
Proof.
  intros Hq Hij. replace j with (i + (j - i))%nat by lia.
  rewrite Qcpower_add.
  assert (Hi : 0 < q ^ i)
    by (apply Qcpower_gt_0; apply Qclt_trans with (y := 1); [ reflexivity | exact Hq ]).
  assert (Hj : 1 < q ^ (j - i)) by (apply Qcpower_gt_1; [ exact Hq | lia ]).
  qc_to_q. nra.
Qed.

Lemma Qcmult_pos_cancel (a b : Qc) : 0 < a * b -> 0 < b -> 0 < a.
Proof. intros Hab Hb. qc_to_q. nra. Qed.

Lemma Qc_nonzero_of_pos (a : Qc) : 0 < a -> a <> 0.
Proof. intros H Heq. rewrite Heq in H. discriminate H. Qed.

(** The balance [i] months into a loan of [i + j] months. *)
Lemma exact_balance_before_end (P rate : Qc) (i j : nat) :
  0 < rate -> (0 < j)%nat ->
  let r := (rate / ofZ 12)%num in
  let E := P * r * (1 + r) ^ (i + j) / ((1 + r) ^ (i + j) - 1) in
  balanceAfter P E rate i
  = P * (1 + r) ^ i * ((1 + r) ^ j - 1) / ((1 + r) ^ (i + j) - 1).
Proof.
  intros Hrate Hj r E.
  pose proof (exact_monthly_rate_pos rate Hrate) as Hr. fold r in Hr.
  assert (Hq1 : 1 < 1 + r) by (apply Qclt_1_plus; exact Hr).
  assert (Hn : 1 < (1 + r) ^ (i + j)) by (apply Qcpower_gt_1; [ exact Hq1 | lia ]).
  assert (Hd : (1 + r) ^ (i + j) - 1 <> 0).
  { apply Qclt_sub_pos in Hn. apply Qc_nonzero_of_pos. exact Hn. }
  assert (Hr0 : r <> 0) by (apply Qc_nonzero_of_pos; exact Hr).
  rewrite balanceAfter_runningBalance. fold r.
  pose proof (exact_balance_closed_form P E r i) as Hcf.
  assert (Hz : r * (Spec.runningBalance P E r i
                    - P * (1 + r) ^ i * ((1 + r) ^ j - 1) / ((1 + r) ^ (i + j) - 1))
               = 0).
  { replace (r * (Spec.runningBalance P E r i
                  - P * (1 + r) ^ i * ((1 + r) ^ j - 1) / ((1 + r) ^ (i + j) - 1)))
      with (r * Spec.runningBalance P E r i
            - r * (P * (1 + r) ^ i * ((1 + r) ^ j - 1) / ((1 + r) ^ (i + j) - 1)))
      by ring.
    rewrite Hcf. unfold E. rewrite Qcpower_add in *. field. exact Hd. }
  apply Qcmult_integral in Hz. destruct Hz as [Hz | Hz]; [ contradiction | ].
  set (b := Spec.runningBalance P E r i) in *.
  set (v := P * (1 + r) ^ i * ((1 + r) ^ j - 1) / ((1 + r) ^ (i + j) - 1)) in *.
  replace b with (b - v + v) by ring. rewrite Hz. ring.
Qed.

Lemma exact_balance_positive (P rate : Qc) (i j : nat) :
  0 < P -> 0 < rate -> (0 < j)%nat ->
  let r := (rate / ofZ 12)%num in
  let E := P * r * (1 + r) ^ (i + j) / ((1 + r) ^ (i + j) - 1) in
  0 < balanceAfter P E rate i.
Proof.
  intros HP Hrate Hj r E.
  pose proof (exact_monthly_rate_pos rate Hrate) as Hr. fold r in Hr.
  assert (Hq1 : 1 < 1 + r) by (apply Qclt_1_plus; exact Hr).
  unfold E, r. rewrite (exact_balance_before_end P rate i j Hrate Hj). fold r.
  unfold Qcdiv. apply Qclt_0_mult; [ apply Qclt_0_mult; [ apply Qclt_0_mult | ] | ].
  - exact HP.
  - apply Qcpower_gt_0. apply Qclt_trans with (y := 1); [ reflexivity | exact Hq1 ].
  - apply -> Qclt_sub_pos. apply Qcpower_gt_1; [ exact Hq1 | exact Hj ].
  - apply Qclt_0_inv. apply -> Qclt_sub_pos. apply Qcpower_gt_1; [ exact Hq1 | lia ].
Qed.

(** Under exact arithmetic the schedule is consistent with itself:
    [i] months into a loan of [k] months the balance the loop holds
    after [i] turns is still positive, and a new loan of that balance
    over the [k - i] months left, at the same rate, has the same
    monthly payment. *)
Theorem remaining_term_same_payment_exact (host : JSDate.Host)
    (loanAmount interestRate : Qc) (k : Z) (i : nat) (startDate : string) :
  0 < loanAmount ->
  0 < interestRate ->
  (Z.of_nat i < k)%Z ->
  datesValid host startDate (Z.to_nat k) = true ->
  exists (r r' : LoanResult Qc) (owed : Qc),
    calculateLoanDetails host loanAmount interestRate (ofZ k) startDate = Ret r
    /\ forLoop host (monthlyEMI r) startDate interestRate i 0%Z (loanAmount, [])
       = Ret (owed, firstn i (repaymentSchedule r))
    /\ owed = balanceAfter loanAmount (monthlyEMI r) interestRate i
    /\ 0 < owed
    /\ calculateLoanDetails host owed interestRate (ofZ (k - Z.of_nat i)) startDate
       = Ret r'
    /\ monthlyEMI r' = monthlyEMI r.
Proof.
  intros HP Hrate Hik Hv.
  destruct (engine_amounts host loanAmount interestRate (ofZ k) startDate _
              (exact_loopBound_ofZ k) Hv)
    as (r & Hrun & HE & _).
  pose proof (exact_monthlyEMI loanAmount interestRate k (monthlyEMI r) ltac:(lia) HE)
    as HE'.
  cbv zeta in HE'.
  set (j := Z.to_nat (k - Z.of_nat i)).
  assert (Hj : (0 < j)%nat) by (unfold j; lia).
  assert (Hn : Z.to_nat k = (i + j)%nat) by (unfold j; lia).
  rewrite Hn in HE'.
  assert (Hv' : datesValid host startDate j = true)
    by (apply (datesValid_prefix host startDate j (Z.to_nat k)); [ lia | exact Hv ]).
  destruct (engine_amounts host (balanceAfter loanAmount (monthlyEMI r) interestRate i)
              interestRate (ofZ (k - Z.of_nat i)) startDate _
              (exact_loopBound_ofZ (k - Z.of_nat i)) Hv')
    as (r' & Hrun' & HE2 & _).
  pose proof (exact_monthlyEMI _ interestRate (k - Z.of_nat i) (monthlyEMI r')
                ltac:(lia) HE2) as HE2'.
  cbv zeta in HE2'. fold j in HE2'.
  exists r, r', (balanceAfter loanAmount (monthlyEMI r) interestRate i).
  split; [ exact Hrun | ].
  split; [ apply (engine_prefix host loanAmount interestRate (ofZ k) startDate
                    (Z.to_nat k) i r (exact_loopBound_ofZ k) Hv ltac:(lia) Hrun) | ].
  split; [ reflexivity | ].
  split; [ rewrite HE'; apply (exact_balance_positive loanAmount interestRate i j HP
                                 Hrate Hj) | ].
  split; [ exact Hrun' | ].
  rewrite HE2'. rewrite HE' at 1.
  rewrite (exact_balance_before_end loanAmount interestRate i j Hrate Hj).
  rewrite HE'.
  set (q := 1 + (interestRate / ofZ 12)%num).
  pose proof (exact_monthly_rate_pos interestRate Hrate) as Hr.
  assert (Hq1 : 1 < q) by (apply Qclt_1_plus; exact Hr).
  assert (Hc : q ^ j - 1 <> 0).
  { apply Qc_nonzero_of_pos. apply -> Qclt_sub_pos.
    apply Qcpower_gt_1; [ exact Hq1 | exact Hj ]. }
  assert (Hac : q ^ (i + j) - 1 <> 0).
  { apply Qc_nonzero_of_pos. apply -> Qclt_sub_pos.
    apply Qcpower_gt_1; [ exact Hq1 | lia ]. }
  rewrite Qcpower_add in *. field. split; assumption.
Qed.

End ExactAmortization.

Section ExactShape.

Import Exact.
Local Open Scope Qc_scope.

#[local] Existing Instance Q2Qc_proper.

Ltac qc_to_q :=
  unfold Qclt, Qcle, Qcdiv, Qcminus, Qcinv, Qcopp, Qcmult, Qcplus in *;
  repeat match goal with
         | H : context [this (Q2Qc ?q)] |- _ => rewrite (this_Q2Qc q) in H
         | |- context [this (Q2Qc ?q)] => rewrite (this_Q2Qc q)
         end.

Lemma exact_first_principal_positive (P rate : Qc) (n : nat) :
  0 < P -> 0 < rate -> (0 < n)%nat ->
  let r := (rate / ofZ 12)%num in
  let E := P * r * (1 + r) ^ n / ((1 + r) ^ n - 1) in
  0 < principalOf P E rate 0.
Proof.
  intros HP Hrate Hn r E.
  pose proof (exact_monthly_rate_pos rate Hrate) as Hr. fold r in Hr.
  unfold principalOf, interestOf. cbn [balanceAfter num_sub num_mul exact]. fold r.
  replace (E - P * r) with (E - r * P) by ring.
  apply exact_payment_above_first_interest; assumption.
Qed.

Lemma exact_principalOf_positive (P rate : Qc) (n i : nat) :
  0 < P -> 0 < rate -> (0 < n)%nat ->
  let r := (rate / ofZ 12)%num in
  let E := P * r * (1 + r) ^ n / ((1 + r) ^ n - 1) in
  0 < principalOf P E rate i.
Proof.
  intros HP Hrate Hn r E.
  pose proof (exact_monthly_rate_pos rate Hrate) as Hr. fold r in Hr.
  induction i as [ | i IH].
  - apply exact_first_principal_positive; assumption.
  - rewrite exact_principalOf_step. fold r.
    apply Qclt_0_mult; [ exact IH | ].
    apply Qclt_trans with (y := 1); [ reflexivity | apply Qclt_1_plus; exact Hr ].
Qed.

(** Under exact arithmetic, for a positive loan amount and rate, the
    principal part of the payment is positive and grows by the factor
    [1 + monthly rate] from each period to the next, so the interest
    part shrinks; within the term the interest part stays positive. *)
Theorem principal_part_grows_exact (host : JSDate.Host)
    (loanAmount interestRate : Qc) (k : Z) (startDate : string) :
  0 < loanAmount ->
  0 < interestRate ->
  (0 < k)%Z ->
  datesValid host startDate (Z.to_nat k) = true ->
  exists r : LoanResult Qc,
    calculateLoanDetails host loanAmount interestRate (ofZ k) startDate = Ret r
    /\ repaymentSchedule r
       = map (fun i => rowOf loanAmount (monthlyEMI r) interestRate
                         (Spec.dateText host startDate i) i)
           (seq 0 (Z.to_nat k))
    /\ forall i : nat,
         let p := principalOf loanAmount (monthlyEMI r) interestRate in
         let q := interestOf loanAmount (monthlyEMI r) interestRate in
         p (S i) = p i * (1 + interestRate / ofZ 12)%num
         /\ 0 < p i
         /\ p i < p (S i)
         /\ q (S i) < q i
         /\ p i + q i = monthlyEMI r
         /\ ((i < Z.to_nat k)%nat -> 0 < q i).
Proof.
  intros HP Hrate Hk Hv.
  destruct (engine_amounts host loanAmount interestRate (ofZ k) startDate _
              (exact_loopBound_ofZ k) Hv)
    as (r & Hrun & HE & _ & _ & Hrows & _).
  exists r. split; [ exact Hrun | ]. split; [ exact Hrows | ].
  pose proof (exact_monthlyEMI loanAmount interestRate k (monthlyEMI r) Hk HE) as HE'.
  cbv zeta in HE'.
  pose proof (exact_monthly_rate_pos interestRate Hrate) as Hr.
  intros i p q.
  assert (Hstep : p (S i) = p i * (1 + (interestRate / ofZ 12)%num))
    by (apply exact_principalOf_step).
  assert (Hpos : 0 < p i).
  { unfold p. rewrite HE'. apply exact_principalOf_positive; [ assumption .. | lia ]. }
  assert (Hsum : forall j, p j + q j = monthlyEMI r).
  { intros j. unfold p, q, principalOf. cbn [num_sub exact]. ring. }
  assert (Hup : p i < p (S i)).
  { rewrite Hstep. set (x := p i) in *. set (s := (interestRate / ofZ 12)%num) in *.
    qc_to_q. nra. }
  split; [ exact Hstep | ]. split; [ exact Hpos | ]. split; [ exact Hup | ].
  split.
  - replace (q (S i)) with (monthlyEMI r - p (S i))
      by (unfold p, q, principalOf; cbn [num_sub exact]; ring).
    replace (q i) with (monthlyEMI r - p i)
      by (unfold p, q, principalOf; cbn [num_sub exact]; ring).
    set (a := p i) in *. set (a' := p (S i)) in *. set (E := monthlyEMI r) in *.
    clearbody a a' E. clear - Hup. qc_to_q. lra.
  - split; [ apply Hsum | ].
    intros Hi. unfold q, interestOf. cbn [num_mul exact].
    apply Qclt_0_mult; [ | exact Hr ].
    set (j := (Z.to_nat k - i)%nat).
    replace (Z.to_nat k) with (i + j)%nat in HE' by (unfold j; lia).
    rewrite HE'. apply exact_balance_positive; [ assumption .. | unfold j; lia ].
Qed.

Lemma Qcle_0_mult (a b : Qc) : 0 <= a -> 0 <= b -> 0 <= a * b.
Proof. intros Ha Hb. qc_to_q. nra. Qed.

Lemma exact_payment_gap (P s : Qc) (m : nat) :
  (1 + s) ^ S m - 1 <> 0 ->
  P * (1 + s) - P * s * (1 + s) ^ S m / ((1 + s) ^ S m - 1)
  = P * (1 + s) * ((1 + s) ^ m - 1) * / ((1 + s) ^ S m - 1).
Proof.
  intros Hd. change ((1 + s) ^ S m) with ((1 + s) * (1 + s) ^ m) in *.
  field. exact Hd.
Qed.

Lemma sumOf_positive (f : nat -> Qc) (n : nat) :
  (0 < n)%nat -> (forall i, (i < n)%nat -> 0 < f i) -> 0 < @sumOf Qc exact f n.
Proof.
  intros Hn Hf. induction n as [ | n IH]; [ lia | ].
  cbn [sumOf num_add exact].
  assert (Hlast : 0 < f n) by (apply Hf; lia).
  destruct n as [ | n].
  - cbn [sumOf ofZ exact]. change (Q2Qc (inject_Z 0)) with 0.
    rewrite Qcplus_0_l. exact Hlast.
  - assert (Hrest : 0 < sumOf f (S n)) by (apply IH; [ lia | intros i Hi; apply Hf; lia ]).
    set (a := sumOf f (S n)) in *. set (b := f (S n)) in *.
    qc_to_q. lra.
Qed.

(** Under exact arithmetic, for a positive loan amount and rate and a
    term of [k >= 1] months: the payment is more than the first
    month's interest and at most the loan amount with one month's
    interest; the total interest is positive; the total amount is [k]
    payments. *)
Theorem payment_bounds_exact (host : JSDate.Host)
    (loanAmount interestRate : Qc) (k : Z) (startDate : string) :
  0 < loanAmount ->
  0 < interestRate ->
  (0 < k)%Z ->
  datesValid host startDate (Z.to_nat k) = true ->
  exists r : LoanResult Qc,
    calculateLoanDetails host loanAmount interestRate (ofZ k) startDate = Ret r
    /\ loanAmount * (interestRate / ofZ 12)%num < monthlyEMI r
    /\ monthlyEMI r <= loanAmount * (1 + interestRate / ofZ 12)%num
    /\ 0 < totalInterest r
    /\ loanAmount < totalAmount r
    /\ totalAmount r = monthlyEMI r * ofZ k.
Proof.
  intros HP Hrate Hk Hv.
  destruct (engine_amounts host loanAmount interestRate (ofZ k) startDate _
              (exact_loopBound_ofZ k) Hv)
    as (r & Hrun & HE & Hti & Hta & _).
  exists r. split; [ exact Hrun | ].
  pose proof (exact_monthlyEMI loanAmount interestRate k (monthlyEMI r) Hk HE) as HE'.
  cbv zeta in HE'.
  pose proof (exact_monthly_rate_pos interestRate Hrate) as Hr.
  set (s := (interestRate / ofZ 12)%num) in *.
  set (n := Z.to_nat k) in *.
  assert (Hn : (0 < n)%nat) by (unfold n; lia).
  assert (Hq1 : 1 < 1 + s) by (apply Qclt_1_plus; exact Hr).
  assert (Hqn : 1 < (1 + s) ^ n) by (apply Qcpower_gt_1; assumption).
  assert (Hd : (1 + s) ^ n - 1 <> 0).
  { apply Qc_nonzero_of_pos. apply -> Qclt_sub_pos. exact Hqn. }
  assert (Hlow : loanAmount * s < monthlyEMI r).
  { apply Qclt_sub_pos.
    replace (monthlyEMI r - loanAmount * s)
      with (loanAmount * s * (1 + s) ^ n / ((1 + s) ^ n - 1) - s * loanAmount)
      by (rewrite HE'; ring).
    apply exact_payment_above_first_interest; assumption. }
  split; [ exact Hlow | ].
  split.
  - (* P (1 + s) - E = P (1 + s) ((1 + s)^(n-1) - 1) / ((1 + s)^n - 1) *)
    assert (Hgap : loanAmount * (1 + s) - monthlyEMI r
                   = loanAmount * (1 + s) * ((1 + s) ^ (n - 1) - 1)
                     * / ((1 + s) ^ n - 1)).
    { rewrite HE'. pose proof (exact_payment_gap loanAmount s (n - 1)) as Hg.
      replace (S (n - 1)) with n in Hg by lia. apply Hg. exact Hd. }
    assert (Hge : 0 <= (1 + s) ^ (n - 1) - 1).
    { destruct (Nat.eq_dec n 1) as [-> | Hne].
      - cbn [Nat.sub Qcpower]. discriminate.
      - apply Qclt_le_weak. apply -> Qclt_sub_pos.
        apply Qcpower_gt_1; [ exact Hq1 | lia ]. }
    assert (Hinv : 0 < / ((1 + s) ^ n - 1))
      by (apply Qclt_0_inv; apply -> Qclt_sub_pos; exact Hqn).
    apply Qcle_minus_iff.
    change (0 <= loanAmount * (1 + s) - monthlyEMI r). rewrite Hgap.
    apply Qcle_0_mult;
      [ apply Qcle_0_mult; [ apply Qcle_0_mult | exact Hge ]
      | apply Qclt_le_weak; exact Hinv ].
    + apply Qclt_le_weak. exact HP.
    + apply Qclt_le_weak. apply Qclt_trans with (y := 1); [ reflexivity | exact Hq1 ].
  - assert (Hint : 0 < totalInterest r).
    { assert (Hsums : sumOf (interestOf loanAmount (monthlyEMI r) interestRate) n
                      = totalInterest r).
      { assert (Hzero : balanceAfter loanAmount (monthlyEMI r) interestRate n = 0).
        { rewrite HE'. apply exact_final_balance_zero; [ exact Hrate | exact Hn ]. }
        rewrite exact_interest_sum, exact_balance_telescopes, Hzero, Hti.
        unfold n. rewrite Z2Nat.id by lia. cbn [num_sub num_mul exact]. ring. }
      rewrite <- Hsums. apply sumOf_positive; [ exact Hn | ].
      intros i Hi. unfold interestOf. cbn [num_mul exact]. fold s.
      apply Qclt_0_mult; [ | exact Hr ].
      set (j := (n - i)%nat).
      replace n with (i + j)%nat in HE' by (unfold j; lia).
      rewrite HE'. apply exact_balance_positive; [ assumption .. | unfold j; lia ]. }
    split; [ exact Hint | ].
    rewrite Hta. cbn [num_add exact].
    split.
    + set (t := totalInterest r) in *. clearbody t. clear - Hint. qc_to_q. lra.
    + rewrite Hti. cbn [num_sub num_mul exact]. ring.
Qed.

End ExactShape.

Section ExactTerm.

Import Exact.
Local Open Scope Qc_scope.

#[local] Existing Instance Q2Qc_proper.

Ltac qc_to_q :=
  unfold Qclt, Qcle, Qcdiv, Qcminus, Qcinv, Qcopp, Qcmult, Qcplus in *;
  repeat match goal with
         | H : context [this (Q2Qc ?q)] |- _ => rewrite (this_Q2Qc q) in H
         | |- context [this (Q2Qc ?q)] => rewrite (this_Q2Qc q)
         end.

Lemma Qclt_add_pos (a b : Qc) : 0 < b -> a < a + b.
Proof. intros. qc_to_q. lra. Qed.

Lemma Qcle_add_nonneg (a b c : Qc) : a <= b -> 0 <= c -> a <= b + c.
Proof. intros. qc_to_q. lra. Qed.

Lemma Qcle_add_mono (a b c d : Qc) : a <= b -> c <= d -> a + c <= b + d.
Proof. intros. qc_to_q. lra. Qed.

Lemma Qcle_lt_add (a b c : Qc) : a <= b -> 0 < c -> a < b + c.
Proof. intros. qc_to_q. lra. Qed.

Lemma Qclt_inv_anti (x y : Qc) : 0 < x -> x < y -> / y < / x.
Proof.
  intros Hx Hxy.
  assert (Hy : 0 < y) by (apply Qclt_trans with (y := x); assumption).
  assert (Hix : 0 < / x) by (apply Qclt_0_inv; exact Hx).
  assert (Hiy : 0 < / y) by (apply Qclt_0_inv; exact Hy).
  apply Qclt_sub_pos.
  replace (/ x - / y) with ((y - x) * (/ x * / y)).
  - apply Qclt_0_mult; [ apply -> Qclt_sub_pos; exact Hxy | ].
    apply Qclt_0_mult; assumption.
  - field. split; apply Qc_nonzero_of_pos; assumption.
Qed.

(** The payment as the first month's interest and a share that
    shrinks with the term. *)
Lemma exact_payment_split (P s : Qc) (n : nat) :
  (1 + s) ^ n - 1 <> 0 ->
  P * s * (1 + s) ^ n / ((1 + s) ^ n - 1) = P * s + P * s * / ((1 + s) ^ n - 1).
Proof. intros Hd. field. exact Hd. Qed.

Lemma exact_payment_decreases (P s : Qc) (n n' : nat) :
  0 < P -> 0 < s -> (0 < n < n')%nat ->
  P * s * (1 + s) ^ n' / ((1 + s) ^ n' - 1) < P * s * (1 + s) ^ n / ((1 + s) ^ n - 1).
Proof.
  intros HP Hs Hn.
  assert (Hq1 : 1 < 1 + s) by (apply Qclt_1_plus; exact Hs).
  assert (Hx : 0 < (1 + s) ^ n - 1)
    by (apply -> Qclt_sub_pos; apply Qcpower_gt_1; [ exact Hq1 | lia ]).
  assert (Hy : 0 < (1 + s) ^ n' - 1)
    by (apply -> Qclt_sub_pos; apply Qcpower_gt_1; [ exact Hq1 | lia ]).
  assert (Hxy : (1 + s) ^ n - 1 < (1 + s) ^ n' - 1).
  { pose proof (Qcpower_lt (1 + s) n n' Hq1 ltac:(lia)) as Hlt.
    set (a := (1 + s) ^ n) in *. set (b := (1 + s) ^ n') in *.
    clearbody a b. clear - Hlt. qc_to_q. lra. }
  rewrite (exact_payment_split P s n), (exact_payment_split P s n')
    by (apply Qc_nonzero_of_pos; assumption).
  pose proof (Qclt_inv_anti _ _ Hx Hxy) as Hinv.
  assert (HPs : 0 < P * s) by (apply Qclt_0_mult; assumption).
  set (u := / ((1 + s) ^ n - 1)) in *. set (v := / ((1 + s) ^ n' - 1)) in *.
  set (w := P * s) in *. clearbody u v w. clear - Hinv HPs. qc_to_q. nra.
Qed.

Lemma sumOf_split (f : nat -> Qc) (n m : nat) :
  @sumOf Qc exact f (n + m) = sumOf f n + sumOf (fun i => f (n + i)%nat) m.
Proof.
  induction m as [ | m IH].
  - rewrite Nat.add_0_r. cbn [sumOf ofZ exact]. change (Q2Qc (inject_Z 0)) with 0. ring.
  - replace (n + S m)%nat with (S (n + m)) by lia.
    cbn [sumOf num_add exact]. rewrite IH. ring.
Qed.

Lemma sumOf_le (f g : nat -> Qc) (n : nat) :
  (forall i, (i < n)%nat -> f i <= g i) -> @sumOf Qc exact f n <= sumOf g n.
Proof.
  intros H. induction n as [ | n IH].
  - apply Qcle_refl.
  - cbn [sumOf num_add exact]. apply Qcle_add_mono; [ | apply H; lia ].
    apply IH. intros i Hi. apply H. lia.
Qed.

Lemma exact_interest_of_payment (P E E' rate : Qc) (i : nat) :
  0 < rate -> E' <= E ->
  interestOf P E rate i <= interestOf P E' rate i.
Proof.
  intros Hrate HE.
  pose proof (exact_monthly_rate_pos rate Hrate) as Hr.
  unfold interestOf. rewrite !balanceAfter_runningBalance. cbn [num_mul exact].
  set (s := (rate / ofZ 12)%num) in *.
  replace (Spec.runningBalance P E s i * s) with (s * Spec.runningBalance P E s i) by ring.
  replace (Spec.runningBalance P E' s i * s) with (s * Spec.runningBalance P E' s i)
    by ring.
  rewrite !exact_balance_closed_form.
  assert (Hq : 0 <= (1 + s) ^ i - 1).
  { destruct i as [ | i]; [ discriminate | ].
    apply Qclt_le_weak. apply -> Qclt_sub_pos.
    apply Qcpower_gt_1; [ apply Qclt_1_plus; exact Hr | lia ]. }
  set (g := (1 + s) ^ i - 1) in *. set (a := s * P * (1 + s) ^ i).
  clearbody g a. clear - HE Hq. qc_to_q. nra.
Qed.

(** Under exact arithmetic, for a positive loan amount and rate, a
    longer term means a lower monthly payment and more interest in
    total. *)
Theorem longer_term_exact (host : JSDate.Host)
    (loanAmount interestRate : Qc) (k k' : Z) (startDate : string) :
  0 < loanAmount ->
  0 < interestRate ->
  (0 < k < k')%Z ->
  datesValid host startDate (Z.to_nat k') = true ->
  exists r r' : LoanResult Qc,
    calculateLoanDetails host loanAmount interestRate (ofZ k) startDate = Ret r
    /\ calculateLoanDetails host loanAmount interestRate (ofZ k') startDate = Ret r'
    /\ monthlyEMI r' < monthlyEMI r
    /\ totalInterest r < totalInterest r'.
Proof.
  intros HP Hrate Hk Hv'.
  assert (Hv : datesValid host startDate (Z.to_nat k) = true)
    by (apply (datesValid_prefix host startDate _ (Z.to_nat k')); [ lia | exact Hv' ]).
  destruct (engine_amounts host loanAmount interestRate (ofZ k) startDate _
              (exact_loopBound_ofZ k) Hv)
    as (r & Hrun & HE & Hti & _).
  destruct (engine_amounts host loanAmount interestRate (ofZ k') startDate _
              (exact_loopBound_ofZ k') Hv')
    as (r' & Hrun' & HE2 & Hti' & _).
  exists r, r'. split; [ exact Hrun | ]. split; [ exact Hrun' | ].
  pose proof (exact_monthlyEMI loanAmount interestRate k (monthlyEMI r) ltac:(lia) HE)
    as HE'.
  pose proof (exact_monthlyEMI loanAmount interestRate k' (monthlyEMI r') ltac:(lia) HE2)
    as HE2'.
  cbv zeta in HE', HE2'.
  pose proof (exact_monthly_rate_pos interestRate Hrate) as Hr.
  set (n := Z.to_nat k) in *. set (n' := Z.to_nat k') in *.
  assert (Hn : (0 < n < n')%nat) by (unfold n, n'; lia).
  assert (Hpay : monthlyEMI r' < monthlyEMI r).
  { rewrite HE', HE2'. apply exact_payment_decreases; assumption. }
  split; [ exact Hpay | ].
  (* the totals as sums of the interest parts *)
  assert (Hsum : forall (m : nat) (x : LoanResult Qc) (kk : Z),
            m = Z.to_nat kk -> (0 < kk)%Z ->
            monthlyEMI x
            = loanAmount * (interestRate / ofZ 12)%num
              * (1 + (interestRate / ofZ 12)%num) ^ m
              / ((1 + (interestRate / ofZ 12)%num) ^ m - 1) ->
            totalInterest x = (monthlyEMI x * ofZ kk - loanAmount)%num ->
            sumOf (interestOf loanAmount (monthlyEMI x) interestRate) m
            = totalInterest x).
  { intros m x kk Hm Hkk Hx Htx.
    assert (Hzero : balanceAfter loanAmount (monthlyEMI x) interestRate m = 0).
    { rewrite Hx. apply exact_final_balance_zero; [ exact Hrate | lia ]. }
    rewrite exact_interest_sum, exact_balance_telescopes, Hzero, Htx, Hm.
    rewrite Z2Nat.id by lia. cbn [num_sub num_mul exact]. ring. }
  rewrite <- (Hsum n r k eq_refl ltac:(lia) HE' Hti).
  rewrite <- (Hsum n' r' k' eq_refl ltac:(lia) HE2' Hti').
  assert (Hsplit : sumOf (interestOf loanAmount (monthlyEMI r') interestRate) n'
                   = sumOf (interestOf loanAmount (monthlyEMI r') interestRate) n
                     + sumOf (fun i => interestOf loanAmount (monthlyEMI r') interestRate
                                         (n + i)%nat) (n' - n)).
  { rewrite <- sumOf_split. f_equal. lia. }
  rewrite Hsplit.
  apply Qcle_lt_add.
  - apply sumOf_le. intros i _.
    apply exact_interest_of_payment; [ exact Hrate | apply Qclt_le_weak; exact Hpay ].
  - apply sumOf_positive; [ lia | ].
    intros i Hi. unfold interestOf. cbn [num_mul exact].
    apply Qclt_0_mult; [ | exact Hr ].
    set (j := (n' - (n + i))%nat).
    replace n' with ((n + i) + j)%nat in HE2' by (unfold j; lia).
    rewrite HE2'. apply exact_balance_positive; [ assumption .. | unfold j; lia ].
Qed.

End ExactTerm.

Section ExactDisplay.

Import Exact.

Local Open Scope Q_scope.

Lemma cents_of_nonneg (x : Q) :
  0 <= x ->
  inject_Z (Fixed.cents x) - (1 # 2) <= x * 100
  /\ x * 100 < inject_Z (Fixed.cents x) + (1 # 2).
Proof.
  intros Hx. pose proof (cents_nearest x) as H.
  rewrite (Qabs_pos x Hx) in H. exact H.
Qed.

Lemma inject_Z_within (z : Z) (b : Z) :
  - inject_Z b - (1 # 2) < inject_Z z -> inject_Z z < inject_Z b + (1 # 2) ->
  (Z.abs z <= b)%Z.
Proof.
  unfold Qlt, Qplus, Qminus, Qopp, inject_Z. cbn [Qnum Qden Qplus Qopp].
  intros H1 H2. lia.
Qed.

(** Three amounts rounded one by one: the cents of two parts and the
    cents of their sum differ by one at most. *)
Lemma cents_of_sum (x y z : Q) :
  0 <= x -> 0 <= y -> 0 <= z -> x + y == z ->
  (Z.abs (Fixed.cents x + Fixed.cents y - Fixed.cents z) <= 1)%Z.
Proof.
  intros Hx Hy Hz Hsum.
  destruct (cents_of_nonneg x Hx) as [Hx1 Hx2].
  destruct (cents_of_nonneg y Hy) as [Hy1 Hy2].
  destruct (cents_of_nonneg z Hz) as [Hz1 Hz2].
  apply inject_Z_within; unfold Z.sub;
    rewrite !inject_Z_plus, inject_Z_opp; change (inject_Z 1) with 1; lra.
Qed.

(** A total and [k] times a rounded part. *)
Lemma cents_of_multiple (e t : Q) (k : Z) :
  0 <= e -> 0 <= t -> (0 < k)%Z -> t == e * inject_Z k ->
  (2 * Z.abs (Fixed.cents t - k * Fixed.cents e) <= k)%Z.
Proof.
  intros He Ht Hk Heq.
  destruct (cents_of_nonneg e He) as [He1 He2].
  destruct (cents_of_nonneg t Ht) as [Ht1 Ht2].
  assert (HK : 1 <= inject_Z k).
  { change 1 with (inject_Z 1). rewrite <- Zle_Qle. lia. }
  set (K := inject_Z k) in *. set (ce := inject_Z (Fixed.cents e)) in *.
  set (ct := inject_Z (Fixed.cents t)) in *.
  assert (Hup : 2 * (ct - K * ce) < K + 1) by nra.
  assert (Hlo : - (K + 1) < 2 * (ct - K * ce)) by nra.
  assert (Hz : 2 * (ct - K * ce)
               == inject_Z (2 * (Fixed.cents t - k * Fixed.cents e))).
  { unfold ct, K, ce, Z.sub.
    rewrite inject_Z_mult, inject_Z_plus, inject_Z_opp, inject_Z_mult.
    change (inject_Z 2) with 2. ring. }
  rewrite Hz in Hup, Hlo. unfold K in Hup, Hlo.
  change 1 with (inject_Z 1) in Hup, Hlo.
  rewrite <- inject_Z_plus in Hup, Hlo. rewrite <- inject_Z_opp in Hlo.
  rewrite <- Zlt_Qlt in Hup, Hlo. lia.
Qed.

Local Open Scope Qc_scope.

Lemma toFixed2_of_nonneg (x : Qc) :
  0 <= x -> @toFixed2 Qc exact x = Fixed.render false (Fixed.cents x).
Proof.
  intros Hx. cbn [toFixed2 exact]. unfold Fixed.toFixed2, Fixed.isNegative.
  assert (H : Qle_bool 0 x = true) by (apply Qle_bool_iff; exact Hx).
  rewrite H. reflexivity.
Qed.

Lemma Qc_this_plus (a b c : Qc) : a + b = c -> (this a + this b == this c)%Q.
Proof. intros <-. unfold Qcplus. symmetry. apply this_Q2Qc. Qed.

Lemma Qc_this_mult (a b c : Qc) : a * b = c -> (this a * this b == this c)%Q.
Proof. intros <-. unfold Qcmult. symmetry. apply this_Q2Qc. Qed.

Lemma exact_ofZ_pos (k : Z) : (0 < k)%Z -> 0 < @ofZ Qc exact k.
Proof.
  intros Hk. cbn [ofZ exact]. unfold Qclt. rewrite !this_Q2Qc.
  change 0%Q with (inject_Z 0). rewrite <- Zlt_Qlt. exact Hk.
Qed.

(** The signs of the amounts of a loan with positive amount and rate. *)
Lemma exact_amounts_nonneg (host : JSDate.Host)
    (loanAmount interestRate : Qc) (k : Z) (startDate : string) :
  0 < loanAmount ->
  0 < interestRate ->
  (0 < k)%Z ->
  datesValid host startDate (Z.to_nat k) = true ->
  exists r : LoanResult Qc,
    calculateLoanDetails host loanAmount interestRate (ofZ k) startDate = Ret r
    /\ 0 < monthlyEMI r
    /\ 0 < totalAmount r
    /\ totalAmount r = monthlyEMI r * ofZ k
    /\ repaymentSchedule r
       = map (fun i => rowOf loanAmount (monthlyEMI r) interestRate
                         (Spec.dateText host startDate i) i)
           (seq 0 (Z.to_nat k))
    /\ forall i, (i < Z.to_nat k)%nat ->
         let p := principalOf loanAmount (monthlyEMI r) interestRate i in
         let q := interestOf loanAmount (monthlyEMI r) interestRate i in
         let b := balanceAfter loanAmount (monthlyEMI r) interestRate i in
         let b' := balanceAfter loanAmount (monthlyEMI r) interestRate (S i) in
         0 <= p /\ 0 <= q /\ 0 <= b /\ 0 <= b' /\ p + q = monthlyEMI r /\ p + b' = b.
Proof.
  intros HP Hrate Hk Hv.
  destruct (engine_amounts host loanAmount interestRate (ofZ k) startDate _
              (exact_loopBound_ofZ k) Hv)
    as (r & Hrun & HE & Hti & Hta & Hrows & _).
  exists r. split; [ exact Hrun | ].
  pose proof (exact_monthlyEMI loanAmount interestRate k (monthlyEMI r) Hk HE) as HE'.
  cbv zeta in HE'.
  pose proof (exact_monthly_rate_pos interestRate Hrate) as Hr.
  set (s := (interestRate / ofZ 12)%num) in *.
  set (n := Z.to_nat k) in *.
  assert (Hn : (0 < n)%nat) by (unfold n; lia).
  assert (HEpos : 0 < monthlyEMI r).
  { apply Qclt_trans with (y := s * loanAmount);
      [ apply Qclt_0_mult; assumption | ].
    apply Qclt_sub_pos. rewrite HE'.
    apply exact_payment_above_first_interest; assumption. }
  assert (HT : totalAmount r = monthlyEMI r * ofZ k).
  { rewrite Hta, Hti. cbn [num_add num_sub num_mul exact]. ring. }
  split; [ exact HEpos | ].
  split; [ rewrite HT; apply Qclt_0_mult; [ exact HEpos | apply exact_ofZ_pos; exact Hk ] | ].
  split; [ exact HT | ]. split; [ exact Hrows | ].
  assert (Hbal : forall i, (i < n)%nat ->
            0 < balanceAfter loanAmount (monthlyEMI r) interestRate i).
  { intros i Hi. set (j := (n - i)%nat).
    replace n with (i + j)%nat in HE' by (unfold j; lia).
    rewrite HE'. apply exact_balance_positive; [ assumption .. | unfold j; lia ]. }
  assert (Hend : balanceAfter loanAmount (monthlyEMI r) interestRate n = 0).
  { rewrite HE'. apply exact_final_balance_zero; [ exact Hrate | exact Hn ]. }
  intros i Hi p q b b'.
  split; [ apply Qclt_le_weak; unfold p; rewrite HE';
           apply exact_principalOf_positive; assumption | ].
  split; [ apply Qclt_le_weak; unfold q, interestOf; cbn [num_mul exact];
           apply Qclt_0_mult; [ apply Hbal; exact Hi | exact Hr ] | ].
  split; [ apply Qclt_le_weak; apply Hbal; exact Hi | ].
  split.
  - destruct (Nat.eq_dec (S i) n) as [Heq | Hne].
    + unfold b'. rewrite Heq, Hend. discriminate.
    + apply Qclt_le_weak. apply Hbal. lia.
  - split.
    + unfold p, q, principalOf. cbn [num_sub exact]. ring.
    + unfold p, b', b, principalOf, interestOf. cbn [balanceAfter]. cbv zeta.
      cbn [num_sub num_mul exact]. ring.
Qed.

(** Under exact arithmetic, for a positive loan amount and rate, the
    figures shown fit together to the cent: in every row the
    principal and the interest shown differ from the payment shown by
    one cent at most, and the balance shown differs by one cent at
    most from the balance shown the month before less the principal
    shown; the total amount shown differs from [k] times the payment
    shown by at most [k / 2] cents. *)
Theorem shown_figures_fit_exact (host : JSDate.Host)
    (loanAmount interestRate : Qc) (k : Z) (startDate : string) :
  0 < loanAmount ->
  0 < interestRate ->
  (0 < k)%Z ->
  datesValid host startDate (Z.to_nat k) = true ->
  exists r : LoanResult Qc,
    calculateLoanDetails host loanAmount interestRate (ofZ k) startDate = Ret r
    /\ toFixed2 (monthlyEMI r) = Fixed.render false (Fixed.cents (monthlyEMI r))
    /\ toFixed2 (totalAmount r) = Fixed.render false (Fixed.cents (totalAmount r))
    /\ (2 * Z.abs (Fixed.cents (totalAmount r) - k * Fixed.cents (monthlyEMI r)) <= k)%Z
    /\ forall i, (i < Z.to_nat k)%nat ->
         let p := principalOf loanAmount (monthlyEMI r) interestRate i in
         let q := interestOf loanAmount (monthlyEMI r) interestRate i in
         let b := balanceAfter loanAmount (monthlyEMI r) interestRate i in
         let b' := balanceAfter loanAmount (monthlyEMI r) interestRate (S i) in
         nth_error (repaymentSchedule r) i
         = Some {| date := Spec.dateText host startDate i;
                   principalAmount := Fixed.render false (Fixed.cents p);
                   interest := Fixed.render false (Fixed.cents q);
                   balance := Fixed.render false (Fixed.cents b') |}
         /\ (Z.abs (Fixed.cents p + Fixed.cents q - Fixed.cents (monthlyEMI r)) <= 1)%Z
         /\ (Z.abs (Fixed.cents p + Fixed.cents b' - Fixed.cents b) <= 1)%Z.
Proof.
  intros HP Hrate Hk Hv.
  destruct (exact_amounts_nonneg host loanAmount interestRate k startDate HP Hrate
              Hk Hv)
    as (r & Hrun & HEpos & HTpos & HT & Hrows & Hamounts).
  exists r. split; [ exact Hrun | ].
  split; [ apply toFixed2_of_nonneg; apply Qclt_le_weak; exact HEpos | ].
  split; [ apply toFixed2_of_nonneg; apply Qclt_le_weak; exact HTpos | ].
  split.
  - apply cents_of_multiple.
    + apply Qclt_le_weak in HEpos. exact HEpos.
    + apply Qclt_le_weak in HTpos. exact HTpos.
    + exact Hk.
    + symmetry. rewrite <- (this_Q2Qc (inject_Z k)).
      apply Qc_this_mult. symmetry. exact HT.
  - intros i Hi p q b b'.
    destruct (Hamounts i Hi) as (Hp & Hq & Hb & Hb' & Hpq & Hpb).
    fold p in Hp, Hpq, Hpb. fold q in Hq, Hpq. fold b in Hb, Hpb. fold b' in Hb', Hpb.
    split.
    + rewrite Hrows, nth_error_map, nth_error_seq.
      destruct (Nat.ltb_spec i (Z.to_nat k)) as [_ | Hge]; [ | lia ].
      cbn [option_map Nat.add]. unfold rowOf. fold p q b'.
      rewrite (toFixed2_of_nonneg p), (toFixed2_of_nonneg q), (toFixed2_of_nonneg b')
        by assumption.
      reflexivity.
    + split.
      * apply cents_of_sum; [ exact Hp | exact Hq | | apply Qc_this_plus; exact Hpq ].
        apply Qclt_le_weak in HEpos. exact HEpos.
      * apply cents_of_sum; [ exact Hp | exact Hb' | exact Hb
                            | apply Qc_this_plus; exact Hpb ].
Qed.

End ExactDisplay.

(** ** The further properties at concrete inputs *)

Ltac by_computation :=
  vm_compute;
  repeat match goal with |- _ /\ _ => split end;
  first [ reflexivity | let H := fresh in intro H; discriminate H ].

Lemma day_past_month_end_runs_over_witness :
  loopBound (Number := refDouble) (F64.ofZ 2) = Some 2%nat
  /\ datesValid JSDate.utcHost "2024-01-31" 2 = true
  /\ exists r : LoanResult F64.number,
       calculateLoanDetails (N := refDouble) JSDate.utcHost (F64.ofZ 1000)
         (F64.ofFraction 6 100) (F64.ofZ 2) "2024-01-31" = Ret r
       /\ exists row : Row,
            nth_error (repaymentSchedule r) 1 = Some row
            /\ date row = "2024-03-02"%string.
Proof.
  split; [ vm_compute; reflexivity | ].
  split; [ vm_compute; reflexivity | ].
  destruct (day_past_month_end_runs_over (N := refDouble) JSDate.utcHost (F64.ofZ 1000)
              (F64.ofFraction 6 100) (F64.ofZ 2) "2024-01-31" 2 2024 0 31)
    as (r & Hrun & Hrows);
    [ vm_compute; reflexivity | vm_compute; reflexivity | intros; reflexivity
    | vm_compute; reflexivity | lia | by_computation | ].
  exists r. split; [ exact Hrun | ].
  exact (Hrows 1%nat ltac:(lia) ltac:(by_computation)).
Defined.

Lemma fixed_offset_as_utc_witness :
  JSDate.Date_parse (JSDate.offsetHost 19800000) "2024-01-31"
  = Some (JSDate.MakeDate (JSDate.MakeDay 2024 0 31) 0)
  /\ calculateLoanDetails (N := refDouble) (JSDate.offsetHost 19800000) (F64.ofZ 1000)
       (F64.ofFraction 6 100) (F64.ofZ 12) "2024-01-31"
     = calculateLoanDetails (N := refDouble) JSDate.utcHost (F64.ofZ 1000)
         (F64.ofFraction 6 100) (F64.ofZ 12) "2024-01-31".
Proof.
  split; [ vm_compute; reflexivity | ].
  apply (fixed_offset_as_utc (N := refDouble) (JSDate.offsetHost 19800000) JSDate.utcHost
           (F64.ofZ 1000) (F64.ofFraction 6 100) (F64.ofZ 12) "2024-01-31"
           19800000 2024 0 31);
    [ intros; reflexivity | intros; reflexivity | vm_compute; reflexivity
    | vm_compute; reflexivity | by_computation | lia | by_computation | lia ].
Defined.

Lemma west_of_greenwich_first_of_month_witness :
  loopBound (Number := refDouble) (F64.ofZ 3) = Some 3%nat
  /\ datesValid (JSDate.offsetHost (-18000000)) "2024-03-01" 3 = true
  /\ exists r : LoanResult F64.number,
       calculateLoanDetails (N := refDouble) (JSDate.offsetHost (-18000000))
         (F64.ofZ 1000) (F64.ofFraction 6 100) (F64.ofZ 3) "2024-03-01" = Ret r
       /\ exists row : Row,
            nth_error (repaymentSchedule r) 1 = Some row
            /\ date row = "2024-03-30"%string.
Proof.
  split; [ vm_compute; reflexivity | ].
  split; [ vm_compute; reflexivity | ].
  destruct (west_of_greenwich_first_of_month (N := refDouble)
              (JSDate.offsetHost (-18000000)) (F64.ofZ 1000) (F64.ofFraction 6 100)
              (F64.ofZ 3) "2024-03-01" 3 (-18000000) 2024 2)
    as (r & Hrun & Hrows);
    [ vm_compute; reflexivity | vm_compute; reflexivity | intros; reflexivity
    | vm_compute; reflexivity | by_computation | lia | ].
  exists r. split; [ exact Hrun | ].
  exact (Hrows 1%nat ltac:(lia)).
Defined.

Lemma first_row_shows_start_date_witness :
  loopBound (Number := refDouble) (F64.ofZ 1) = Some 1%nat
  /\ datesValid (JSDate.offsetHost (-18000000)) "2024-01-31" 1 = true
  /\ exists (r : LoanResult F64.number) (row : Row),
       calculateLoanDetails (N := refDouble) (JSDate.offsetHost (-18000000))
         (F64.ofZ 1000) (F64.ofFraction 6 100) (F64.ofZ 1) "2024-01-31" = Ret r
       /\ nth_error (repaymentSchedule r) 0 = Some row
       /\ date row = "2024-01-31"%string.
Proof.
  split; [ vm_compute; reflexivity | ].
  split; [ vm_compute; reflexivity | ].
  destruct (first_row_shows_start_date (N := refDouble) (JSDate.offsetHost (-18000000))
              (F64.ofZ 1000) (F64.ofFraction 6 100) (F64.ofZ 1) "2024-01-31" 0
              2024 0 31)
    as (r & row & Hrun & Hrow & Hdate & _);
    [ vm_compute; reflexivity | vm_compute; reflexivity | vm_compute; reflexivity
    | lia | by_computation | reflexivity | ].
  exists r, row. split; [ exact Hrun | ]. split; [ exact Hrow | exact Hdate ].
Defined.

Lemma consecutive_rows_a_month_apart_witness :
  loopBound (Number := refDouble) (F64.ofZ 2) = Some 2%nat
  /\ datesValid (JSDate.offsetHost 3600000) "2024-01-15" 2 = true
  /\ exists (r : LoanResult F64.number) (t t' : Z),
       calculateLoanDetails (N := refDouble) (JSDate.offsetHost 3600000)
         (F64.ofZ 1000) (F64.ofFraction 6 100) (F64.ofZ 2) "2024-01-15" = Ret r
       /\ periodDate (JSDate.offsetHost 3600000) "2024-01-15" 0 = Some t
       /\ periodDate (JSDate.offsetHost 3600000) "2024-01-15" 1 = Some t'
       /\ 28 * JSDate.msPerDay <= t' - t <= 31 * JSDate.msPerDay.
Proof.
  split; [ vm_compute; reflexivity | ].
  split; [ vm_compute; reflexivity | ].
  destruct (consecutive_rows_a_month_apart (N := refDouble) (JSDate.offsetHost 3600000)
              (F64.ofZ 1000) (F64.ofFraction 6 100) (F64.ofZ 2) "2024-01-15" 2 3600000)
    as (r & Hrun & Hrows);
    [ vm_compute; reflexivity | vm_compute; reflexivity | intros; reflexivity | ].
  destruct (Hrows 0%nat ltac:(lia)) as (row & row' & t & t' & _ & _ & Ht & Ht' & _ & _ & Hgap).
  exists r, t, t'. split; [ exact Hrun | ].
  split; [ exact Ht | ]. split; [ exact Ht' | exact Hgap ].
Defined.

Lemma larger_offset_shows_day_before_witness :
  loopBound (Number := refDouble) (F64.ofZ 2) = Some 2%nat
  /\ datesValid summerTimeHost "2024-03-15" 2 = true
  /\ exists r : LoanResult F64.number,
       calculateLoanDetails (N := refDouble) summerTimeHost (F64.ofZ 1000)
         (F64.ofFraction 6 100) (F64.ofZ 2) "2024-03-15" = Ret r
       /\ exists row : Row,
            nth_error (repaymentSchedule r) 1 = Some row
            /\ date row = "2024-04-14"%string.
Proof.
  split; [ vm_compute; reflexivity | ].
  split; [ vm_compute; reflexivity | ].
  destruct (larger_offset_shows_day_before (N := refDouble) summerTimeHost (F64.ofZ 1000)
              (F64.ofFraction 6 100) (F64.ofZ 2) "2024-03-15" 2 2024 2 15)
    as (r & Hrun & Hrows);
    [ vm_compute; reflexivity | vm_compute; reflexivity | vm_compute; reflexivity
    | lia | by_computation | by_computation | ].
  exists r. split; [ exact Hrun | ].
  exact (Hrows 1%nat ltac:(lia) ltac:(by_computation) ltac:(by_computation)).
Defined.

Lemma not_a_number_spreads_witness :
  F64.loopBound (F64.ofZ 2) = Some 2%nat
  /\ datesValid JSDate.utcHost "2024-01-01" 2 = true
  /\ exists page : Page F64.number,
       calculateLoan (N := refDouble) JSDate.utcHost F64.NaN (F64.ofZ 6) (F64.ofZ 2)
         "2024-01-01" = Ret page
       /\ monthly_emi page = "NaN"%string
       /\ total_interest page = "NaN"%string
       /\ total_amount page = "NaN"%string
       /\ List.length (schedule_rows page) = 2%nat
       /\ forall row, In row (schedule_rows page) ->
            principalAmount row = "NaN"%string
            /\ interest row = "NaN"%string
            /\ balance row = "NaN"%string.
Proof.
  split; [ vm_compute; reflexivity | ].
  split; [ vm_compute; reflexivity | ].
  apply (not_a_number_spreads F64.powRef JSDate.utcHost F64.NaN (F64.ofZ 6) (F64.ofZ 2)
           "2024-01-01" 2);
    [ left; reflexivity | vm_compute; reflexivity | vm_compute; reflexivity ].
Defined.

Lemma no_period_no_date_witness :
  SFltb (F64.ofZ 0) (F64.ofZ (-3)) = false
  /\ exists r : LoanResult F64.number,
       calculateLoanDetails (N := refDouble) JSDate.utcHost (F64.ofZ 1000)
         (F64.ofFraction 6 100) (F64.ofZ (-3)) "no date" = Ret r
       /\ repaymentSchedule r = [].
Proof.
  split; [ vm_compute; reflexivity | ].
  destruct (no_period_no_date F64.powRef JSDate.utcHost (F64.ofZ 1000)
              (F64.ofFraction 6 100) (F64.ofZ (-3)) "no date")
    as (r & Hrun & Hrows & _); [ vm_compute; reflexivity | ].
  exists r. split; [ exact Hrun | exact Hrows ].
Defined.

Lemma missing_duration_shows_NaN_witness :
  (forall x, F64.powRef x F64.NaN = F64.NaN)
  /\ exists page : Page F64.number,
       calculateLoan (N := refDouble) JSDate.utcHost (F64.ofZ 1000) (F64.ofZ 6) F64.NaN
         "" = Ret page
       /\ monthly_emi page = "NaN"%string
       /\ schedule_rows page = [].
Proof.
  assert (Hpow : forall x, F64.powRef x F64.NaN = F64.NaN)
    by (intros x; destruct x; reflexivity).
  split; [ exact Hpow | ].
  destruct (missing_duration_shows_NaN F64.powRef JSDate.utcHost (F64.ofZ 1000)
              (F64.ofZ 6) "" Hpow)
    as (page & Hrun & _ & Hemi & _ & _ & Hrows & _).
  exists page. split; [ exact Hrun | ]. split; [ exact Hemi | exact Hrows ].
Defined.

Lemma loop_counter_in_doubles_witness :
  F64.guardTrips 20 (F64.ofZ 0) (F64.ofZ 12) = Some 12%nat
  /\ F64.loopBound (F64.ofZ 12) = Some 12%nat
  /\ (forall tests : nat, F64.guardTrips tests (F64.ofZ 0) F64.Infinity = None)
  /\ F64.loopBound F64.Infinity = None.
Proof.
  apply (loop_counter_in_doubles 12 20); [ lia | vm_compute; lia ].
Defined.

Lemma cells_are_plain_text_witness :
  F64.loopBound (F64.ofZ 2) = Some 2%nat
  /\ datesValid JSDate.utcHost "2024-01-01" 2 = true
  /\ exists r : LoanResult F64.number,
       calculateLoanDetails (N := refDouble) JSDate.utcHost (F64.ofZ 1000)
         (F64.ofFraction 6 100) (F64.ofZ 2) "2024-01-01" = Ret r
       /\ forall row, In row (repaymentSchedule r) ->
            allIn dateAlphabet (date row) = true
            /\ allIn amountAlphabet (principalAmount row) = true
            /\ allIn amountAlphabet (interest row) = true
            /\ allIn amountAlphabet (balance row) = true
            /\ countChar "<" (rowMarkup row) = 10%nat
            /\ countChar ">" (rowMarkup row) = 10%nat
            /\ countChar "&" (rowMarkup row) = 0%nat.
Proof.
  split; [ vm_compute; reflexivity | ].
  split; [ vm_compute; reflexivity | ].
  apply (cells_are_plain_text F64.powRef JSDate.utcHost (F64.ofZ 1000)
           (F64.ofFraction 6 100) (F64.ofZ 2) "2024-01-01" 2);
    vm_compute; reflexivity.
Defined.

Lemma zero_rate_page_shows_NaN_witness :
  F64.isFinite (F64.ofZ 1000) = true
  /\ datesValid JSDate.utcHost "2024-01-01" (Z.to_nat 2) = true
  /\ exists page : Page F64.number,
       calculateLoan (N := refDouble) JSDate.utcHost (F64.ofZ 1000) (F64.ofZ 0)
         (F64.ofZ 2) "2024-01-01" = Ret page
       /\ monthly_emi page = "NaN"%string
       /\ total_interest page = "NaN"%string
       /\ total_amount page = "NaN"%string.
Proof.
  split; [ vm_compute; reflexivity | ].
  split; [ vm_compute; reflexivity | ].
  destruct (zero_rate_page_shows_NaN F64.powRef JSDate.utcHost (F64.ofZ 1000) 2
              "2024-01-01" powRef_one_base)
    as (page & Hrun & Hemi & Hti & Hta & _);
    [ vm_compute; reflexivity | lia | vm_compute; reflexivity | ].
  exists page. split; [ exact Hrun | ].
  split; [ exact Hemi | ]. split; [ exact Hti | exact Hta ].
Defined.

Lemma amounts_independent_of_dates_witness :
  loopBound (Number := refDouble) (F64.ofZ 2) = Some 2%nat
  /\ datesValid JSDate.utcHost "2024-01-01" 2 = true
  /\ datesValid (JSDate.offsetHost (-18000000)) "2025-06-15" 2 = true
  /\ exists r r' : LoanResult F64.number,
       calculateLoanDetails (N := refDouble) JSDate.utcHost (F64.ofZ 1000)
         (F64.ofFraction 6 100) (F64.ofZ 2) "2024-01-01" = Ret r
       /\ calculateLoanDetails (N := refDouble) (JSDate.offsetHost (-18000000))
            (F64.ofZ 1000) (F64.ofFraction 6 100) (F64.ofZ 2) "2025-06-15" = Ret r'
       /\ monthlyEMI r = monthlyEMI r'
       /\ totalInterest r = totalInterest r'
       /\ totalAmount r = totalAmount r'
       /\ map (fun row => (principalAmount row, interest row, balance row))
            (repaymentSchedule r)
          = map (fun row => (principalAmount row, interest row, balance row))
              (repaymentSchedule r').
Proof.
  split; [ vm_compute; reflexivity | ].
  split; [ vm_compute; reflexivity | ].
  split; [ vm_compute; reflexivity | ].
  apply (amounts_independent_of_dates (N := refDouble) JSDate.utcHost
           (JSDate.offsetHost (-18000000)) (F64.ofZ 1000) (F64.ofFraction 6 100)
           (F64.ofZ 2) "2024-01-01" "2025-06-15" 2);
    vm_compute; reflexivity.
Defined.

Section ExactWitnesses.

Import Exact.

Lemma schedule_adds_up_exact_witness :
  (0 < Q2Qc (6 # 100))%Qc
  /\ datesValid JSDate.utcHost "2024-01-01" (Z.to_nat 3) = true
  /\ exists r : LoanResult Qc,
       calculateLoanDetails (N := Exact.exact) JSDate.utcHost (Q2Qc 1000)
         (Q2Qc (6 # 100)) (ofZ 3) "2024-01-01" = Ret r
       /\ sumOf (principalOf (Q2Qc 1000) (monthlyEMI r) (Q2Qc (6 # 100))) (Z.to_nat 3)
          = Q2Qc 1000
       /\ sumOf (interestOf (Q2Qc 1000) (monthlyEMI r) (Q2Qc (6 # 100))) (Z.to_nat 3)
          = totalInterest r.
Proof.
  split; [ vm_compute; reflexivity | ].
  split; [ vm_compute; reflexivity | ].
  destruct (schedule_adds_up_exact JSDate.utcHost (Q2Qc 1000) (Q2Qc (6 # 100)) 3
              "2024-01-01")
    as (r & Hrun & _ & Hp & Hq);
    [ vm_compute; reflexivity | lia | vm_compute; reflexivity | ].
  exists r. split; [ exact Hrun | ]. split; [ exact Hp | exact Hq ].
Defined.

Lemma remaining_term_same_payment_exact_witness :
  (0 < Q2Qc 1000)%Qc
  /\ (0 < Q2Qc (6 # 100))%Qc
  /\ datesValid JSDate.utcHost "2024-01-01" (Z.to_nat 3) = true
  /\ exists (r r' : LoanResult Qc) (owed : Qc),
       calculateLoanDetails (N := Exact.exact) JSDate.utcHost (Q2Qc 1000)
         (Q2Qc (6 # 100)) (ofZ 3) "2024-01-01" = Ret r
       /\ forLoop (N := Exact.exact) JSDate.utcHost (monthlyEMI r) "2024-01-01"
            (Q2Qc (6 # 100)) 1 0 (Q2Qc 1000, [])
          = Ret (owed, firstn 1 (repaymentSchedule r))
       /\ owed = balanceAfter (Q2Qc 1000) (monthlyEMI r) (Q2Qc (6 # 100)) 1
       /\ (0 < owed)%Qc
       /\ calculateLoanDetails (N := Exact.exact) JSDate.utcHost owed
            (Q2Qc (6 # 100)) (ofZ (3 - Z.of_nat 1)) "2024-01-01" = Ret r'
       /\ monthlyEMI r' = monthlyEMI r.
Proof.
  split; [ vm_compute; reflexivity | ].
  split; [ vm_compute; reflexivity | ].
  split; [ vm_compute; reflexivity | ].
  apply (remaining_term_same_payment_exact JSDate.utcHost (Q2Qc 1000) (Q2Qc (6 # 100))
           3 1 "2024-01-01");
    [ vm_compute; reflexivity | vm_compute; reflexivity | lia | vm_compute; reflexivity ].
Defined.

Lemma principal_part_grows_exact_witness :
  (0 < Q2Qc 1000)%Qc
  /\ (0 < Q2Qc (6 # 100))%Qc
  /\ datesValid JSDate.utcHost "2024-01-01" (Z.to_nat 3) = true
  /\ exists r : LoanResult Qc,
       calculateLoanDetails (N := Exact.exact) JSDate.utcHost (Q2Qc 1000)
         (Q2Qc (6 # 100)) (ofZ 3) "2024-01-01" = Ret r
       /\ (principalOf (Q2Qc 1000) (monthlyEMI r) (Q2Qc (6 # 100)) 0
           < principalOf (Q2Qc 1000) (monthlyEMI r) (Q2Qc (6 # 100)) 1)%Qc
       /\ (interestOf (Q2Qc 1000) (monthlyEMI r) (Q2Qc (6 # 100)) 1
           < interestOf (Q2Qc 1000) (monthlyEMI r) (Q2Qc (6 # 100)) 0)%Qc.
Proof.
  split; [ vm_compute; reflexivity | ].
  split; [ vm_compute; reflexivity | ].
  split; [ vm_compute; reflexivity | ].
  destruct (principal_part_grows_exact JSDate.utcHost (Q2Qc 1000) (Q2Qc (6 # 100)) 3
              "2024-01-01")
    as (r & Hrun & _ & Hshape);
    [ vm_compute; reflexivity | vm_compute; reflexivity | lia | vm_compute; reflexivity | ].
  exists r. split; [ exact Hrun | ].
  destruct (Hshape 0%nat) as (_ & _ & Hp & Hq & _).
  split; [ exact Hp | exact Hq ].
Defined.

Lemma payment_bounds_exact_witness :
  (0 < Q2Qc 1000)%Qc
  /\ (0 < Q2Qc (6 # 100))%Qc
  /\ datesValid JSDate.utcHost "2024-01-01" (Z.to_nat 3) = true
  /\ exists r : LoanResult Qc,
       calculateLoanDetails (N := Exact.exact) JSDate.utcHost (Q2Qc 1000)
         (Q2Qc (6 # 100)) (ofZ 3) "2024-01-01" = Ret r
       /\ (0 < totalInterest r)%Qc
       /\ totalAmount r = (monthlyEMI r * ofZ 3)%Qc.
Proof.
  split; [ vm_compute; reflexivity | ].
  split; [ vm_compute; reflexivity | ].
  split; [ vm_compute; reflexivity | ].
  destruct (payment_bounds_exact JSDate.utcHost (Q2Qc 1000) (Q2Qc (6 # 100)) 3
              "2024-01-01")
    as (r & Hrun & _ & _ & Hti & _ & Hta);
    [ vm_compute; reflexivity | vm_compute; reflexivity | lia | vm_compute; reflexivity | ].
  exists r. split; [ exact Hrun | ]. split; [ exact Hti | exact Hta ].
Defined.

Lemma longer_term_exact_witness :
  (0 < Q2Qc 1000)%Qc
  /\ (0 < Q2Qc (6 # 100))%Qc
  /\ datesValid JSDate.utcHost "2024-01-01" (Z.to_nat 4) = true
  /\ exists r r' : LoanResult Qc,
       calculateLoanDetails (N := Exact.exact) JSDate.utcHost (Q2Qc 1000)
         (Q2Qc (6 # 100)) (ofZ 3) "2024-01-01" = Ret r
       /\ calculateLoanDetails (N := Exact.exact) JSDate.utcHost (Q2Qc 1000)
            (Q2Qc (6 # 100)) (ofZ 4) "2024-01-01" = Ret r'
       /\ (monthlyEMI r' < monthlyEMI r)%Qc
       /\ (totalInterest r < totalInterest r')%Qc.
Proof.
  split; [ vm_compute; reflexivity | ].
  split; [ vm_compute; reflexivity | ].
  split; [ vm_compute; reflexivity | ].
  apply (longer_term_exact JSDate.utcHost (Q2Qc 1000) (Q2Qc (6 # 100)) 3 4 "2024-01-01");
    [ vm_compute; reflexivity | vm_compute; reflexivity | lia | vm_compute; reflexivity ].
Defined.

Lemma shown_figures_fit_exact_witness :
  (0 < Q2Qc 1000)%Qc
  /\ (0 < Q2Qc (6 # 100))%Qc
  /\ datesValid JSDate.utcHost "2024-01-01" (Z.to_nat 3) = true
  /\ exists r : LoanResult Qc,
       calculateLoanDetails (N := Exact.exact) JSDate.utcHost (Q2Qc 1000)
         (Q2Qc (6 # 100)) (ofZ 3) "2024-01-01" = Ret r
       /\ 2 * Z.abs (Fixed.cents (totalAmount r) - 3 * Fixed.cents (monthlyEMI r)) <= 3.
Proof.
  split; [ vm_compute; reflexivity | ].
  split; [ vm_compute; reflexivity | ].
  split; [ vm_compute; reflexivity | ].
  destruct (shown_figures_fit_exact JSDate.utcHost (Q2Qc 1000) (Q2Qc (6 # 100)) 3
              "2024-01-01")
    as (r & Hrun & _ & _ & Hfit & _);
    [ vm_compute; reflexivity | vm_compute; reflexivity | lia | vm_compute; reflexivity | ].
  exists r. split; [ exact Hrun | exact Hfit ].
Defined.

End ExactWitnesses.

Lemma fields_read_as_numbers_witness :
  Fields.firstNotIn "0123456789.eE" " EUR" = true
  /\ Fields.firstNotIn "0123456789.eE" "%" = true
  /\ Fields.firstNotIn "0123456789xX" ".5" = true
  /\ Fields.parseInt "12.5" = F64.ofZ 12
  /\ calculateLoanOfFields F64.powRef JSDate.utcHost "1000 EUR" "6%" "12.5" "2024-01-01"
     = calculateLoan (N := refDouble) JSDate.utcHost (F64.ofZ 1000) (F64.ofZ 6)
         (F64.ofZ 12) "2024-01-01".
Proof.
  split; [ reflexivity | ]. split; [ reflexivity | ]. split; [ reflexivity | ].
  destruct (fields_read_as_numbers F64.powRef JSDate.utcHost 1000 6 12 " EUR" "%" ".5"
              "2024-01-01")
    as (_ & _ & Hmonths & Hpage);
    [ lia | lia | lia | reflexivity | reflexivity | reflexivity | ].
  split; [ exact Hmonths | exact Hpage ].
Defined.

Lemma unreadable_amount_or_rate_field_witness :
  Fields.firstNotIn "0123456789+-.I" (Fields.trimStart "") = true
  /\ F64.loopBound (Fields.parseInt "2") = Some 2%nat
  /\ datesValid JSDate.utcHost "2024-01-01" 2 = true
  /\ exists page : Page F64.number,
       calculateLoanOfFields F64.powRef JSDate.utcHost "" "6" "2" "2024-01-01" = Ret page
       /\ monthly_emi page = "NaN"%string
       /\ total_interest page = "NaN"%string
       /\ total_amount page = "NaN"%string
       /\ List.length (schedule_rows page) = 2%nat
       /\ forall row, In row (schedule_rows page) ->
            principalAmount row = "NaN"%string
            /\ interest row = "NaN"%string
            /\ balance row = "NaN"%string.
Proof.
  split; [ reflexivity | ].
  split; [ vm_compute; reflexivity | ].
  split; [ vm_compute; reflexivity | ].
  apply (unreadable_amount_or_rate_field F64.powRef JSDate.utcHost "" "6" "2"
           "2024-01-01" 2);
    [ left; reflexivity | vm_compute; reflexivity | vm_compute; reflexivity ].
Defined.

Lemma unreadable_duration_field_witness :
  (forall x, F64.powRef x F64.NaN = F64.NaN)
  /\ Fields.firstNotIn "0123456789+-" (Fields.trimStart " twelve") = true
  /\ exists page : Page F64.number,
       calculateLoanOfFields F64.powRef JSDate.utcHost "1000" "6" " twelve" "" = Ret page
       /\ monthly_emi page = "NaN"%string
       /\ schedule_rows page = [].
Proof.
  assert (Hpow : forall x, F64.powRef x F64.NaN = F64.NaN)
    by (intros x; destruct x; reflexivity).
  split; [ exact Hpow | ]. split; [ reflexivity | ].
  destruct (unreadable_duration_field F64.powRef JSDate.utcHost "1000" "6" " twelve" ""
              Hpow eq_refl)
    as (page & Hrun & _ & Hemi & _ & _ & Hrows & _).
  exists page. split; [ exact Hrun | ]. split; [ exact Hemi | exact Hrows ].
Defined.

Lemma endless_term_throws_witness :
  (forall t b, Z.abs (JSDate.LocalTZA summerTimeHost t b) <= JSDate.msPerDay)
  /\ F64.loopBound (Fields.parseInt "99999999999999999999") = None
  /\ calculateLoan (N := refDouble) summerTimeHost (F64.ofZ 1000) (F64.ofZ 6)
       (Fields.parseInt "99999999999999999999") "2024-01-01"
     = Throw RangeError.
Proof.
  assert (Hoff : forall t b,
             Z.abs (JSDate.LocalTZA summerTimeHost t b) <= JSDate.msPerDay).
  { intros t b. cbn [JSDate.LocalTZA summerTimeHost].
    destruct ((3 <=? JSDate.MonthFromTime t) && (JSDate.MonthFromTime t <=? 8));
      vm_compute; discriminate. }
  split; [ exact Hoff | ]. split; [ vm_compute; reflexivity | ].
  destruct (endless_term_throws summerTimeHost Hoff (N := refDouble) (F64.ofZ 1000)
              (F64.ofZ 6) (Fields.parseInt "99999999999999999999") "2024-01-01")
    as (_ & _ & Hpage'); [ vm_compute; reflexivity | ].
  exact Hpage'.
Defined.
